(** * trading-analysis: the indicator engine, the price cache and the watchlist

    A shallow embedding of the RSI trackers of Benggoy/trading-analysis
    ([ultimate_rsi_tracker.py], [enhanced_rsi_tracker.py],
    [rsi_tracker_app.py]) and of the stand-alone calculator
    [indicators/rsi_calculator.py].

    Numbers.  A Python float is modelled by [fval]: a rational, or one of
    the IEEE special values NaN, +inf, -inf.  Arithmetic on rationals is
    exact (binary64 rounding is not modelled) and every finite result is
    kept in lowest terms, so that equal values are equal terms.  The sign
    of a zero is not tracked: the only place where it is visible in the
    programs below is [avg_gain / avg_loss] with a zero loss and a positive
    gain, where it selects +inf or -inf, and [100 - 100 / (1 + rs)] is 100
    for both (lemma [rsi_of_rs_inf]).  A statement that depends on the
    value of a difference, of a window sum or of a quotient is made for
    whole-number prices of at most 2^31 in absolute value
    ([Shape.whole_prices]): there binary64 computes the differences and
    the sums without rounding or overflow, and the statement holds of
    the program as of the model.  The slope numpy fits to a window is a
    parameter ([Fit]).

    Strings.  A Python [str] is a [string], a sequence of code points
    below 256; the tracked symbols are ASCII tickers.  [Str.upper]
    follows Python on these code points, two of them apart whose
    capitals lie beyond 255; the statements about an upper-cased text
    take one that holds neither ([Str.upper_in_range]). *)

From Stdlib Require Import Ascii String.
From stdpp Require Import gmap strings list pretty.
From Stdlib Require Import QArith Qreduction Lqa.

Local Open Scope Q_scope.

(** ** Floating-point values *)

Inductive fval : Type :=
  | NaN
  | PInf
  | NInf
  | Fin (q : Q).

Module F.

Definition fin (q : Q) : fval := Fin (Qred q).

Definition Qltb (a b : Q) : bool := negb (Qle_bool b a).

Definition is_nan (x : fval) : bool :=
  match x with NaN => true | _ => false end.

Definition is_finite (x : fval) : bool :=
  match x with Fin _ => true | _ => false end.

Definition neg (x : fval) : fval :=
  match x with
  | NaN => NaN
  | PInf => NInf
  | NInf => PInf
  | Fin q => fin (- q)
  end.

Definition add (x y : fval) : fval :=
  match x, y with
  | NaN, _ | _, NaN => NaN
  | PInf, NInf | NInf, PInf => NaN
  | PInf, _ | _, PInf => PInf
  | NInf, _ | _, NInf => NInf
  | Fin a, Fin b => fin (a + b)
  end.

Definition sub (x y : fval) : fval := add x (neg y).

(** Sign of a value as seen by a product or a quotient: [Some true] for
    a negative value, [Some false] for a positive one, [None] for zero
    and NaN. *)
Definition sign (x : fval) : option bool :=
  match x with
  | NaN => None
  | PInf => Some false
  | NInf => Some true
  | Fin q => if Qltb q 0 then Some true
             else if Qltb 0 q then Some false else None
  end.

Definition inf_of (negative : bool) : fval :=
  if negative then NInf else PInf.

Definition mul (x y : fval) : fval :=
  match x, y with
  | NaN, _ | _, NaN => NaN
  | Fin a, Fin b => fin (a * b)
  | _, _ =>
      match sign x, sign y with
      | Some s, Some t => inf_of (xorb s t)
      | _, _ => NaN
      end
  end.

Definition div (x y : fval) : fval :=
  match x, y with
  | NaN, _ | _, NaN => NaN
  | Fin a, Fin b =>
      if Qeq_bool b 0 then
        match sign x with
        | Some s => inf_of s
        | None => NaN
        end
      else fin (a / b)
  | Fin _, _ => Fin 0
  | PInf, Fin b => inf_of (Qltb b 0)
  | NInf, Fin b => inf_of (negb (Qltb b 0))
  | _, _ => NaN
  end.

(** Comparisons: every comparison with NaN is false. *)
Definition lt (x y : fval) : bool :=
  match x, y with
  | NaN, _ | _, NaN => false
  | _, NInf => false
  | NInf, _ => true
  | PInf, _ => false
  | _, PInf => true
  | Fin a, Fin b => Qltb a b
  end.

Definition gt (x y : fval) : bool := lt y x.

Definition of_nat (n : nat) : fval := Fin (inject_Z (Z.of_nat n)).


End F.

Declare Scope fval_scope.
Delimit Scope fval_scope with F.
Bind Scope fval_scope with fval.
Infix "+" := F.add : fval_scope.
Infix "-" := F.sub : fval_scope.
Infix "*" := F.mul : fval_scope.
Infix "/" := F.div : fval_scope.
Notation "- x" := (F.neg x) : fval_scope.
Infix "<?" := F.lt : fval_scope.
Infix ">?" := F.gt : fval_scope.

(** ** pandas series

    A [pd.Series] of floats is the list of its values in index order.  Only
    the operations the programs use are modelled. *)

Abbreviation Series := (list fval).

Module Pandas.

Local Open Scope fval_scope.

(** [s.diff()]: the first element has no predecessor. *)
Definition diff (s : Series) : Series :=
  match s with
  | [] => []
  | _ :: tl => NaN :: zip_with (fun prev cur => cur - prev) s tl
  end.

(** [s.where(cond, other)], the condition given pointwise. *)
Definition where_ (cond : fval -> bool) (other : fval) (s : Series) : Series :=
  (fun x => if cond x then x else other) <$> s.

Definition sum (w : Series) : fval := foldl F.add (Fin 0) w.

(** The value of [s.rolling(window).mean()] at position [i]:
    [min_periods] defaults to [window], so the window must be complete
    and free of NaN. *)
Definition window_at (window : nat) (s : Series) (i : nat) : Series :=
  take window (drop (i + 1 - window) s).

Definition rolling_at (f : Series -> fval) (window : nat) (s : Series) (i : nat) : fval :=
  if (window =? 0)%nat || (i + 1 <? window)%nat then NaN
  else
    let w := window_at window s i in
    if existsb F.is_nan w then NaN else f w.

Definition mean (w : Series) : fval := sum w / F.of_nat (length w).

Definition rolling_mean (window : nat) (s : Series) : Series :=
  rolling_at mean window s <$> seq 0 (length s).

(** [s.ewm(span=span, adjust=False).mean()] on a series without NaN:
    [y0 = x0], [y_t = (1 - alpha) * y_(t-1) + alpha * x_t] with
    [alpha = 2 / (span + 1)].  pandas raises [ValueError] when
    [span < 1]. *)
Definition alpha (span : nat) : fval := Fin 2 / (F.of_nat span + Fin 1).

Fixpoint ewm_from (a : fval) (prev : fval) (s : Series) : Series :=
  match s with
  | [] => []
  | x :: tl =>
      let y := (Fin 1 - a) * prev + a * x in
      y :: ewm_from a y tl
  end.

Definition ewm_mean (span : nat) (s : Series) : option Series :=
  if (span <? 1)%nat then None
  else Some
    match s with
    | [] => []
    | x :: tl => x :: ewm_from (alpha span) x tl
    end.

Definition fillna (v : fval) (s : Series) : Series :=
  (fun x => if F.is_nan x then v else x) <$> s.

(** [rs = avg_gains / avg_losses; rsi = 100 - (100 / (1 + rs))] *)
Definition rsi_of_rs (rs : fval) : fval := Fin 100 - Fin 100 / (Fin 1 + rs).

(** A series of finite values, each below the next. *)
Fixpoint strictly_increasing (s : Series) : bool :=
  match s with
  | [] => true
  | a :: tl =>
      F.is_finite a
      && match tl with
         | [] => true
         | b :: _ => (a <? b) && strictly_increasing tl
         end
  end.

End Pandas.

(** ** ultimate_rsi_tracker.py: class RSICalculator

    [period] is a natural number: [rolling] rejects a negative window. *)

Module Tracker.

Local Open Scope fval_scope.

(** [RSICalculator.calculate_rsi(prices, period)] *)
Definition calculate_rsi (prices : Series) (period : nat) : Series :=
  if (length prices <? period + 1)%nat then
    replicate (length prices) (Fin 50)
  else
    let deltas := Pandas.diff prices in
    let gains := Pandas.where_ (fun d => d >? Fin 0) (Fin 0) deltas in
    let losses := F.neg <$> Pandas.where_ (fun d => d <? Fin 0) (Fin 0) deltas in
    let avg_gains := Pandas.rolling_mean period gains in
    let avg_losses := Pandas.rolling_mean period losses in
    let rs := zip_with F.div avg_gains avg_losses in
    let rsi := Pandas.rsi_of_rs <$> rs in
    Pandas.fillna (Fin 50) rsi.

(** [RSICalculator.calculate_moving_averages(prices, periods)]: the
    dict [mas], keyed by [f'MA{period}']. *)
Definition ma_key (period : nat) : string := "MA" +:+ pretty period.

Definition calculate_moving_averages (prices : Series) (periods : list nat)
  : gmap string Series :=
  foldl (fun mas period => <[ma_key period := Pandas.rolling_mean period prices]> mas)
        ∅ periods.

(** The RSI status of [update_stock_data]:
    [if rsi > 70: overbought; elif rsi < 30: oversold; else: neutral]. *)
Inductive rsi_status : Type := Overbought | Oversold | Neutral.

Definition status_of_rsi (rsi : fval) : rsi_status :=
  if rsi >? Fin 70 then Overbought
  else if rsi <? Fin 30 then Oversold
  else Neutral.

End Tracker.


(** ** indicators/rsi_calculator.py

    [calculate_rsi] has the same text in [rsi_calculator_compatible.py],
    [rsi_calculator_legacy.py] and [rsi_simple.py]. *)

Module Indicators.

Local Open Scope fval_scope.

Record RSICalculator : Type := {
  period : nat;
  overbought_level : fval;
  oversold_level : fval
}.

(** [RSICalculator.__init__(period)] *)
Definition init (period : nat) : RSICalculator :=
  {| period := period; overbought_level := Fin 70; oversold_level := Fin 30 |}.

(** [calculate_rsi(self, data)].  [None] is the [ValueError] that
    [ewm] raises for a span below 1. *)
Definition calculate_rsi (self : RSICalculator) (data : Series) : option Series :=
  let delta := Pandas.diff data in
  let gain := Pandas.where_ (fun d => d >? Fin 0) (Fin 0) delta in
  let loss := F.neg <$> Pandas.where_ (fun d => d <? Fin 0) (Fin 0) delta in
  avg_gain ← Pandas.ewm_mean (period self) gain;
  avg_loss ← Pandas.ewm_mean (period self) loss;
  let rs := zip_with F.div avg_gain avg_loss in
  Some (Pandas.rsi_of_rs <$> rs).

Inductive signal : Type := HOLD | BUY | SELL.

Record signal_row : Type := {
  RSI : fval;
  Signal : signal;
  Signal_Change : bool
}.

(** [frame.loc[mask, column] = value] on one column. *)
Definition loc_assign {A} (mask : list bool) (value : A) (column : list A) : list A :=
  zip_with (fun (m : bool) x => if m then value else x) mask column.

Definition signal_eqb (a b : signal) : bool :=
  match a, b with
  | HOLD, HOLD | BUY, BUY | SELL, SELL => true
  | _, _ => false
  end.

(** [column != column.shift(1)]: the first row is compared with a
    missing value and differs from it. *)
Definition changed (column : list signal) : list bool :=
  match column with
  | [] => []
  | _ :: tl => true :: zip_with (fun prev cur => negb (signal_eqb cur prev)) column tl
  end.

(** [detect_signals(self, rsi)] *)
Definition signal_column (self : RSICalculator) (rsi : Series) : list signal :=
  let column := replicate (length rsi) HOLD in
  let column := loc_assign ((fun r => r <? oversold_level self) <$> rsi) BUY column in
  loc_assign ((fun r => r >? overbought_level self) <$> rsi) SELL column.

Definition detect_signals (self : RSICalculator) (rsi : Series) : list signal_row :=
  let column := signal_column self rsi in
  zip_with (fun r '(s, c) => {| RSI := r; Signal := s; Signal_Change := c |})
           rsi (zip column (changed column)).

(** [np.polyfit(range(len(x)), x, 1)[0]]: the least-squares slope of the
    window against the positions 0, 1, ..., in closed form. *)
Definition positions (w : Series) : Series := F.of_nat <$> seq 0 (length w).

Definition slope (w : Series) : fval :=
  let n := F.of_nat (length w) in
  let xs := positions w in
  let sx := Pandas.sum xs in
  let sy := Pandas.sum w in
  let sxy := Pandas.sum (zip_with F.mul xs w) in
  let sxx := Pandas.sum (zip_with F.mul xs xs) in
  (n * sxy - sx * sy) / (n * sxx - sx * sx).

Definition rolling_slope (window : nat) (s : Series) : Series :=
  Pandas.rolling_at slope window s <$> seq 0 (length s).

Inductive divergence : Type := NONE | BULLISH | BEARISH.

Record divergence_row : Type := {
  Price : fval;
  Div_RSI : fval;
  Divergence : divergence
}.

Definition and3 (a b c : list bool) : list bool :=
  zip_with andb (zip_with andb a b) c.

(** The [Divergence] column of [detect_divergence], for two series on
    the same index. *)
Definition divergence_column (prices rsi : Series) (window : nat) : list divergence :=
  let column := replicate (length prices) NONE in
  let price_trend := rolling_slope window prices in
  let rsi_trend := rolling_slope window rsi in
  let bullish_div :=
    and3 ((fun t => t <? Fin 0) <$> price_trend)
         ((fun t => t >? Fin 0) <$> rsi_trend)
         ((fun r => r <? Fin 40) <$> rsi) in
  let column := loc_assign bullish_div BULLISH column in
  let bearish_div :=
    and3 ((fun t => t >? Fin 0) <$> price_trend)
         ((fun t => t <? Fin 0) <$> rsi_trend)
         ((fun r => r >? Fin 60) <$> rsi) in
  loc_assign bearish_div BEARISH column.

(** [detect_divergence(self, prices, rsi, window)].  A straight line
    cannot be fitted to fewer than two points: the result is [None] for
    a window below 2. *)
Definition detect_divergence (self : RSICalculator) (prices rsi : Series)
    (window : nat) : option (list divergence_row) :=
  if (window <? 2)%nat then None
  else Some
    (zip_with (fun '(p, r) d => {| Price := p; Div_RSI := r; Divergence := d |})
              (zip prices rsi) (divergence_column prices rsi window)).

End Indicators.

(** ** indicators/rsi_calculator.py: [detect_divergence] over numpy's fit

    The slope [np.polyfit(range(len(x)), x, 1)[0]] is computed by numpy
    in binary64: it is a parameter here, [None] when numpy raises.
    [Indicators.detect_divergence] above is the instance with the exact
    least-squares slope. *)

Module Fit.

Import Indicators.

Local Open Scope fval_scope.

Section Polyfit.

Variable polyfit_slope : Series -> option fval.

(** The value of [s.rolling(window).apply(f)] at position [i]: pandas
    reads an infinity as a missing value, and calls [f] on the windows
    that are complete and hold no missing value. *)
Definition rolling_apply_at (window : nat) (s : Series) (i : nat) : option fval :=
  if (window =? 0)%nat || (i + 1 <? window)%nat then Some NaN
  else
    let w := Pandas.window_at window s i in
    if forallb F.is_finite w then polyfit_slope w else Some NaN.

Definition rolling_apply (window : nat) (s : Series) : option Series :=
  mapM (rolling_apply_at window s) (seq 0 (length s)).

(** numpy raises on no window of the series. *)
Definition succeeds (window : nat) (s : Series) : Prop :=
  forall j, (j < length s)%nat -> is_Some (rolling_apply_at window s j).

(** The [Divergence] column of [detect_divergence], for two series on
    the same index. *)
Definition divergence_column (prices rsi : Series) (window : nat)
  : option (list divergence) :=
  let column := replicate (length prices) NONE in
  price_trend ← rolling_apply window prices;
  rsi_trend ← rolling_apply window rsi;
  let bullish_div :=
    and3 ((fun t => t <? Fin 0) <$> price_trend)
         ((fun t => t >? Fin 0) <$> rsi_trend)
         ((fun r => r <? Fin 40) <$> rsi) in
  let column := loc_assign bullish_div BULLISH column in
  let bearish_div :=
    and3 ((fun t => t >? Fin 0) <$> price_trend)
         ((fun t => t <? Fin 0) <$> rsi_trend)
         ((fun r => r >? Fin 60) <$> rsi) in
  Some (loc_assign bearish_div BEARISH column).

(** [detect_divergence(self, prices, rsi, window)] *)
Definition detect_divergence (self : RSICalculator) (prices rsi : Series)
    (window : nat) : option (list divergence_row) :=
  column ← divergence_column prices rsi window;
  Some
    (zip_with (fun '(p, r) d => {| Price := p; Div_RSI := r; Divergence := d |})
              (zip prices rsi) column).

End Polyfit.

End Fit.

(** ** The json module, for lists of strings

    [json.dump] and [json.load] with their default arguments, on the
    values a watchlist holds.  The decoder follows [json.decoder] and
    [json.scanner] one character at a time; a document in which a JSON
    value other than a string starts where the list or one of its
    strings is expected is reported as [Unsupported], whether it goes
    on as valid JSON or not: what the tracker does with it is not
    modelled. *)

Module Json.

Local Open Scope char_scope.

Definition quote : ascii := "034".
Definition backslash : ascii := "\".

Definition hex_digit (n : N) : ascii :=
  match n with
  | 0%N => "0" | 1%N => "1" | 2%N => "2" | 3%N => "3"
  | 4%N => "4" | 5%N => "5" | 6%N => "6" | 7%N => "7"
  | 8%N => "8" | 9%N => "9" | 10%N => "a" | 11%N => "b"
  | 12%N => "c" | 13%N => "d" | 14%N => "e" | _ => "f"
  end.

(** [encode_basestring_ascii]: printable ASCII stands for itself, the
    quote, the backslash and five control characters have a short
    escape, every other character is written [\uXXXX]. *)
Definition encode_char (c : ascii) : string :=
  let n := N_of_ascii c in
  if (n =? 34)%N then String backslash (String quote EmptyString)
  else if (n =? 92)%N then String backslash (String backslash EmptyString)
  else if (n =? 8)%N then String backslash (String "b" EmptyString)
  else if (n =? 12)%N then String backslash (String "f" EmptyString)
  else if (n =? 10)%N then String backslash (String "n" EmptyString)
  else if (n =? 13)%N then String backslash (String "r" EmptyString)
  else if (n =? 9)%N then String backslash (String "t" EmptyString)
  else if (32 <=? n)%N && (n <=? 126)%N then String c EmptyString
  else
    String backslash (String "u" (String "0" (String "0"
      (String (hex_digit (n / 16)) (String (hex_digit (n mod 16)) EmptyString))))).

Fixpoint encode_chars (s : string) : string :=
  match s with
  | EmptyString => EmptyString
  | String c tl => encode_char c +:+ encode_chars tl
  end.

Definition encode_string (s : string) : string :=
  String quote (encode_chars s +:+ String quote EmptyString).

Fixpoint encode_items (l : list string) : string :=
  match l with
  | [] => EmptyString
  | [x] => encode_string x
  | x :: tl => encode_string x +:+ String "," (String " " (encode_items tl))
  end.

(** [json.dumps(l)] for a list of strings. *)
Definition dumps (l : list string) : string :=
  String "[" (encode_items l +:+ String "]" EmptyString).

Inductive result : Type :=
  | Parsed (l : list string)
  | Malformed
  | Unsupported.

Inductive state : Type :=
  | Start
  | Open
  | Value (acc : list string)
  | Str (acc : list string) (cur : string)
  | Esc (acc : list string) (cur : string)
  | Hex (acc : list string) (cur : string) (more : nat) (v : N)
  | After (acc : list string)
  | Done (acc : list string).

Definition is_ws (c : ascii) : bool :=
  let n := N_of_ascii c in
  (n =? 32)%N || (n =? 9)%N || (n =? 10)%N || (n =? 13)%N.

Definition hex_value (c : ascii) : option N :=
  let n := N_of_ascii c in
  if (48 <=? n)%N && (n <=? 57)%N then Some (n - 48)%N
  else if (97 <=? n)%N && (n <=? 102)%N then Some (n - 87)%N
  else if (65 <=? n)%N && (n <=? 70)%N then Some (n - 55)%N
  else None.

Definition push (cur : string) (c : ascii) : string :=
  cur +:+ String c EmptyString.

(** [scan_once] at the first character of a value: a string is read,
    the first character of any other JSON value is [Unsupported]. *)
Definition scan_value (acc : list string) (c : ascii) : state + result :=
  let n := N_of_ascii c in
  if (n =? 34)%N then inl (Str acc EmptyString)
  else if ((n =? 91) || (n =? 123) || (n =? 45) || (n =? 110) || (n =? 116)
           || (n =? 102) || (n =? 78) || (n =? 73)
           || ((48 <=? n) && (n <=? 57)))%N
  then inr Unsupported
  else inr Malformed.

Definition unescape (c : ascii) : option ascii :=
  let n := N_of_ascii c in
  if (n =? 34)%N then Some quote
  else if (n =? 92)%N then Some backslash
  else if (n =? 47)%N then Some "/"
  else if (n =? 98)%N then Some "008"
  else if (n =? 102)%N then Some "012"
  else if (n =? 110)%N then Some "010"
  else if (n =? 114)%N then Some "013"
  else if (n =? 116)%N then Some "009"
  else None.

Definition step (st : state) (c : ascii) : state + result :=
  match st with
  | Start =>
      if is_ws c then inl Start
      else if (N_of_ascii c =? 91)%N then inl Open
      else match scan_value [] c with
           | inl _ => inr Unsupported
           | inr r => inr r
           end
  | Open =>
      if is_ws c then inl Open
      else if (N_of_ascii c =? 93)%N then inl (Done [])
      else scan_value [] c
  | Value acc =>
      if is_ws c then inl (Value acc) else scan_value acc c
  | Str acc cur =>
      let n := N_of_ascii c in
      if (n =? 34)%N then inl (After (acc ++ [cur]))
      else if (n =? 92)%N then inl (Esc acc cur)
      else if (n <? 32)%N then inr Malformed
      else inl (Str acc (push cur c))
  | Esc acc cur =>
      if (N_of_ascii c =? 117)%N then inl (Hex acc cur 4 0%N)
      else match unescape c with
           | Some d => inl (Str acc (push cur d))
           | None => inr Malformed
           end
  | Hex acc cur more v =>
      match hex_value c with
      | None => inr Malformed
      | Some d =>
          let v := (16 * v + d)%N in
          match more with
          | S (S more) => inl (Hex acc cur (S more) v)
          | _ =>
              if (v <? 256)%N then inl (Str acc (push cur (ascii_of_N v)))
              else inr Unsupported
          end
      end
  | After acc =>
      if is_ws c then inl (After acc)
      else if (N_of_ascii c =? 44)%N then inl (Value acc)
      else if (N_of_ascii c =? 93)%N then inl (Done acc)
      else inr Malformed
  | Done acc =>
      if is_ws c then inl (Done acc) else inr Malformed
  end.

Fixpoint run (st : state) (s : string) : result :=
  match s with
  | EmptyString =>
      match st with
      | Done acc => Parsed acc
      | _ => Malformed
      end
  | String c tl =>
      match step st c with
      | inl st' => run st' tl
      | inr r => r
      end
  end.

(** [json.loads(s)] *)
Definition loads (s : string) : result := run Start s.

End Json.

(** ** The outside world

    What the trackers reach through the standard library and [yfinance]:
    the clock, the remote price source, and the file system.  [requests]
    logs the history requests sent to the remote source, oldest first. *)

Record PriceBar : Type := {
  bar_open : fval;
  bar_high : fval;
  bar_low : fval;
  bar_close : fval;
  bar_volume : fval
}.

(** A [pd.DataFrame] of price history: its rows; [data.empty] holds when
    there is none. *)
Abbreviation DataFrame := (list PriceBar).

Definition empty (data : DataFrame) : bool :=
  match data with [] => true | _ => false end.

(** The outcome of [yf.Ticker(symbol).history(period=period)]. *)
Inductive fetch_outcome : Type :=
  | Raises
  | Returns (data : DataFrame).

Record World : Type := {
  now : Q;
  yahoo : string -> string -> fetch_outcome;
  requests : list (string * string);
  files : gmap string string;
  io_error : bool
}.

Definition log_request (w : World) (symbol period : string) : World :=
  {| now := now w; yahoo := yahoo w;
     requests := requests w ++ [(symbol, period)];
     files := files w; io_error := io_error w |}.

Definition write_file (w : World) (path content : string) : World :=
  {| now := now w; yahoo := yahoo w; requests := requests w;
     files := <[path := content]> (files w); io_error := io_error w |}.

(** ** Python string methods, on the code points below 256 *)

Module Str.

(** [str.isspace] for one character. *)
Definition is_space (c : ascii) : bool :=
  let n := N_of_ascii c in
  ((9 <=? n) && (n <=? 13) || (28 <=? n) && (n <=? 32)
   || (n =? 133) || (n =? 160))%N.

Fixpoint lstrip (s : string) : string :=
  match s with
  | EmptyString => EmptyString
  | String c tl => if is_space c then lstrip tl else s
  end.

(** The string without its trailing whitespace. *)
Fixpoint rstrip (s : string) : string :=
  match s with
  | EmptyString => EmptyString
  | String c tl =>
      match rstrip tl with
      | EmptyString => if is_space c then EmptyString else String c EmptyString
      | tl' => String c tl'
      end
  end.

Definition strip (s : string) : string := rstrip (lstrip s).

(** [str.upper] on the code points below 256: the letters a to z and
    the accented small letters from U+00E0 to U+00FE (the division sign
    U+00F7 apart) move down by 32, and the sharp s U+00DF becomes "SS".
    The capitals of the micro sign U+00B5 and of y with diaeresis
    U+00FF lie beyond the code points modelled: the two are kept here,
    and [upper_in_range] tells the strings that hold neither. *)
Definition upper_char (c : ascii) : string :=
  let n := N_of_ascii c in
  if ((97 <=? n) && (n <=? 122) || (224 <=? n) && (n <=? 254) && negb (n =? 247))%N
  then String (ascii_of_N (n - 32)) EmptyString
  else if (n =? 223)%N then "SS"
  else String c EmptyString.

Fixpoint upper (s : string) : string :=
  match s with
  | EmptyString => EmptyString
  | String c tl => upper_char c +:+ upper tl
  end.

Fixpoint upper_in_range (s : string) : bool :=
  match s with
  | EmptyString => true
  | String c tl =>
      negb (N_of_ascii c =? 181)%N && negb (N_of_ascii c =? 255)%N
      && upper_in_range tl
  end.

End Str.

(** ** Tk: the rows of a table, and how a callback ends *)

Module Tk.

(** How a callback ends: normally, or with an exception that nothing
    in the tracker catches. *)
Inductive outcome : Type := Finished | ValueError | TclError.

(** [tree.insert('', tk.END, iid=iid, values=...)] on the row
    identifiers of a table.  The identifier must be new; the empty
    string is the name of the root item, which exists from the start.
    [None] is the [TclError]. *)
Definition insert (rows : list string) (iid : string) : option (list string) :=
  match iid with
  | EmptyString => None
  | _ => if bool_decide (iid ∈ rows) then None else Some (rows ++ [iid])
  end.

End Tk.

(** ** ultimate_rsi_tracker.py: classes StockData and UltimateRSITracker

    [EnhancedStockData.get_stock_data] of [enhanced_rsi_tracker.py] and
    [StockData.get_stock_data] of [rsi_tracker_app.py] have the same text
    as the method modelled here. *)

Module App.

Record StockData : Type := {
  cache : gmap string (DataFrame * Q);
  cache_timeout : Q
}.

(** [StockData.__init__] *)
Definition new_stock_data : StockData :=
  {| cache := ∅; cache_timeout := 60 |}.

Definition cache_key (symbol period : string) : string :=
  symbol +:+ "_" +:+ period.

(** The cache check at the head of [get_stock_data]. *)
Definition cached (self : StockData) (key : string) (current_time : Q)
  : option DataFrame :=
  match cache self !! key with
  | Some (data, timestamp) =>
      if F.Qltb (current_time - timestamp) (cache_timeout self)
      then Some data else None
  | None => None
  end.

Definition store (self : StockData) (key : string) (data : DataFrame)
    (current_time : Q) : StockData :=
  {| cache := <[key := (data, current_time)]> (cache self);
     cache_timeout := cache_timeout self |}.

(** [StockData.get_stock_data(self, symbol, period)] *)
Definition get_stock_data (self : StockData) (w : World) (symbol period : string)
  : option DataFrame * StockData * World :=
  let key := cache_key symbol period in
  let current_time := now w in
  match cached self key current_time with
  | Some data => (Some data, self, w)
  | None =>
      let w' := log_request w symbol period in
      match yahoo w symbol period with
      | Raises => (None, self, w')
      | Returns data =>
          if empty data then (None, self, w')
          else (Some data, store self key data current_time, w')
      end
  end.

(** A call of [tkinter.messagebox]. *)
Inductive dialog : Type :=
  | ShowWarning (title message : string)
  | ShowError (title message : string).

(** The state of [UltimateRSITracker] that [add_stock] and the
    watchlist file touch: the watchlist, the cache, the entry field, the
    row identifiers of the table, the status line and the dialogs shown
    so far. *)
Record UltimateRSITracker : Type := {
  watchlist : list string;
  watchlist_file : string;
  stock_data : StockData;
  symbol_entry : string;
  tree : list string;
  status_label : string;
  dialogs : list dialog
}.

(** [UltimateRSITracker.save_watchlist(self)] *)
Definition save_watchlist (self : UltimateRSITracker) (w : World) : World :=
  if io_error w then w
  else write_file w (watchlist_file self) (Json.dumps (watchlist self)).

Definition set_watchlist (self : UltimateRSITracker) (l : list string)
  : UltimateRSITracker :=
  {| watchlist := l; watchlist_file := watchlist_file self;
     stock_data := stock_data self; symbol_entry := symbol_entry self;
     tree := tree self; status_label := status_label self;
     dialogs := dialogs self |}.

(** [UltimateRSITracker.load_watchlist(self)].  [None]: the text of the
    file is outside the model ([Json.Unsupported]). *)
Definition load_watchlist (self : UltimateRSITracker) (w : World)
  : option UltimateRSITracker :=
  match files w !! watchlist_file self with
  | Some content =>
      if io_error w then Some (set_watchlist self [])
      else
        match Json.loads content with
        | Json.Parsed l => Some (set_watchlist self l)
        | Json.Malformed => Some (set_watchlist self [])
        | Json.Unsupported => None
        end
  | None => Some self
  end.

Definition is_empty (s : string) : bool :=
  match s with EmptyString => true | _ => false end.

(** The user types [text] into the symbol entry. *)
Definition type_symbol (self : UltimateRSITracker) (text : string)
  : UltimateRSITracker :=
  {| watchlist := watchlist self; watchlist_file := watchlist_file self;
     stock_data := stock_data self; symbol_entry := text;
     tree := tree self; status_label := status_label self;
     dialogs := dialogs self |}.

Definition duplicate_warning (symbol : string) : dialog :=
  ShowWarning "Duplicate" (symbol +:+ " is already in your watchlist!").

(** [UltimateRSITracker.add_stock(self)]; the refresh of the new row,
    started on another thread once the symbol is added, is left out.
    The watchlist is extended and saved before the row is inserted, so
    that a [TclError] of [tree.insert] leaves both done and the status
    line at its "Validating" text.  [RSIStockTracker.add_stock] of
    [rsi_tracker_app.py] takes the same steps up to that refresh. *)
Definition add_stock (self : UltimateRSITracker) (w : World)
  : UltimateRSITracker * World * Tk.outcome :=
  let symbol := Str.upper (Str.strip (symbol_entry self)) in
  if is_empty symbol then (self, w, Tk.Finished)
  else if bool_decide (symbol ∈ watchlist self) then
    ({| watchlist := watchlist self; watchlist_file := watchlist_file self;
        stock_data := stock_data self; symbol_entry := symbol_entry self;
        tree := tree self; status_label := status_label self;
        dialogs := dialogs self ++ [duplicate_warning symbol] |},
     w, Tk.Finished)
  else
    let '(data, sd, w) := get_stock_data (stock_data self) w symbol "5d" in
    let invalid :=
      ({| watchlist := watchlist self; watchlist_file := watchlist_file self;
          stock_data := sd; symbol_entry := symbol_entry self;
          tree := tree self; status_label := "Ready";
          dialogs := dialogs self ++
            [ShowError "Invalid Symbol" ("Could not find data for " +:+ symbol)] |},
       w, Tk.Finished) in
    match data with
    | None => invalid
    | Some data =>
        if empty data then invalid
        else
          let self :=
            {| watchlist := watchlist self ++ [symbol];
               watchlist_file := watchlist_file self;
               stock_data := sd; symbol_entry := "";
               tree := tree self;
               status_label := "Validating " +:+ symbol +:+ "...";
               dialogs := dialogs self |} in
          let w := save_watchlist self w in
          match Tk.insert (tree self) symbol with
          | None => (self, w, Tk.TclError)
          | Some rows =>
              ({| watchlist := watchlist self;
                  watchlist_file := watchlist_file self;
                  stock_data := stock_data self;
                  symbol_entry := symbol_entry self;
                  tree := rows;
                  status_label := "Added " +:+ symbol +:+ " to watchlist";
                  dialogs := dialogs self |},
               w, Tk.Finished)
          end
    end.

(** [UltimateRSITracker.__init__], as far as the modelled state goes. *)
Definition new_tracker : UltimateRSITracker :=
  {| watchlist := []; watchlist_file := "watchlist.json";
     stock_data := new_stock_data; symbol_entry := "";
     tree := []; status_label := "Ready"; dialogs := [] |}.

End App.

(** ** enhanced_rsi_tracker.py and rsi_tracker_app.py: class RSICalculator *)

Module Scalar.

Local Open Scope fval_scope.

(** What a call gives: a value, or the exception it raises. *)
Inductive result : Type :=
  | Value (r : fval)
  | ValueError
  | IndexError.

(** [RSICalculator.calculate_rsi(prices, period)], the variant that
    returns the latest value only.  [period] is any integer:
    [rolling(window=period)] raises [ValueError] for a negative one.
    [IndexError] is that of [rsi.iloc[-1]] on an empty series. *)
Definition calculate_rsi (prices : Series) (period : Z) : result :=
  if (Z.of_nat (length prices) <? period + 1)%Z then Value (Fin 50)
  else
    let deltas := Pandas.diff prices in
    let gains := Pandas.where_ (fun d => d >? Fin 0) (Fin 0) deltas in
    let losses := F.neg <$> Pandas.where_ (fun d => d <? Fin 0) (Fin 0) deltas in
    if (period <? 0)%Z then ValueError
    else
      let window := Z.to_nat period in
      let avg_gains := Pandas.rolling_mean window gains in
      let avg_losses := Pandas.rolling_mean window losses in
      let rs := zip_with F.div avg_gains avg_losses in
      let rsi := Pandas.rsi_of_rs <$> rs in
      match last rsi with
      | None => IndexError
      | Some x => Value (if F.is_nan x then Fin 50 else x)
      end.

End Scalar.

(** ** More string methods *)

Module Text.

(** [s.split(sep)] for a one-character separator. *)
Fixpoint split (sep : ascii) (s : string) : list string :=
  match s with
  | EmptyString => [EmptyString]
  | String c tl =>
      let parts := split sep tl in
      if Ascii.eqb c sep then EmptyString :: parts
      else
        match parts with
        | p :: ps => String c p :: ps
        | [] => [String c EmptyString]
        end
  end.

(** The lines a text file yields when iterated, without their
    terminators: the text is cut at every line feed and carriage
    return, so that the pair CR LF leaves an empty line, which every
    caller drops. *)
Fixpoint file_lines (s : string) : list string :=
  match s with
  | EmptyString => [EmptyString]
  | String c tl =>
      let parts := file_lines tl in
      if (N_of_ascii c =? 10)%N || (N_of_ascii c =? 13)%N then EmptyString :: parts
      else
        match parts with
        | p :: ps => String c p :: ps
        | [] => [String c EmptyString]
        end
  end.

(** [str.lower] on the code points below 256: the letters A to Z and
    the accented capitals from U+00C0 to U+00DE (the multiplication
    sign U+00D7 apart) move up by 32. *)
Definition lower_char (c : ascii) : ascii :=
  let n := N_of_ascii c in
  if ((65 <=? n) && (n <=? 90) || (192 <=? n) && (n <=? 222) && negb (n =? 215))%N
  then ascii_of_N (n + 32) else c.

Fixpoint lower (s : string) : string :=
  match s with
  | EmptyString => EmptyString
  | String c tl => String (lower_char c) (lower tl)
  end.

(** [s.endswith(suffix)] *)
Definition endswith (s suffix : string) : bool :=
  let n := String.length s in
  let m := String.length suffix in
  (m <=? n)%nat && String.eqb (String.substring (n - m) m s) suffix.

End Text.

(** ** ultimate_rsi_tracker.py: the other watchlist operations

    The table of the tracker is the list of its row identifiers.  Tk
    raises [TclError] when a row is inserted under an identifier the
    table already has ([Tk.insert]), and when a missing row is
    deleted. *)

Module Watch.

Import App.

Abbreviation outcome := Tk.outcome (only parsing).
Abbreviation Finished := Tk.Finished (only parsing).
Abbreviation ValueError := Tk.ValueError (only parsing).
Abbreviation TclError := Tk.TclError (only parsing).

(** A call of [messagebox.showinfo]. *)
Inductive info : Type := ShowInfo (title message : string).

Definition set_tree (self : UltimateRSITracker) (rows : list string)
  : UltimateRSITracker :=
  {| watchlist := watchlist self; watchlist_file := watchlist_file self;
     stock_data := stock_data self; symbol_entry := symbol_entry self;
     tree := rows; status_label := status_label self;
     dialogs := dialogs self |}.

Definition set_status (self : UltimateRSITracker) (text : string)
  : UltimateRSITracker :=
  {| watchlist := watchlist self; watchlist_file := watchlist_file self;
     stock_data := stock_data self; symbol_entry := symbol_entry self;
     tree := tree self; status_label := text;
     dialogs := dialogs self |}.

Definition show (self : UltimateRSITracker) (d : dialog) : UltimateRSITracker :=
  {| watchlist := watchlist self; watchlist_file := watchlist_file self;
     stock_data := stock_data self; symbol_entry := symbol_entry self;
     tree := tree self; status_label := status_label self;
     dialogs := dialogs self ++ [d] |}.

(** [l.remove(x)]: the first occurrence goes; [None] is the
    [ValueError] for a missing [x]. *)
Fixpoint list_remove (x : string) (l : list string) : option (list string) :=
  match l with
  | [] => None
  | y :: tl =>
      if bool_decide (x = y) then Some tl
      else cons y <$> list_remove x tl
  end.

(** [UltimateRSITracker.remove_stock(self)]; [selected] is
    [self.tree.selection()], [confirm] the answer to
    [messagebox.askyesno]. *)
Definition remove_stock (self : UltimateRSITracker) (w : World)
    (selected : list string) (confirm : bool)
  : UltimateRSITracker * World * outcome :=
  match selected with
  | [] =>
      (show self (ShowWarning "No Selection" "Please select a stock to remove"),
       w, Finished)
  | symbol :: _ =>
      if confirm then
        match list_remove symbol (watchlist self) with
        | None => (self, w, ValueError)
        | Some l =>
            let self := set_watchlist self l in
            match list_remove symbol (tree self) with
            | None => (self, w, TclError)
            | Some rows =>
                let self := set_tree self rows in
                (set_status self ("Removed " +:+ symbol +:+ " from watchlist"),
                 save_watchlist self w, Finished)
            end
        end
      else (self, w, Finished)
  end.

(** The loop of [add_symbols] and of [import_portfolio]:
    [for symbol in symbols: if symbol not in self.watchlist: ...].
    The result carries [added_count] and tells whether [tree.insert]
    raised. *)
Fixpoint add_each (symbols : list string) (self : UltimateRSITracker)
    (added_count : nat) : UltimateRSITracker * nat * outcome :=
  match symbols with
  | [] => (self, added_count, Finished)
  | symbol :: rest =>
      if bool_decide (symbol ∈ watchlist self) then add_each rest self added_count
      else
        let self := set_watchlist self (watchlist self ++ [symbol]) in
        match Tk.insert (tree self) symbol with
        | None => (self, added_count, TclError)
        | Some rows => add_each rest (set_tree self rows) (S added_count)
        end
  end.

Definition newline : string := String "010" EmptyString.

Definition counts_message (verb : string) (added_count total : nat) : string :=
  "Successfully " +:+ verb +:+ " " +:+ pretty added_count +:+ " new stocks."
  +:+ newline +:+ "Skipped " +:+ pretty (total - added_count)%nat +:+ " duplicates.".

(** The symbols [add_symbols] reads from the text of the dialog. *)
Definition bulk_symbols (content : string) : list string :=
  (fun line => Str.upper (Str.strip line))
  <$> filter (fun line => Str.strip line <> EmptyString
                          /\ (String.length (Str.strip line) <= 5)%nat)
             (Text.split "010" content).

(** [add_symbols()], the callback of the "Add Stocks" button of
    [bulk_add_stocks]; [text] is the content of the text area.  The
    refresh of the new rows, started on another thread, is left out. *)
Definition add_symbols (self : UltimateRSITracker) (w : World) (text : string)
  : UltimateRSITracker * World * list info * outcome :=
  let content := Str.strip text in
  if is_empty content then
    (show self (ShowWarning "Empty Input" "Please enter some stock symbols."),
     w, [], Finished)
  else
    let symbols := bulk_symbols content in
    match symbols with
    | [] =>
        (show self (ShowWarning "Invalid Input" "No valid symbols found."),
         w, [], Finished)
    | _ =>
        match add_each symbols self 0 with
        | (self, added_count, Finished) =>
            let w := if (0 <? added_count)%nat then save_watchlist self w else w in
            (self, w,
             [ShowInfo "Bulk Add Complete"
                (counts_message "added" added_count (length symbols))],
             Finished)
        | (self, _, error) => (self, w, [], error)
        end
    end.

(** [UltimateRSITracker.populate_initial_data(self)]: one row per
    symbol of the watchlist. *)
Fixpoint populate_initial_data (symbols rows : list string)
  : list string * outcome :=
  match symbols with
  | [] => (rows, Finished)
  | symbol :: rest =>
      match Tk.insert rows symbol with
      | None => (rows, TclError)
      | Some rows => populate_initial_data rest rows
      end
  end.

End Watch.

(** ** ultimate_rsi_tracker.py: class PortfolioImporter

    [list(set(symbols))] lists the distinct symbols in an order Python
    does not specify, and the csv reader is not modelled: both are
    parameters. *)

Module Importer.

Import App.

Section PortfolioFile.

Variable list_of_set : list string -> list string.
Variable import_from_csv : string -> World -> list string.

(** [PortfolioImporter.import_from_text(file_path)].  A missing or
    unreadable file raises inside the [try] and leaves no symbol. *)
Definition import_from_text (file_path : string) (w : World) : list string :=
  let symbols :=
    match files w !! file_path with
    | Some content =>
        if io_error w then []
        else
          filter (fun symbol => symbol <> EmptyString
                                /\ (String.length symbol <= 5)%nat)
                 ((fun line => Str.upper (Str.strip line))
                  <$> Text.file_lines content)
    | None => []
    end in
  list_of_set symbols.

(** [UltimateRSITracker.import_portfolio(self)]; [file_path] is the
    answer of the file dialog, empty when the user cancels.  The
    refresh of the new rows is left out. *)
Definition import_portfolio (self : UltimateRSITracker) (w : World)
    (file_path : string)
  : UltimateRSITracker * World * list Watch.info * Watch.outcome :=
  if is_empty file_path then (self, w, [], Watch.Finished)
  else
    let self := Watch.set_status self "Importing portfolio..." in
    let symbols :=
      if Text.endswith (Text.lower file_path) ".csv" then import_from_csv file_path w
      else if Text.endswith (Text.lower file_path) ".txt" then import_from_text file_path w
      else
        match import_from_csv file_path w with
        | [] => import_from_text file_path w
        | symbols => symbols
        end in
    match symbols with
    | [] =>
        (Watch.set_status
           (Watch.show self (ShowError "Import Error" "No valid symbols found in the file."))
           "Ready",
         w, [], Watch.Finished)
    | _ =>
        match Watch.add_each symbols self 0 with
        | (self, added_count, Watch.Finished) =>
            let w := if (0 <? added_count)%nat then save_watchlist self w else w in
            (Watch.set_status self
               ("Imported " +:+ pretty added_count +:+ " stocks from portfolio"),
             w,
             [Watch.ShowInfo "Import Complete"
                (Watch.counts_message "imported" added_count (length symbols))],
             Watch.Finished)
        | (self, _, error) => (self, w, [], error)
        end
    end.

End PortfolioFile.

End Importer.

(** ** Vocabulary of the statements *)

Section Vocabulary.

Local Open Scope fval_scope.

(** The gains and the losses [calculate_rsi] averages, and the RSI it
    computes at position [i] before NaN is replaced. *)
Definition gains_of (prices : Series) : Series :=
  Pandas.where_ (fun d => d >? Fin 0) (Fin 0) (Pandas.diff prices).

Definition losses_of (prices : Series) : Series :=
  F.neg <$> Pandas.where_ (fun d => d <? Fin 0) (Fin 0) (Pandas.diff prices).

Definition rsi_at (prices : Series) (period i : nat) : fval :=
  Pandas.rsi_of_rs
    (Pandas.rolling_at Pandas.mean period (gains_of prices) i
     / Pandas.rolling_at Pandas.mean period (losses_of prices) i).



Definition positive_fin (x : fval) : Prop :=
  match x with Fin a => (0 < a)%Q | _ => False end.

(** The symbol [add_stock] reads from the entry, and a tracker after
    one more dialog. *)
Definition entered (self : App.UltimateRSITracker) : string :=
  Str.upper (Str.strip (App.symbol_entry self)).

Definition with_dialog (self : App.UltimateRSITracker) (d : App.dialog)
  : App.UltimateRSITracker :=
  {| App.watchlist := App.watchlist self;
     App.watchlist_file := App.watchlist_file self;
     App.stock_data := App.stock_data self;
     App.symbol_entry := App.symbol_entry self;
     App.tree := App.tree self; App.status_label := App.status_label self;
     App.dialogs := App.dialogs self ++ [d] |}.

(** Sample data: one price bar, and a world whose remote source knows
    AAPL only. *)
Definition sample_bar : PriceBar :=
  {| bar_open := Fin 189; bar_high := Fin 191; bar_low := Fin 188;
     bar_close := Fin 190; bar_volume := Fin 1000 |}.

Definition sample_world (time : Q) : World :=
  {| now := time;
     yahoo := fun symbol _ =>
       if String.eqb symbol "AAPL" then Returns [sample_bar] else Raises;
     requests := []; files := ∅; io_error := false |}.

End Vocabulary.

(** ** The json module, for objects of strings and lists of strings

    [json.dump(data, f, indent=2)] and [json.load] on the dictionaries
    the enhanced tracker stores.  The decoder reads an object whose
    values are strings or lists of strings; a text whose first
    significant character does not open an object is [NotObject],
    whether it is valid JSON or not. *)

Module JsonObject.

Local Open Scope char_scope.

Inductive jvalue : Type :=
  | JStr (s : string)
  | JList (l : list string).

Fixpoint spaces (n : nat) : string :=
  match n with
  | O => EmptyString
  | S n => String " " (spaces n)
  end.

(** [newline_indent]: a line feed and the indentation of the level. *)
Definition newline_indent (level : nat) : string :=
  String "010" (spaces (2 * level)).

Fixpoint encode_elements (l : list string) : string :=
  match l with
  | [] => EmptyString
  | [x] => Json.encode_string x
  | x :: tl =>
      Json.encode_string x +:+ String "," (newline_indent 2 +:+ encode_elements tl)
  end.

Definition encode_value (v : jvalue) : string :=
  match v with
  | JStr s => Json.encode_string s
  | JList [] => String "[" (String "]" EmptyString)
  | JList l =>
      String "[" (newline_indent 2 +:+ encode_elements l
                  +:+ newline_indent 1 +:+ String "]" EmptyString)
  end.

Definition encode_member (m : string * jvalue) : string :=
  Json.encode_string m.1 +:+ String ":" (String " " (encode_value m.2)).

Fixpoint encode_members (l : list (string * jvalue)) : string :=
  match l with
  | [] => EmptyString
  | [m] => encode_member m
  | m :: tl =>
      encode_member m +:+ String "," (newline_indent 1 +:+ encode_members tl)
  end.

(** [json.dumps(data, indent=2)] for a dictionary, its items in
    insertion order. *)
Definition dumps (members : list (string * jvalue)) : string :=
  match members with
  | [] => String "{" (String "}" EmptyString)
  | _ =>
      String "{" (newline_indent 1 +:+ encode_members members
                  +:+ newline_indent 0 +:+ String "}" EmptyString)
  end.

Inductive result : Type :=
  | Parsed (members : list (string * jvalue))
  | NotObject
  | Malformed
  | Unsupported.

(** What the string being read is: a key, the value of a key, or an
    element of the list of a key. *)
Inductive context : Type :=
  | Key
  | Val (key : string)
  | Elem (key : string) (acc : list string).

Inductive state : Type :=
  | Start
  | Open
  | NextKey (obj : list (string * jvalue))
  | Str (obj : list (string * jvalue)) (c : context) (cur : string)
  | Esc (obj : list (string * jvalue)) (c : context) (cur : string)
  | Hex (obj : list (string * jvalue)) (c : context) (cur : string)
        (more : nat) (v : N)
  | Colon (obj : list (string * jvalue)) (key : string)
  | Value (obj : list (string * jvalue)) (key : string)
  | ArrOpen (obj : list (string * jvalue)) (key : string)
  | ArrNext (obj : list (string * jvalue)) (key : string) (acc : list string)
  | ArrAfter (obj : list (string * jvalue)) (key : string) (acc : list string)
  | After (obj : list (string * jvalue))
  | Done (obj : list (string * jvalue)).

(** The state after the closing quote of a string. *)
Definition close (obj : list (string * jvalue)) (c : context) (cur : string) : state :=
  match c with
  | Key => Colon obj cur
  | Val key => After (obj ++ [(key, JStr cur)])
  | Elem key acc => ArrAfter obj key (acc ++ [cur])
  end.

(** The first character of a JSON value that is neither a string nor,
    where [lists] says so, a list. *)
Definition other_value (lists : bool) (c : ascii) : bool :=
  let n := N_of_ascii c in
  ((lists && (n =? 91)) || (n =? 123) || (n =? 45) || (n =? 110) || (n =? 116)
   || (n =? 102) || (n =? 78) || (n =? 73)
   || ((48 <=? n) && (n <=? 57)))%N.

Definition step (st : state) (c : ascii) : state + result :=
  let n := N_of_ascii c in
  match st with
  | Start =>
      if Json.is_ws c then inl Start
      else if (n =? 123)%N then inl Open
      else inr NotObject
  | Open =>
      if Json.is_ws c then inl Open
      else if (n =? 125)%N then inl (Done [])
      else if (n =? 34)%N then inl (Str [] Key EmptyString)
      else inr Malformed
  | NextKey obj =>
      if Json.is_ws c then inl (NextKey obj)
      else if (n =? 34)%N then inl (Str obj Key EmptyString)
      else inr Malformed
  | Str obj ctx cur =>
      if (n =? 34)%N then inl (close obj ctx cur)
      else if (n =? 92)%N then inl (Esc obj ctx cur)
      else if (n <? 32)%N then inr Malformed
      else inl (Str obj ctx (Json.push cur c))
  | Esc obj ctx cur =>
      if (n =? 117)%N then inl (Hex obj ctx cur 4 0%N)
      else match Json.unescape c with
           | Some d => inl (Str obj ctx (Json.push cur d))
           | None => inr Malformed
           end
  | Hex obj ctx cur more v =>
      match Json.hex_value c with
      | None => inr Malformed
      | Some d =>
          let v := (16 * v + d)%N in
          match more with
          | S (S more) => inl (Hex obj ctx cur (S more) v)
          | _ =>
              if (v <? 256)%N then inl (Str obj ctx (Json.push cur (ascii_of_N v)))
              else inr Unsupported
          end
      end
  | Colon obj key =>
      if Json.is_ws c then inl (Colon obj key)
      else if (n =? 58)%N then inl (Value obj key)
      else inr Malformed
  | Value obj key =>
      if Json.is_ws c then inl (Value obj key)
      else if (n =? 34)%N then inl (Str obj (Val key) EmptyString)
      else if (n =? 91)%N then inl (ArrOpen obj key)
      else if other_value false c then inr Unsupported
      else inr Malformed
  | ArrOpen obj key =>
      if Json.is_ws c then inl (ArrOpen obj key)
      else if (n =? 93)%N then inl (After (obj ++ [(key, JList [])]))
      else if (n =? 34)%N then inl (Str obj (Elem key []) EmptyString)
      else if other_value true c then inr Unsupported
      else inr Malformed
  | ArrNext obj key acc =>
      if Json.is_ws c then inl (ArrNext obj key acc)
      else if (n =? 34)%N then inl (Str obj (Elem key acc) EmptyString)
      else if other_value true c then inr Unsupported
      else inr Malformed
  | ArrAfter obj key acc =>
      if Json.is_ws c then inl (ArrAfter obj key acc)
      else if (n =? 44)%N then inl (ArrNext obj key acc)
      else if (n =? 93)%N then inl (After (obj ++ [(key, JList acc)]))
      else inr Malformed
  | After obj =>
      if Json.is_ws c then inl (After obj)
      else if (n =? 44)%N then inl (NextKey obj)
      else if (n =? 125)%N then inl (Done obj)
      else inr Malformed
  | Done obj =>
      if Json.is_ws c then inl (Done obj) else inr Malformed
  end.

Fixpoint run (st : state) (s : string) : result :=
  match s with
  | EmptyString =>
      match st with
      | Done obj => Parsed obj
      | Start => NotObject
      | _ => Malformed
      end
  | String c tl =>
      match step st c with
      | inl st' => run st' tl
      | inr r => r
      end
  end.

(** [json.loads(s)] *)
Definition loads (s : string) : result := run Start s.

(** [data.get(key)] on the decoded dictionary: the last item of a
    repeated key counts. *)
Fixpoint get (obj : list (string * jvalue)) (key : string) : option jvalue :=
  match obj with
  | [] => None
  | (k, v) :: tl =>
      match get tl key with
      | Some v' => Some v'
      | None => if String.eqb k key then Some v else None
      end
  end.

End JsonObject.

(** ** enhanced_rsi_tracker.py: the watchlist and portfolio files

    [stamp] is the text of [datetime.now().isoformat()]. *)

Module Enhanced.

Record EnhancedRSIStockTracker : Type := {
  watchlist : list string;
  watchlist_file : string;
  portfolio_symbols : list string;
  portfolio_file : string
}.

Definition set_watchlist (self : EnhancedRSIStockTracker) (l : list string)
  : EnhancedRSIStockTracker :=
  {| watchlist := l; watchlist_file := watchlist_file self;
     portfolio_symbols := portfolio_symbols self;
     portfolio_file := portfolio_file self |}.

Definition set_portfolio (self : EnhancedRSIStockTracker) (l : list string)
  : EnhancedRSIStockTracker :=
  {| watchlist := watchlist self; watchlist_file := watchlist_file self;
     portfolio_symbols := l; portfolio_file := portfolio_file self |}.

(** [EnhancedRSIStockTracker.save_watchlist(self)] *)
Definition save_watchlist (self : EnhancedRSIStockTracker) (w : World)
    (stamp : string) : World :=
  let data :=
    [("watchlist", JsonObject.JList (watchlist self));
     ("last_updated", JsonObject.JStr stamp)] in
  if io_error w then w
  else write_file w (watchlist_file self) (JsonObject.dumps data).

(** What [self.x = data.get(key, [])] stores after [json.load], for
    the text of a file: a list of strings, or [None] when the text
    decodes to something the tracker would store but that is not a
    list of strings. *)
Definition load_list (key content : string) : option (list string) :=
  match JsonObject.loads content with
  | JsonObject.Parsed data =>
      match JsonObject.get data key with
      | Some (JsonObject.JList l) => Some l
      | Some (JsonObject.JStr _) => None
      | None => Some []
      end
  | JsonObject.NotObject | JsonObject.Malformed => Some []
  | JsonObject.Unsupported => None
  end.

(** [EnhancedRSIStockTracker.load_watchlist(self)] *)
Definition load_watchlist (self : EnhancedRSIStockTracker) (w : World)
  : option EnhancedRSIStockTracker :=
  match files w !! watchlist_file self with
  | Some content =>
      if io_error w then Some (set_watchlist self [])
      else set_watchlist self <$> load_list "watchlist" content
  | None => Some self
  end.

(** [EnhancedRSIStockTracker.save_portfolio(self)] *)
Definition save_portfolio (self : EnhancedRSIStockTracker) (w : World)
    (stamp : string) : World :=
  let data :=
    [("portfolio", JsonObject.JList (portfolio_symbols self));
     ("last_updated", JsonObject.JStr stamp)] in
  if io_error w then w
  else write_file w (portfolio_file self) (JsonObject.dumps data).

(** [EnhancedRSIStockTracker.load_portfolio(self)] *)
Definition load_portfolio (self : EnhancedRSIStockTracker) (w : World)
  : option EnhancedRSIStockTracker :=
  match files w !! portfolio_file self with
  | Some content =>
      if io_error w then Some (set_portfolio self [])
      else set_portfolio self <$> load_list "portfolio" content
  | None => Some self
  end.

End Enhanced.

(** ** Further vocabulary *)

Module Shape.

Local Open Scope fval_scope.

(** A series of finite values, each above the next. *)
Fixpoint strictly_decreasing (s : Series) : bool :=
  match s with
  | [] => true
  | a :: tl =>
      F.is_finite a
      && match tl with
         | [] => true
         | b :: _ => (b <? a) && strictly_decreasing tl
         end
  end.

Definition same (a b : fval) : bool :=
  match a, b with
  | Fin x, Fin y => Qeq_bool x y
  | _, _ => false
  end.

(** A series of finite values, all equal. *)
Fixpoint flat (s : Series) : bool :=
  match s with
  | [] => true
  | a :: tl =>
      F.is_finite a
      && match tl with
         | [] => true
         | b :: _ => same a b && flat tl
         end
  end.

(** A whole number of absolute value at most 2^31.  On such prices
    binary64 computes every difference and, for a window of at most
    2^20 bars, every sum of gains or of losses without rounding. *)
Definition whole (x : fval) : bool :=
  match x with
  | Fin q =>
      (Qden (Qred q) =? 1)%positive && (Z.abs (Qnum (Qred q)) <=? 2 ^ 31)%Z
  | _ => false
  end.

Definition whole_prices (s : Series) : bool := forallb whole s.

(** No underscore in a string. *)
Fixpoint no_underscore (s : string) : bool :=
  match s with
  | EmptyString => true
  | String c tl => negb (N_of_ascii c =? 95)%N && no_underscore tl
  end.

(** Printable ASCII, from the space to the tilde. *)
Definition printable (c : ascii) : bool :=
  ((32 <=? N_of_ascii c) && (N_of_ascii c <=? 126))%N.

Fixpoint all_chars (P : ascii -> bool) (s : string) : bool :=
  match s with
  | EmptyString => true
  | String c tl => P c && all_chars P tl
  end.

(** Every frame in the cache has a row. *)
Definition cache_ok (self : App.StockData) : Prop :=
  forall key data time,
    App.cache self !! key = Some (data, time) -> empty data = false.

(** The table shows the watchlist, and no symbol is listed twice. *)
Definition consistent (self : App.UltimateRSITracker) : Prop :=
  App.tree self = App.watchlist self /\ NoDup (App.watchlist self).

(** The test of [bulk_add_stocks], on the stripped line, and of
    [import_from_text], on the symbol: not empty, and at most 5
    characters. *)
Definition short_symbol (s : string) : Prop :=
  s <> EmptyString /\ (String.length s <= 5)%nat.

(** Two trackers that differ in watchlist and table at most. *)
Definition same_settings (self after : App.UltimateRSITracker) : Prop :=
  App.watchlist_file after = App.watchlist_file self
  /\ App.stock_data after = App.stock_data self
  /\ App.symbol_entry after = App.symbol_entry self
  /\ App.status_label after = App.status_label self
  /\ App.dialogs after = App.dialogs self.

End Shape.

(** The actions of a user on the tracker of [ultimate_rsi_tracker.py]:
    entering a symbol and pressing "Add", removing the selected rows
    (those at the given positions of the table, as far as they exist),
    adding symbols in bulk; and, in between, the world moving on. *)
Module Session.

Inductive action : Type :=
  | Enter (text : string)
  | Remove (positions : list nat) (confirm : bool)
  | Bulk (text : string)
  | Elapse (later : World).

(** [self.tree.selection()] *)
Definition selection (self : App.UltimateRSITracker) (positions : list nat)
  : list string :=
  omap (fun i => App.tree self !! i) positions.

Definition perform (a : action) (self : App.UltimateRSITracker) (w : World)
  : App.UltimateRSITracker * World * Tk.outcome :=
  match a with
  | Enter text => App.add_stock (App.type_symbol self text) w
  | Remove positions confirm =>
      Watch.remove_stock self w (selection self positions) confirm
  | Bulk text =>
      let '(self, w, _, out) := Watch.add_symbols self w text in
      (self, w, out)
  | Elapse later => (self, later, Tk.Finished)
  end.

(** Tk reports an exception raised by a callback and goes on with the
    next event. *)
Fixpoint run (actions : list action) (self : App.UltimateRSITracker) (w : World)
  : App.UltimateRSITracker * World * list Tk.outcome :=
  match actions with
  | [] => (self, w, [])
  | a :: rest =>
      let '(self, w, out) := perform a self w in
      let '(self, w, outs) := run rest self w in
      (self, w, out :: outs)
  end.

(** The text of the action is one whose capitals are modelled. *)
Definition in_range (a : action) : bool :=
  match a with
  | Enter text | Bulk text => Str.upper_in_range text
  | _ => true
  end.

End Session.

(** * Properties *)

(** ** Arithmetic of [fval] *)

Section FvalFacts.

Local Open Scope fval_scope.

Lemma Qltb_lt (a b : Q) : F.Qltb a b = true <-> (a < b)%Q.
Proof.
  unfold F.Qltb. rewrite negb_true_iff, <- not_true_iff_false, Qle_bool_iff.
  split; [apply Qnot_le_lt | apply Qlt_not_le].
Qed.

Lemma Qltb_ge (a b : Q) : F.Qltb a b = false <-> (b <= a)%Q.
Proof.
  unfold F.Qltb. rewrite negb_false_iff. apply Qle_bool_iff.
Qed.

Lemma Qred_zero (a : Q) : (a == 0)%Q -> Qred a = 0%Q.
Proof. intros H. apply (Qred_complete a 0 H). Qed.

(** Both infinities give RSI 100. *)
Lemma rsi_of_rs_inf (negative : bool) :
  Pandas.rsi_of_rs (F.inf_of negative) = Fin 100.
Proof. destruct negative; reflexivity. Qed.

Lemma rsi_of_rs_nan : Pandas.rsi_of_rs NaN = NaN.
Proof. reflexivity. Qed.

End FvalFacts.

(** ** Series *)

Section SeriesFacts.

Lemma length_diff (s : Series) : length (Pandas.diff s) = length s.
Proof.
  destruct s as [|x tl]; [done|]. cbn [Pandas.diff length]. f_equal.
  rewrite length_zip_with. cbn [length]. lia.
Qed.

Lemma length_where cond other (s : Series) :
  length (Pandas.where_ cond other s) = length s.
Proof. apply length_fmap. Qed.

Lemma length_rolling_at f window (s : Series) :
  length (Pandas.rolling_at f window s <$> seq 0 (length s)) = length s.
Proof. by rewrite length_fmap, length_seq. Qed.

Lemma lookup_rolling_at f window (s : Series) (i : nat) :
  (i < length s)%nat ->
  (Pandas.rolling_at f window s <$> seq 0 (length s)) !! i
  = Some (Pandas.rolling_at f window s i).
Proof.
  intros Hi. rewrite list_lookup_fmap, lookup_seq_lt by done. done.
Qed.

(** A window that is longer than the series it slides over is never
    complete. *)
Lemma rolling_at_short f window (s : Series) (i : nat) :
  (i < length s)%nat -> (length s < window)%nat ->
  Pandas.rolling_at f window s i = NaN.
Proof.
  intros Hi Hw. unfold Pandas.rolling_at.
  replace (i + 1 <? window)%nat with true
    by (symmetry; apply Nat.ltb_lt; lia).
  by rewrite orb_true_r.
Qed.

Lemma rolling_mean_short window (s : Series) :
  (length s < window)%nat ->
  Pandas.rolling_mean window s = replicate (length s) NaN.
Proof.
  intros Hw. apply list_eq. intros i. unfold Pandas.rolling_mean.
  destruct (decide (i < length s)%nat) as [Hi|Hi].
  - rewrite lookup_rolling_at, rolling_at_short by done.
    symmetry. by apply lookup_replicate_2.
  - rewrite !lookup_ge_None_2; [done| |].
    + rewrite length_replicate. lia.
    + rewrite length_rolling_at. lia.
Qed.

End SeriesFacts.

(** The example of the specification: with period 14 the last RSI of the
    fifteen prices is 9200/127, about 72.44. *)
Example calculate_rsi_example :
  last (Tracker.calculate_rsi
          [Fin 44; Fin 44.34; Fin 44.09; Fin 44.15; Fin 43.61; Fin 44.33;
           Fin 44.83; Fin 45.10; Fin 45.42; Fin 45.84; Fin 46.08; Fin 45.89;
           Fin 46.03; Fin 45.61; Fin 46.28] 14)
  = Some (Fin (9200 # 127)).
Proof. vm_compute. reflexivity. Qed.

(** ** Insufficient data (C1) *)

(** C1, counterexample.  The calculator of [indicators/rsi_calculator.py]
    has no guard on the length: on a two-element series with period 14
    its output is [NaN; 100], not 50 at every position. *)
Lemma calculate_rsi_short_counterexample :
  let data := [Fin 1; Fin 2] in
  (length data < 14 + 1)%nat /\
  exists out, Indicators.calculate_rsi (Indicators.init 14) data = Some out /\
              ~ Forall (fun x => x = Fin 50) out.
Proof.
  split; [cbn; lia|].
  exists [NaN; Fin 100]. split; [reflexivity|].
  intros H. apply Forall_cons in H as [H _]. discriminate H.
Qed.

Lemma ewm_mean_head span (s out : Series) :
  Pandas.ewm_mean span s = Some out -> head out = head s.
Proof.
  unfold Pandas.ewm_mean. destruct (span <? 1)%nat; [done|].
  intros [= <-]. by destruct s.
Qed.

(** The stand-alone calculator starts every non-empty output with NaN:
    the first difference is missing, so gain and loss both start at 0. *)
Lemma calculate_rsi_head (self : Indicators.RSICalculator) (data out : Series) :
  data <> [] ->
  Indicators.calculate_rsi self data = Some out ->
  head out = Some NaN.
Proof.
  intros Hne. destruct data as [|p tl]; [done|].
  unfold Indicators.calculate_rsi.
  set (delta := Pandas.diff (p :: tl)).
  set (gain := Pandas.where_ (fun d => F.gt d (Fin 0)) (Fin 0) delta).
  set (loss := F.neg <$> Pandas.where_ (fun d => F.lt d (Fin 0)) (Fin 0) delta).
  assert (Hgain : head gain = Some (Fin 0)) by reflexivity.
  assert (Hloss : head loss = Some (Fin 0)) by reflexivity.
  destruct (Pandas.ewm_mean _ gain) as [g|] eqn:Hg; [|discriminate].
  destruct (Pandas.ewm_mean _ loss) as [l|] eqn:Hl; [|discriminate].
  cbn [mbind option_bind]. intros [= <-].
  apply ewm_mean_head in Hg, Hl. rewrite Hgain in Hg. rewrite Hloss in Hl.
  destruct g as [|g0 g]; [done|]. destruct l as [|l0 l]; [done|].
  cbn in Hg, Hl. injection Hg as ->. injection Hl as ->. reflexivity.
Qed.

(** C1, amended.  On a series shorter than [period + 1] the tracker's
    [calculate_rsi] returns 50.0 at every position; the calculator of
    [indicators/rsi_calculator.py] does not: whatever the length of a
    non-empty series, the first value it returns is NaN. *)
Theorem calculate_rsi_insufficient_data (prices : Series) (period : nat) :
  (length prices < period + 1)%nat ->
  Tracker.calculate_rsi prices period = replicate (length prices) (Fin 50)
  /\ forall out,
       prices <> [] ->
       Indicators.calculate_rsi (Indicators.init period) prices = Some out ->
       head out = Some NaN.
Proof.
  intros Hlen. split.
  - unfold Tracker.calculate_rsi.
    by replace (length prices <? period + 1)%nat with true
      by (symmetry; apply Nat.ltb_lt; lia).
  - intros out. apply calculate_rsi_head.
Qed.

Lemma calculate_rsi_insufficient_data_witness :
  Tracker.calculate_rsi [Fin 1; Fin 2] 14 = replicate 2 (Fin 50)
  /\ forall out,
       [Fin 1; Fin 2] <> [] ->
       Indicators.calculate_rsi (Indicators.init 14) [Fin 1; Fin 2] = Some out ->
       head out = Some NaN.
Proof.
  apply (calculate_rsi_insufficient_data [Fin 1; Fin 2] 14). cbn. lia.
Defined.

(** ** Signal classification (C4) *)

Section Signals.

Local Open Scope fval_scope.

Lemma lookup_loc_assign {A} (mask : list bool) (value : A) (column : list A)
    (i : nat) (m : bool) (x : A) :
  mask !! i = Some m -> column !! i = Some x ->
  Indicators.loc_assign mask value column !! i = Some (if m then value else x).
Proof.
  intros Hm Hx. unfold Indicators.loc_assign.
  rewrite lookup_zip_with, Hm, Hx. done.
Qed.

Lemma lookup_signal_column (self : Indicators.RSICalculator) (rsi : Series)
    (i : nat) (r : fval) :
  rsi !! i = Some r ->
  Indicators.signal_column self rsi !! i
  = Some (if r >? Indicators.overbought_level self then Indicators.SELL
          else if r <? Indicators.oversold_level self then Indicators.BUY
          else Indicators.HOLD).
Proof.
  intros Hr. unfold Indicators.signal_column.
  erewrite lookup_loc_assign; [done| |].
  - by rewrite list_lookup_fmap, Hr.
  - erewrite lookup_loc_assign; [done| |].
    + by rewrite list_lookup_fmap, Hr.
    + apply lookup_replicate_2. by eapply lookup_lt_Some.
Qed.

Lemma length_signal_column self (rsi : Series) :
  length (Indicators.signal_column self rsi) = length rsi.
Proof.
  unfold Indicators.signal_column, Indicators.loc_assign.
  rewrite !length_zip_with, !length_fmap, length_replicate. lia.
Qed.

Lemma length_changed (column : list Indicators.signal) :
  length (Indicators.changed column) = length column.
Proof.
  destruct column as [|s tl]; [done|]. cbn [Indicators.changed length].
  rewrite length_zip_with. cbn [length]. lia.
Qed.

Lemma lookup_detect_signals (self : Indicators.RSICalculator) (rsi : Series)
    (i : nat) (r : fval) :
  rsi !! i = Some r ->
  exists row,
    Indicators.detect_signals self rsi !! i = Some row
    /\ Indicators.RSI row = r
    /\ Indicators.Signal row
       = (if r >? Indicators.overbought_level self then Indicators.SELL
          else if r <? Indicators.oversold_level self then Indicators.BUY
          else Indicators.HOLD).
Proof.
  intros Hr. unfold Indicators.detect_signals.
  pose proof (lookup_signal_column self rsi i r Hr) as Hs.
  destruct (lookup_lt_is_Some_2 (Indicators.changed (Indicators.signal_column self rsi)) i)
    as [c Hc].
  { rewrite length_changed, length_signal_column. by eapply lookup_lt_Some. }
  eexists. rewrite lookup_zip_with, Hr. cbn [mbind option_bind].
  rewrite (proj2 (lookup_zip_with_Some pair _ _ i _)) by eauto.
  cbn [mbind option_bind]. done.
Qed.

Lemma above_70_not_below_30 (r : fval) :
  F.gt r (Fin 70) = true -> F.lt r (Fin 30) = false.
Proof.
  destruct r as [| | |x]; cbn; try done.
  rewrite Qltb_lt. intros H. apply Qltb_ge. lra.
Qed.

End Signals.

(** C4.  The status shown by [update_stock_data] is overbought (SELL)
    exactly when the RSI is above 70, oversold (BUY) exactly when it is
    below 30 and neutral (HOLD) in every other case, NaN included; the
    [Signal] column of [detect_signals], for a calculator with the
    default levels, follows the same rule at every row. *)
Theorem signal_classification (r : fval) :
  (Tracker.status_of_rsi r = Tracker.Overbought <-> F.gt r (Fin 70) = true)
  /\ (Tracker.status_of_rsi r = Tracker.Oversold <-> F.lt r (Fin 30) = true)
  /\ (Tracker.status_of_rsi r = Tracker.Neutral
      <-> F.gt r (Fin 70) = false /\ F.lt r (Fin 30) = false)
  /\ forall (period : nat) (rsi : Series) (i : nat),
       rsi !! i = Some r ->
       exists row,
         Indicators.detect_signals (Indicators.init period) rsi !! i = Some row
         /\ Indicators.RSI row = r
         /\ (Indicators.Signal row = Indicators.SELL <-> F.gt r (Fin 70) = true)
         /\ (Indicators.Signal row = Indicators.BUY <-> F.lt r (Fin 30) = true)
         /\ (Indicators.Signal row = Indicators.HOLD
             <-> F.gt r (Fin 70) = false /\ F.lt r (Fin 30) = false).
Proof.
  pose proof (above_70_not_below_30 r) as Hex.
  unfold Tracker.status_of_rsi.
  repeat split.
  1-7: destruct (F.gt r (Fin 70)) eqn:Hgt; destruct (F.lt r (Fin 30)) eqn:Hlt;
       try done; try (by specialize (Hex eq_refl)); by intros [??].
  intros period rsi i Hr.
  destruct (lookup_detect_signals (Indicators.init period) rsi i r Hr)
    as (row & Hrow & Hrsi & Hsig).
  exists row. cbn [Indicators.init Indicators.overbought_level
                   Indicators.oversold_level] in Hsig.
  rewrite Hsig. split; [done|]. split; [done|].
  destruct (F.gt r (Fin 70)) eqn:Hgt; destruct (F.lt r (Fin 30)) eqn:Hlt;
    try (by specialize (Hex eq_refl));
    (split; [|split]); split; try done; by intros [??].
Qed.

Lemma signal_classification_witness :
  Tracker.status_of_rsi (Fin 75) = Tracker.Overbought
  /\ exists row,
       Indicators.detect_signals (Indicators.init 14) [Fin 75] !! 0%nat = Some row
       /\ Indicators.Signal row = Indicators.SELL.
Proof.
  destruct (signal_classification (Fin 75)) as (Hstatus & _ & _ & Hrows).
  destruct (Hrows 14%nat [Fin 75] 0%nat eq_refl)
    as (row & Hrow & _ & Hsell & _).
  split; [apply Hstatus; reflexivity|].
  exists row. split; [exact Hrow|]. apply Hsell. reflexivity.
Defined.

(** ** Moving averages (C9) *)

Section MovingAverages.

Lemma ma_key_inj (p1 p2 : nat) : Tracker.ma_key p1 = Tracker.ma_key p2 -> p1 = p2.
Proof.
  unfold Tracker.ma_key. intros H. apply pretty_nat_inj.
  by apply (String.app_inj "MA") in H.
Qed.

Lemma lookup_moving_averages (prices : Series) (periods : list nat) (period : nat) :
  period ∈ periods ->
  Tracker.calculate_moving_averages prices periods !! Tracker.ma_key period
  = Some (Pandas.rolling_mean period prices).
Proof.
  unfold Tracker.calculate_moving_averages.
  induction periods as [|x l IH] using rev_ind; intros Hin.
  - by apply elem_of_nil in Hin.
  - rewrite foldl_app. cbn [foldl].
    destruct (decide (x = period)) as [->|Hne].
    + by rewrite lookup_insert_eq.
    + rewrite lookup_insert_ne.
      * apply IH. apply elem_of_app in Hin as [Hin|Hin]; [done|].
        apply list_elem_of_singleton in Hin. congruence.
      * intros Heq. by apply ma_key_inj in Heq.
Qed.

End MovingAverages.

(** C9, counterexample.  For a two-bar series and the default periods
    the output of [calculate_moving_averages] does have the entry
    [MA20]: it is not absent. *)
Lemma moving_average_absent_counterexample :
  let prices := [Fin 1; Fin 2] in
  (length prices < 20)%nat
  /\ Tracker.calculate_moving_averages prices [20%nat; 50%nat] !! Tracker.ma_key 20
     <> None.
Proof.
  split; [cbn; lia|].
  rewrite lookup_moving_averages; [done|]. apply list_elem_of_here.
Qed.

(** C9, amended.  For every requested period longer than the price
    series, the output of [calculate_moving_averages] has the entry of
    that period, a series as long as the prices whose every value is NaN
    (undefined). *)
Theorem moving_average_undefined (prices : Series) (periods : list nat) (period : nat) :
  period ∈ periods ->
  (length prices < period)%nat ->
  Tracker.calculate_moving_averages prices periods !! Tracker.ma_key period
  = Some (replicate (length prices) NaN).
Proof.
  intros Hin Hlen. rewrite lookup_moving_averages by done.
  by rewrite rolling_mean_short.
Qed.

Lemma moving_average_undefined_witness :
  Tracker.calculate_moving_averages [Fin 1; Fin 2] [20%nat; 50%nat] !! Tracker.ma_key 20
  = Some (replicate 2 NaN).
Proof.
  apply (moving_average_undefined [Fin 1; Fin 2] [20%nat; 50%nat] 20).
  - apply list_elem_of_here.
  - cbn. lia.
Defined.

(** ** The price cache (C5, C10) *)

Section Cache.

Implicit Types (self : App.StockData) (w : World) (symbol period : string).

Lemma get_stock_data_hit self w symbol period data :
  App.cached self (App.cache_key symbol period) (now w) = Some data ->
  App.get_stock_data self w symbol period = (Some data, self, w).
Proof. intros H. unfold App.get_stock_data. by rewrite H. Qed.

Lemma get_stock_data_fetch self w symbol period data :
  App.cached self (App.cache_key symbol period) (now w) = None ->
  yahoo w symbol period = Returns data -> empty data = false ->
  App.get_stock_data self w symbol period
  = (Some data, App.store self (App.cache_key symbol period) data (now w),
     log_request w symbol period).
Proof. intros H Hy He. unfold App.get_stock_data. by rewrite H, Hy, He. Qed.

Lemma get_stock_data_fail self w symbol period :
  App.cached self (App.cache_key symbol period) (now w) = None ->
  (yahoo w symbol period = Raises
   \/ exists data, yahoo w symbol period = Returns data /\ empty data = true) ->
  App.get_stock_data self w symbol period
  = (None, self, log_request w symbol period).
Proof.
  intros H [Hy|(data & Hy & He)]; unfold App.get_stock_data;
    by rewrite H, Hy, ?He.
Qed.

(** Whatever the remote source answers, a lookup without a fresh entry
    sends one request. *)
Lemma get_stock_data_miss_requests self w symbol period :
  App.cached self (App.cache_key symbol period) (now w) = None ->
  requests (App.get_stock_data self w symbol period).2
  = requests w ++ [(symbol, period)].
Proof.
  intros H. unfold App.get_stock_data. rewrite H.
  destruct (yahoo w symbol period) as [|data]; [done|].
  by destruct (empty data).
Qed.

Lemma cached_store self key data t t' :
  App.cached (App.store self key data t) key t'
  = if F.Qltb (t' - t) (App.cache_timeout self) then Some data else None.
Proof.
  unfold App.cached, App.store. cbn [App.cache App.cache_timeout].
  by rewrite lookup_insert_eq.
Qed.

(** A stale entry stays stale as time goes on. *)
Lemma cached_None_later self key (t t' : Q) :
  (t <= t')%Q -> App.cached self key t = None -> App.cached self key t' = None.
Proof.
  unfold App.cached. intros Ht.
  destruct (App.cache self !! key) as [[data ts]|]; [|done].
  destruct (F.Qltb (t - ts) _) eqn:H1; [done|]. intros _.
  destruct (F.Qltb (t' - ts) _) eqn:H2; [|done].
  apply Qltb_ge in H1. apply Qltb_lt in H2. lra.
Qed.

End Cache.

(** C5.  Take a lookup that finds no fresh entry and whose fetch returns
    a non-empty frame: it returns that frame and sends one request.  A
    second lookup of the same key less than [cache_timeout] later returns
    the same frame and sends nothing, it leaves cache and world as they
    are, so that one request serves both calls.  A second lookup once
    [cache_timeout] has elapsed sends a second request, and when that
    fetch returns a non-empty frame the entry of the key is overwritten
    with the new frame and the new time. *)
Theorem cache_round_trip (self : App.StockData) (w1 w2 : World)
    (symbol period : string) (data : DataFrame) :
  App.cached self (App.cache_key symbol period) (now w1) = None ->
  yahoo w1 symbol period = Returns data ->
  empty data = false ->
  exists self1 w1',
    App.get_stock_data self w1 symbol period = (Some data, self1, w1')
    /\ requests w1' = requests w1 ++ [(symbol, period)]
    /\ ((now w2 - now w1 < App.cache_timeout self)%Q ->
        App.get_stock_data self1 w2 symbol period = (Some data, self1, w2))
    /\ ((App.cache_timeout self <= now w2 - now w1)%Q ->
        requests (App.get_stock_data self1 w2 symbol period).2
        = requests w2 ++ [(symbol, period)]
        /\ forall data',
             yahoo w2 symbol period = Returns data' -> empty data' = false ->
             exists self2,
               App.get_stock_data self1 w2 symbol period
               = (Some data', self2, log_request w2 symbol period)
               /\ App.cache self2 !! App.cache_key symbol period
                  = Some (data', now w2)).
Proof.
  intros Hmiss Hy He.
  eexists _, _. split; [by apply get_stock_data_fetch|].
  split; [done|]. split.
  - intros Hlt. apply get_stock_data_hit. rewrite cached_store.
    by rewrite (proj2 (Qltb_lt _ _) Hlt).
  - intros Hge.
    assert (Hstale : App.cached
              (App.store self (App.cache_key symbol period) data (now w1))
              (App.cache_key symbol period) (now w2) = None).
    { rewrite cached_store. by rewrite (proj2 (Qltb_ge _ _) Hge). }
    split; [by apply get_stock_data_miss_requests|].
    intros data' Hy' He'. eexists. split.
    + by apply get_stock_data_fetch.
    + cbn [App.store App.cache]. by rewrite lookup_insert_eq.
Qed.

(** C10.  When a lookup finds no fresh entry and the fetch raises or
    returns an empty frame, [get_stock_data] returns [None] and leaves
    the cache as it was, so nothing is stored for the key; a following
    lookup of the same key, at the same or a later time, sends a request
    again. *)
Theorem failed_fetch_not_cached (self : App.StockData) (w w' : World)
    (symbol period : string) :
  App.cached self (App.cache_key symbol period) (now w) = None ->
  (yahoo w symbol period = Raises
   \/ exists data, yahoo w symbol period = Returns data /\ empty data = true) ->
  (now w <= now w')%Q ->
  exists self1 w1,
    App.get_stock_data self w symbol period = (None, self1, w1)
    /\ App.cache self1 = App.cache self
    /\ requests w1 = requests w ++ [(symbol, period)]
    /\ requests (App.get_stock_data self1 w' symbol period).2
       = requests w' ++ [(symbol, period)].
Proof.
  intros Hmiss Hfail Hlater.
  exists self, (log_request w symbol period).
  split; [by apply get_stock_data_fail|]. split; [done|]. split; [done|].
  apply get_stock_data_miss_requests. by eapply cached_None_later.
Qed.

Lemma cache_round_trip_witness :
  exists self1 w1',
    App.get_stock_data App.new_stock_data (sample_world 1000) "AAPL" "5d"
    = (Some [sample_bar], self1, w1')
    /\ App.get_stock_data self1 (sample_world 1030) "AAPL" "5d"
       = (Some [sample_bar], self1, sample_world 1030)
    /\ requests w1' = [("AAPL", "5d")].
Proof.
  destruct (cache_round_trip App.new_stock_data (sample_world 1000)
              (sample_world 1030) "AAPL" "5d" [sample_bar])
    as (self1 & w1' & H1 & Hreq & Hin & _); [reflexivity..|].
  exists self1, w1'. split; [exact H1|]. split; [|exact Hreq].
  apply Hin. reflexivity.
Defined.

Lemma failed_fetch_not_cached_witness :
  exists self1 w1,
    App.get_stock_data App.new_stock_data (sample_world 1000) "ZZZZ" "5d"
    = (None, self1, w1)
    /\ App.cache self1 = ∅
    /\ requests w1 = [("ZZZZ", "5d")]
    /\ requests (App.get_stock_data self1 (sample_world 1001) "ZZZZ" "5d").2
       = [("ZZZZ", "5d")].
Proof.
  apply (failed_fetch_not_cached App.new_stock_data (sample_world 1000)
           (sample_world 1001) "ZZZZ" "5d").
  - reflexivity.
  - left. reflexivity.
  - cbn. apply Qle_bool_imp_le. reflexivity.
Defined.

(** ** The watchlist (C7) *)

Section Watchlist.

Implicit Types (self : App.UltimateRSITracker) (w : World).

Lemma is_empty_false (s : string) : s <> EmptyString -> App.is_empty s = false.
Proof. by destruct s. Qed.

Lemma add_stock_present self w :
  entered self <> EmptyString ->
  entered self ∈ App.watchlist self ->
  App.add_stock self w
  = (with_dialog self (App.duplicate_warning (entered self)), w, Tk.Finished).
Proof.
  intros Hne Hin. unfold App.add_stock. fold (entered self).
  rewrite is_empty_false by done.
  by rewrite bool_decide_eq_true_2.
Qed.

Lemma add_stock_new self w data sd w' :
  entered self <> EmptyString ->
  entered self ∉ App.watchlist self ->
  App.get_stock_data (App.stock_data self) w (entered self) "5d"
  = (Some data, sd, w') ->
  empty data = false ->
  App.watchlist (App.add_stock self w).1.1 = App.watchlist self ++ [entered self]
  /\ App.dialogs (App.add_stock self w).1.1 = App.dialogs self.
Proof.
  intros Hne Hin Hget He. unfold App.add_stock. fold (entered self).
  rewrite is_empty_false by done.
  rewrite bool_decide_eq_false_2 by done.
  rewrite Hget, He. cbn [App.tree].
  by destruct (Tk.insert (App.tree self) (entered self)).
Qed.

End Watchlist.

(** C7.  For an entry whose capitals are modelled, and which is not
    blank: when the symbol read from the entry is already in the
    watchlist, [add_stock] only shows the "Duplicate" warning, and
    watchlist, cache, table and world stay as they are.  In particular,
    starting from an empty watchlist, entering a symbol whose validation
    fetch succeeds and then entering it again leaves exactly one entry,
    and the second call shows the warning and changes nothing. *)
Theorem add_stock_duplicate (self : App.UltimateRSITracker) (w1 w2 : World)
    (text : string) :
  let symbol := Str.upper (Str.strip text) in
  Str.upper_in_range text = true ->
  symbol <> EmptyString ->
  (symbol ∈ App.watchlist self ->
   App.add_stock (App.type_symbol self text) w1
   = (with_dialog (App.type_symbol self text) (App.duplicate_warning symbol),
      w1, Tk.Finished))
  /\ (App.watchlist self = [] ->
      (exists data sd w',
         App.get_stock_data (App.stock_data self) w1 symbol "5d" = (Some data, sd, w')
         /\ empty data = false) ->
      let first := (App.add_stock (App.type_symbol self text) w1).1.1 in
      let second := App.add_stock (App.type_symbol first text) w2 in
      App.watchlist first = [symbol]
      /\ App.watchlist second.1.1 = [symbol]
      /\ App.dialogs second.1.1 = App.dialogs self ++ [App.duplicate_warning symbol]
      /\ second.1.2 = w2
      /\ second.2 = Tk.Finished).
Proof.
  intros symbol _ Hne. split.
  - intros Hin. by apply add_stock_present.
  - intros Hnil (data & sd & w' & Hget & He) first second.
    destruct (add_stock_new (App.type_symbol self text) w1 data sd w')
      as [Hw Hd]; try done.
    { cbn. rewrite Hnil. apply not_elem_of_nil. }
    cbn [App.type_symbol App.watchlist App.dialogs] in Hw, Hd.
    rewrite Hnil in Hw. cbn in Hw. fold symbol in Hw. fold first in Hw, Hd.
    split; [done|].
    subst second. rewrite add_stock_present.
    + cbn. rewrite Hw, Hd. done.
    + done.
    + cbn [entered App.type_symbol App.symbol_entry App.watchlist].
      fold symbol. rewrite Hw. apply list_elem_of_here.
Qed.

Lemma add_stock_duplicate_witness :
  let first :=
    (App.add_stock (App.type_symbol App.new_tracker " aapl") (sample_world 1000)).1.1 in
  let second := App.add_stock (App.type_symbol first " aapl") (sample_world 1010) in
  App.watchlist first = ["AAPL"]
  /\ App.watchlist second.1.1 = ["AAPL"]
  /\ App.dialogs second.1.1 = [App.duplicate_warning "AAPL"]
  /\ second.1.2 = sample_world 1010
  /\ second.2 = Tk.Finished.
Proof.
  apply (add_stock_duplicate App.new_tracker (sample_world 1000)
           (sample_world 1010) " aapl").
  - reflexivity.
  - discriminate.
  - reflexivity.
  - eexists _, _, _. split; reflexivity.
Defined.

(** ** Watchlist persistence (C6) *)

Section JsonRoundTrip.

Lemma string_app_cons (c : ascii) (a b : string) :
  String c a +:+ b = String c (a +:+ b).
Proof. reflexivity. Qed.

Lemma string_app_assoc (a b c : string) : (a +:+ b) +:+ c = a +:+ (b +:+ c).
Proof.
  induction a as [|x a IH]; [done|]. rewrite !string_app_cons. by f_equal.
Qed.

Lemma string_app_nil_r (a : string) : a +:+ EmptyString = a.
Proof.
  induction a as [|x a IH]; [done|]. rewrite string_app_cons. by f_equal.
Qed.

(** The decoder reads back the character an escape stands for. *)
Lemma run_encode_char (c : ascii) (acc : list string) (cur rest : string) :
  Json.run (Json.Str acc cur) (Json.encode_char c +:+ rest)
  = Json.run (Json.Str acc (Json.push cur c)) rest.
Proof.
  destruct c as [[] [] [] [] [] [] [] []]; reflexivity.
Qed.

Lemma push_app (cur : string) (c : ascii) (s : string) :
  Json.push cur c +:+ s = cur +:+ String c s.
Proof. unfold Json.push. by rewrite string_app_assoc. Qed.

Lemma run_encode_chars (s : string) (acc : list string) (cur rest : string) :
  Json.run (Json.Str acc cur) (Json.encode_chars s +:+ String Json.quote rest)
  = Json.run (Json.After (acc ++ [cur +:+ s])) rest.
Proof.
  revert cur. induction s as [|c s IH]; intros cur.
  - rewrite string_app_nil_r. reflexivity.
  - cbn [Json.encode_chars]. rewrite string_app_assoc, run_encode_char, IH.
    by rewrite push_app.
Qed.

Lemma run_encode_string (s : string) (acc : list string) (rest : string) :
  Json.run (Json.Value acc) (Json.encode_string s +:+ rest)
  = Json.run (Json.After (acc ++ [s])) rest.
Proof.
  unfold Json.encode_string. rewrite string_app_cons.
  change (Json.run (Json.Value acc) (String Json.quote ?r))
    with (Json.run (Json.Str acc EmptyString) r).
  rewrite string_app_assoc, string_app_cons.
  by rewrite run_encode_chars.
Qed.

Lemma encode_items_cons (x y : string) (l : list string) :
  Json.encode_items (x :: y :: l)
  = Json.encode_string x +:+ String "," (String " " (Json.encode_items (y :: l))).
Proof. reflexivity. Qed.

Lemma run_encode_items (l : list string) (acc : list string) :
  l <> [] ->
  Json.run (Json.Value acc) (Json.encode_items l +:+ String "]" EmptyString)
  = Json.Parsed (acc ++ l).
Proof.
  revert acc. induction l as [|x l IH]; intros acc Hne; [done|].
  destruct l as [|y l].
  - cbn [Json.encode_items]. by rewrite run_encode_string.
  - rewrite encode_items_cons, string_app_assoc, run_encode_string.
    rewrite !string_app_cons.
    change (Json.run (Json.After (acc ++ [x])) (String "," (String " " ?r)))
      with (Json.run (Json.Value (acc ++ [x])) r).
    rewrite IH by done. by rewrite <- app_assoc.
Qed.

Lemma loads_dumps (l : list string) : Json.loads (Json.dumps l) = Json.Parsed l.
Proof.
  unfold Json.loads, Json.dumps.
  change (Json.run Json.Start (String "[" ?r)) with (Json.run Json.Open r).
  destruct l as [|x l]; [reflexivity|].
  etrans; [|by apply (run_encode_items (x :: l) [])].
  destruct l as [|y l].
  - cbn [Json.encode_items]. unfold Json.encode_string.
    rewrite !string_app_cons. reflexivity.
  - rewrite encode_items_cons. unfold Json.encode_string.
    rewrite !string_app_cons. reflexivity.
Qed.

End JsonRoundTrip.

(** C6.  After [save_watchlist] has written the file, [load_watchlist]
    on a tracker that uses the same file reads back the saved list: the
    same symbols in the same order, the empty list included. *)
Theorem watchlist_round_trip (self other : App.UltimateRSITracker) (w w' : World) :
  io_error w = false ->
  io_error w' = false ->
  files w' = files (App.save_watchlist self w) ->
  App.watchlist_file other = App.watchlist_file self ->
  exists loaded,
    App.load_watchlist other w' = Some loaded
    /\ App.watchlist loaded = App.watchlist self.
Proof.
  intros Hio Hio' Hfiles Hfile. unfold App.load_watchlist, App.save_watchlist in *.
  rewrite Hio in Hfiles. rewrite Hfiles, Hfile, Hio'. cbn [write_file files].
  rewrite lookup_insert_eq, loads_dumps. by eexists.
Qed.

Lemma watchlist_round_trip_witness :
  let self := App.set_watchlist App.new_tracker ["AAPL"; "BRK.B"; "MSFT"] in
  exists loaded,
    App.load_watchlist App.new_tracker (App.save_watchlist self (sample_world 1000))
    = Some loaded
    /\ App.watchlist loaded = ["AAPL"; "BRK.B"; "MSFT"].
Proof.
  intros self.
  apply (watchlist_round_trip self App.new_tracker (sample_world 1000)
           (App.save_watchlist self (sample_world 1000)));
    reflexivity.
Defined.

(** ** Divergence (C8) *)

Section Divergence.

Local Open Scope fval_scope.

Lemma lookup_and3 (a b c : list bool) (i : nat) (x y z : bool) :
  a !! i = Some x -> b !! i = Some y -> c !! i = Some z ->
  Indicators.and3 a b c !! i = Some (x && y && z).
Proof.
  intros Ha Hb Hc. unfold Indicators.and3.
  by rewrite !lookup_zip_with, Ha, Hb, Hc.
Qed.

Lemma lookup_rolling_slope (window : nat) (s : Series) (i : nat) :
  (i < length s)%nat ->
  Indicators.rolling_slope window s !! i
  = Some (Pandas.rolling_at Indicators.slope window s i).
Proof. apply lookup_rolling_at. Qed.

(** With a complete window free of NaN, the rolling value is the
    function applied to the window. *)
Lemma rolling_at_complete f (window : nat) (s : Series) (i : nat) :
  (1 <= window)%nat -> (window <= i + 1)%nat ->
  existsb F.is_nan (Pandas.window_at window s i) = false ->
  Pandas.rolling_at f window s i = f (Pandas.window_at window s i).
Proof.
  intros H1 H2 Hnan. unfold Pandas.rolling_at.
  replace (window =? 0)%nat with false by (symmetry; apply Nat.eqb_neq; lia).
  replace (i + 1 <? window)%nat with false by (symmetry; apply Nat.ltb_ge; lia).
  cbn [orb]. by rewrite Hnan.
Qed.

Lemma lookup_divergence_column (prices rsi : Series) (window i : nat) (p r : fval) :
  prices !! i = Some p -> rsi !! i = Some r ->
  let price_trend := Pandas.rolling_at Indicators.slope window prices i in
  let rsi_trend := Pandas.rolling_at Indicators.slope window rsi i in
  Indicators.divergence_column prices rsi window !! i
  = Some (if (price_trend >? Fin 0) && (rsi_trend <? Fin 0) && (r >? Fin 60)
          then Indicators.BEARISH
          else if (price_trend <? Fin 0) && (rsi_trend >? Fin 0) && (r <? Fin 40)
          then Indicators.BULLISH
          else Indicators.NONE).
Proof.
  intros Hp Hr pt rt. unfold Indicators.divergence_column.
  assert (Hpt : Indicators.rolling_slope window prices !! i = Some pt)
    by (apply lookup_rolling_slope; by eapply lookup_lt_Some).
  assert (Hrt : Indicators.rolling_slope window rsi !! i = Some rt)
    by (apply lookup_rolling_slope; by eapply lookup_lt_Some).
  erewrite lookup_loc_assign; [done| |].
  - apply lookup_and3; by rewrite list_lookup_fmap, ?Hpt, ?Hrt, ?Hr.
  - erewrite lookup_loc_assign; [done| |].
    + apply lookup_and3; by rewrite list_lookup_fmap, ?Hpt, ?Hrt, ?Hr.
    + apply lookup_replicate_2. by eapply lookup_lt_Some.
Qed.

Lemma lt_gt_exclusive (x y : fval) : F.lt x y = true -> F.gt x y = false.
Proof.
  unfold F.gt. destruct x as [| | |a], y as [| | |b]; cbn; try done.
  rewrite Qltb_lt. intros H. apply Qltb_ge. lra.
Qed.

End Divergence.

Section Fitted.

Local Open Scope fval_scope.

Variable polyfit_slope : Series -> option fval.

Lemma rolling_apply_Some (window : nat) (s : Series) :
  Fit.succeeds polyfit_slope window s ->
  exists trend,
    Fit.rolling_apply polyfit_slope window s = Some trend
    /\ forall i, (i < length s)%nat ->
         exists t, trend !! i = Some t
                   /\ Fit.rolling_apply_at polyfit_slope window s i = Some t.
Proof.
  intros Hfit.
  destruct (mapM_is_Some_2 (Fit.rolling_apply_at polyfit_slope window s)
              (seq 0 (length s))) as [trend Htrend].
  { apply Forall_forall. intros j Hj. apply elem_of_seq in Hj.
    apply Hfit. lia. }
  exists trend. split; [exact Htrend|].
  intros i Hi. apply mapM_Some_1 in Htrend.
  destruct (Forall2_lookup_l _ _ _ i i Htrend) as (t & Ht & Hat).
  { by apply lookup_seq_lt. }
  by exists t.
Qed.

Lemma rolling_apply_at_complete (window : nat) (s : Series) (i : nat) :
  (1 <= window)%nat -> (window <= i + 1)%nat ->
  forallb F.is_finite (Pandas.window_at window s i) = true ->
  Fit.rolling_apply_at polyfit_slope window s i
  = polyfit_slope (Pandas.window_at window s i).
Proof.
  intros H1 H2 Hfin. unfold Fit.rolling_apply_at.
  replace (window =? 0)%nat with false by (symmetry; apply Nat.eqb_neq; lia).
  replace (i + 1 <? window)%nat with false by (symmetry; apply Nat.ltb_ge; lia).
  cbn [orb]. by rewrite Hfin.
Qed.

Lemma lookup_fitted_column (prices rsi : Series) (window i : nat)
    (p r price_trend rsi_trend : fval) :
  prices !! i = Some p -> rsi !! i = Some r ->
  Fit.succeeds polyfit_slope window prices ->
  Fit.succeeds polyfit_slope window rsi ->
  Fit.rolling_apply_at polyfit_slope window prices i = Some price_trend ->
  Fit.rolling_apply_at polyfit_slope window rsi i = Some rsi_trend ->
  exists column,
    Fit.divergence_column polyfit_slope prices rsi window = Some column
    /\ column !! i
       = Some (if (price_trend >? Fin 0) && (rsi_trend <? Fin 0) && (r >? Fin 60)
               then Indicators.BEARISH
               else if (price_trend <? Fin 0) && (rsi_trend >? Fin 0) && (r <? Fin 40)
               then Indicators.BULLISH
               else Indicators.NONE).
Proof.
  intros Hp Hr Hfp Hfr Hpt Hrt.
  destruct (rolling_apply_Some window prices Hfp) as (pts & Hpts & Hpl).
  destruct (rolling_apply_Some window rsi Hfr) as (rts & Hrts & Hrl).
  destruct (Hpl i) as (t1 & Ht1 & Hat1); [by eapply lookup_lt_Some|].
  destruct (Hrl i) as (t2 & Ht2 & Hat2); [by eapply lookup_lt_Some|].
  rewrite Hpt in Hat1. injection Hat1 as <-.
  rewrite Hrt in Hat2. injection Hat2 as <-.
  unfold Fit.divergence_column. rewrite Hpts, Hrts. cbn [mbind option_bind].
  eexists. split; [reflexivity|].
  erewrite lookup_loc_assign; [done| |].
  - apply lookup_and3; by rewrite list_lookup_fmap, ?Ht1, ?Ht2, ?Hr.
  - erewrite lookup_loc_assign; [done| |].
    + apply lookup_and3; by rewrite list_lookup_fmap, ?Ht1, ?Ht2, ?Hr.
    + apply lookup_replicate_2. by eapply lookup_lt_Some.
Qed.

End Fitted.

(** C8.  The trend of a window is the slope numpy fits to it, whatever
    that routine computes.  For two series on the same index, on whose
    windows the fit raises nothing, and at a bar whose trailing window
    is complete and finite in both series, [detect_divergence] labels
    the bar BULLISH exactly when the fitted price trend is negative, the
    fitted RSI trend is positive and the RSI of the bar is below 40;
    BEARISH exactly when the price trend is positive, the RSI trend is
    negative and the RSI is above 60; NONE in every other case. *)
Theorem divergence_classification (polyfit_slope : Series -> option fval)
    (self : Indicators.RSICalculator)
    (prices rsi : Series) (window i : nat) (p r price_trend rsi_trend : fval) :
  (1 <= window)%nat ->
  (window <= i + 1)%nat ->
  length rsi = length prices ->
  prices !! i = Some p ->
  rsi !! i = Some r ->
  Fit.succeeds polyfit_slope window prices ->
  Fit.succeeds polyfit_slope window rsi ->
  forallb F.is_finite (Pandas.window_at window prices i) = true ->
  forallb F.is_finite (Pandas.window_at window rsi i) = true ->
  polyfit_slope (Pandas.window_at window prices i) = Some price_trend ->
  polyfit_slope (Pandas.window_at window rsi i) = Some rsi_trend ->
  let bullish :=
    F.lt price_trend (Fin 0) = true /\ F.gt rsi_trend (Fin 0) = true
    /\ F.lt r (Fin 40) = true in
  let bearish :=
    F.gt price_trend (Fin 0) = true /\ F.lt rsi_trend (Fin 0) = true
    /\ F.gt r (Fin 60) = true in
  exists rows row,
    Fit.detect_divergence polyfit_slope self prices rsi window = Some rows
    /\ rows !! i = Some row
    /\ Indicators.Price row = p
    /\ Indicators.Div_RSI row = r
    /\ (Indicators.Divergence row = Indicators.BULLISH <-> bullish)
    /\ (Indicators.Divergence row = Indicators.BEARISH <-> bearish)
    /\ (Indicators.Divergence row = Indicators.NONE <-> ~ bullish /\ ~ bearish).
Proof.
  intros Hw Hi _ Hp Hr Hfp Hfr Hnp Hnr Hpt Hrt bullish bearish.
  destruct (lookup_fitted_column polyfit_slope prices rsi window i p r
              price_trend rsi_trend) as (column & Hcol & Hlabel); try done.
  { by rewrite rolling_apply_at_complete. }
  { by rewrite rolling_apply_at_complete. }
  unfold Fit.detect_divergence. rewrite Hcol. cbn [mbind option_bind].
  eexists _, _. split; [done|].
  split.
  { rewrite lookup_zip_with, Hlabel.
    rewrite (proj2 (lookup_zip_with_Some pair _ _ i _)) by eauto.
    done. }
  cbn [Indicators.Price Indicators.Div_RSI Indicators.Divergence].
  split; [done|]. split; [done|].
  subst bullish bearish.
  pose proof (lt_gt_exclusive price_trend (Fin 0)) as Hex.
  destruct (F.gt price_trend (Fin 0)) eqn:H1, (F.lt rsi_trend (Fin 0)) eqn:H2,
    (F.gt r (Fin 60)) eqn:H3, (F.lt price_trend (Fin 0)) eqn:H4,
    (F.gt rsi_trend (Fin 0)) eqn:H5, (F.lt r (Fin 40)) eqn:H6;
    cbn [andb]; try (by specialize (Hex eq_refl));
    (split; [|split]); split; try done; intuition congruence.
Qed.

Lemma divergence_classification_witness :
  let polyfit_slope := fun w => Some (Indicators.slope w) in
  let prices := [Fin 10; Fin 9; Fin 8; Fin 7] in
  let rsi := [Fin 30; Fin 31; Fin 32; Fin 33] in
  exists rows row,
    Fit.detect_divergence polyfit_slope (Indicators.init 14) prices rsi 3 = Some rows
    /\ rows !! 2%nat = Some row
    /\ Indicators.Divergence row = Indicators.BULLISH.
Proof.
  intros polyfit_slope prices rsi.
  destruct (divergence_classification polyfit_slope (Indicators.init 14)
              prices rsi 3 2 (Fin 8) (Fin 32) (Fin (-1)) (Fin 1))
    as (rows & row & Hrows & Hrow & _ & _ & Hbull & _).
  - lia.
  - lia.
  - reflexivity.
  - reflexivity.
  - reflexivity.
  - intros j Hj. unfold Fit.rolling_apply_at.
    destruct (_ || _); [by eexists|]. destruct (forallb _ _); by eexists.
  - intros j Hj. unfold Fit.rolling_apply_at.
    destruct (_ || _); [by eexists|]. destruct (forallb _ _); by eexists.
  - reflexivity.
  - reflexivity.
  - reflexivity.
  - reflexivity.
  - exists rows, row. split; [exact Hrows|]. split; [exact Hrow|].
    apply Hbull. repeat split; reflexivity.
Defined.

(** ** The range of the RSI (C2) *)

Section Range.

Local Open Scope fval_scope.








Lemma Forall_window (P : fval -> Prop) (window : nat) (s : Series) (i : nat) :
  Forall P s -> Forall P (Pandas.window_at window s i).
Proof. intros H. unfold Pandas.window_at. by apply Forall_take, Forall_drop. Qed.




Lemma add_fin (a b : Q) : Fin a + Fin b = Fin (Qred (a + b)).
Proof. reflexivity. Qed.

Lemma sub_fin (a b : Q) : Fin a - Fin b = Fin (Qred (a + Qred (- b))).
Proof. reflexivity. Qed.

Lemma div_fin (a b : Q) :
  ~ (b == 0)%Q -> Fin a / Fin b = Fin (Qred (a / b)).
Proof.
  intros Hb. cbn [F.div].
  destruct (Qeq_bool b 0) eqn:Hb0; [|done].
  by apply Qeq_bool_eq in Hb0.
Qed.



End Range.

Section TrackerRsi.

Local Open Scope fval_scope.

Lemma length_gains_of prices : length (gains_of prices) = length prices.
Proof. unfold gains_of. by rewrite length_where, length_diff. Qed.

Lemma length_losses_of prices : length (losses_of prices) = length prices.
Proof. unfold losses_of. by rewrite length_fmap, length_where, length_diff. Qed.

(** Past the length guard, position [i] of the output is the RSI of
    the two rolling means at [i], with NaN replaced by 50. *)
Lemma lookup_calculate_rsi (prices : Series) (period i : nat) :
  (period + 1 <= length prices)%nat -> (i < length prices)%nat ->
  Tracker.calculate_rsi prices period !! i
  = Some (if F.is_nan (rsi_at prices period i) then Fin 50
          else rsi_at prices period i).
Proof.
  intros Hlen Hi. unfold Tracker.calculate_rsi.
  replace (length prices <? period + 1)%nat with false
    by (symmetry; apply Nat.ltb_ge; lia).
  fold (gains_of prices) (losses_of prices).
  unfold Pandas.fillna, Pandas.rolling_mean.
  rewrite !list_lookup_fmap, lookup_zip_with.
  rewrite !lookup_rolling_at by (by rewrite ?length_gains_of, ?length_losses_of).
  done.
Qed.

Lemma length_calculate_rsi (prices : Series) (period : nat) :
  length (Tracker.calculate_rsi prices period) = length prices.
Proof.
  unfold Tracker.calculate_rsi. destruct (_ <? _)%nat.
  - by rewrite length_replicate.
  - fold (gains_of prices) (losses_of prices).
    unfold Pandas.fillna, Pandas.rolling_mean.
    rewrite !length_fmap, length_zip_with, !length_fmap, !length_seq.
    rewrite length_gains_of, length_losses_of. lia.
Qed.


End TrackerRsi.

Section EwmRange.

Local Open Scope fval_scope.







End EwmRange.





(** ** A rising series (C3) *)

Section Rising.

Local Open Scope fval_scope.

Lemma strictly_increasing_lookup (s : Series) (j : nat) (a b : fval) :
  Pandas.strictly_increasing s = true ->
  s !! j = Some a -> s !! S j = Some b ->
  exists x y, a = Fin x /\ b = Fin y /\ (x < y)%Q.
Proof.
  revert j. induction s as [|u s IH]; intros j Hs Ha Hb; [done|].
  cbn [Pandas.strictly_increasing] in Hs.
  apply andb_true_iff in Hs as [Hfin Hs].
  destruct s as [|v s]; [done|].
  apply andb_true_iff in Hs as [Hlt Hs].
  destruct j as [|j].
  - cbn in Ha, Hb. injection Ha as <-. injection Hb as <-.
    cbn [Pandas.strictly_increasing] in Hs.
    apply andb_true_iff in Hs as [Hfin' _].
    destruct u as [| | |x], v as [| | |y]; try done.
    exists x, y. cbn in Hlt. by apply Qltb_lt in Hlt.
  - by apply (IH j).
Qed.

Lemma lookup_diff_S (s : Series) (j : nat) (a b : fval) :
  s !! j = Some a -> s !! S j = Some b ->
  Pandas.diff s !! S j = Some (b - a).
Proof.
  intros Ha Hb. destruct s as [|u s]; [done|].
  cbn [Pandas.diff].
  change (zip_with (fun prev cur => cur - prev) (u :: s) s !! j = Some (b - a)).
  change (s !! j = Some b) in Hb.
  by rewrite lookup_zip_with, Ha, Hb.
Qed.

Lemma rising_gain_loss (s : Series) (j : nat) (x : fval) :
  Pandas.strictly_increasing s = true ->
  (1 <= j)%nat ->
  (gains_of s !! j = Some x -> positive_fin x)
  /\ (losses_of s !! j = Some x -> x = Fin 0).
Proof.
  intros Hs Hj. destruct j as [|j]; [lia|].
  unfold gains_of, losses_of, Pandas.where_.
  rewrite !list_lookup_fmap.
  destruct (Pandas.diff s !! S j) as [d|] eqn:Hd; [|done].
  assert (Hlen : (S j < length s)%nat).
  { apply lookup_lt_Some in Hd. by rewrite length_diff in Hd. }
  destruct (lookup_lt_is_Some_2 s j) as [a Ha]; [lia|].
  destruct (lookup_lt_is_Some_2 s (S j)) as [b Hb]; [lia|].
  destruct (strictly_increasing_lookup s j a b Hs Ha Hb)
    as (u & v & -> & -> & Huv).
  rewrite (lookup_diff_S s j _ _ Ha Hb) in Hd. injection Hd as <-.
  unfold F.fin.
  assert (Hpos : (0 < Qred (v + Qred (- u)))%Q)
    by (rewrite !Qred_correct; lra).
  remember (Qred (v + Qred (- u))) as g eqn:Eg. clear Eg.
  cbn. rewrite (proj2 (Qltb_lt 0 g)) by done.
  rewrite (proj2 (Qltb_ge g 0)) by lra.
  split; intros [= <-]; [done | reflexivity].
Qed.

Lemma Forall_window_from (P : fval -> Prop) (window : nat) (s : Series) (i k : nat) :
  (k <= i + 1 - window)%nat ->
  (forall j x, (k <= j)%nat -> s !! j = Some x -> P x) ->
  Forall P (Pandas.window_at window s i).
Proof.
  intros Hk H. unfold Pandas.window_at. apply Forall_lookup. intros j x Hx.
  apply lookup_take_Some in Hx as [Hx _]. rewrite lookup_drop in Hx.
  eapply H; [|done]. lia.
Qed.

Lemma length_window_at (window : nat) (s : Series) (i : nat) :
  (window <= i + 1)%nat -> (i < length s)%nat ->
  length (Pandas.window_at window s i) = window.
Proof.
  intros H1 H2. unfold Pandas.window_at.
  rewrite length_take, length_drop. lia.
Qed.

Lemma foldl_add_positive (w : Series) (a : Q) :
  (0 <= a)%Q -> Forall positive_fin w -> ((0 < a)%Q \/ w <> []) ->
  positive_fin (foldl F.add (Fin a) w).
Proof.
  revert a. induction w as [|x w IH]; intros a Ha Hw Hne.
  - cbn. destruct Hne as [H|H]; done.
  - apply Forall_cons in Hw as [Hx Hw]. cbn [foldl].
    destruct x as [| | |b]; try done. cbn in Hx. rewrite add_fin.
    assert (H : (0 < Qred (a + b))%Q) by (rewrite Qred_correct; lra).
    apply IH; [lra | done | by left].
Qed.

Lemma foldl_add_zero (w : Series) :
  Forall (fun x => x = Fin 0) w -> foldl F.add (Fin 0) w = Fin 0.
Proof.
  induction w as [|x w IH]; intros Hw; [done|].
  apply Forall_cons in Hw as [-> Hw]. cbn [foldl].
  change (Fin 0 + Fin 0) with (Fin 0). by apply IH.
Qed.

Lemma no_nan_positive (w : Series) :
  Forall positive_fin w -> existsb F.is_nan w = false.
Proof.
  induction 1 as [|x w Hx _ IH]; [done|]. cbn. rewrite IH. by destruct x.
Qed.

Lemma no_nan_zero (w : Series) :
  Forall (fun x => x = Fin 0) w -> existsb F.is_nan w = false.
Proof.
  induction 1 as [|x w Hx _ IH]; [done|]. cbn. by rewrite IH, Hx.
Qed.

Lemma of_nat_positive (n : nat) : (1 <= n)%nat -> (0 < inject_Z (Z.of_nat n))%Q.
Proof. intros H. change 0%Q with (inject_Z 0). rewrite <- Zlt_Qlt. lia. Qed.

Lemma mean_positive (w : Series) :
  w <> [] -> Forall positive_fin w -> positive_fin (Pandas.mean w).
Proof.
  intros Hne Hw. unfold Pandas.mean, Pandas.sum, F.of_nat.
  pose proof (foldl_add_positive w 0 (Qle_refl 0) Hw (or_intror Hne)) as Hs.
  destruct (foldl F.add (Fin 0) w) as [| | |t]; try done. cbn in Hs.
  assert (Hn : (0 < inject_Z (Z.of_nat (length w)))%Q).
  { apply of_nat_positive. destruct w; [done | cbn; lia]. }
  rewrite div_fin by lra. cbn. rewrite Qred_correct.
  apply Qlt_shift_div_l; lra.
Qed.

Lemma mean_zero (w : Series) :
  w <> [] -> Forall (fun x => x = Fin 0) w -> Pandas.mean w = Fin 0.
Proof.
  intros Hne Hw. unfold Pandas.mean, Pandas.sum, F.of_nat.
  rewrite foldl_add_zero by done.
  assert (Hn : (0 < inject_Z (Z.of_nat (length w)))%Q).
  { apply of_nat_positive. destruct w; [done | cbn; lia]. }
  rewrite div_fin by lra. apply (f_equal Fin), Qred_zero.
  unfold Qdiv. lra.
Qed.


End Rising.



(** * Further properties of the indicator engine *)

Section ScalarRsi.

Lemma last_replicate {A} (n : nat) (x : A) :
  last (replicate n x) = if n is O then None else Some x.
Proof.
  destruct n as [|n]; [done|]. rewrite last_lookup, length_replicate.
  cbn [Nat.pred length]. apply lookup_replicate_2. lia.
Qed.

End ScalarRsi.

(** X1.  The calculator of [enhanced_rsi_tracker.py] and
    [rsi_tracker_app.py], which returns the latest RSI only, raises
    [ValueError] for every negative period and nothing else: for a
    period of 0 or more it returns the last value of the series the
    calculator of [ultimate_rsi_tracker.py] computes from the same
    prices, and 50 for an empty series. *)
Theorem scalar_rsi_is_last (prices : Series) (period : Z) :
  Scalar.calculate_rsi prices period
  = if (period <? 0)%Z then Scalar.ValueError
    else Scalar.Value
           (default (Fin 50)
              (last (Tracker.calculate_rsi prices (Z.to_nat period)))).
Proof.
  unfold Scalar.calculate_rsi, Tracker.calculate_rsi.
  destruct (period <? 0)%Z eqn:Hneg.
  - apply Z.ltb_lt in Hneg.
    replace (Z.of_nat (length prices) <? period + 1)%Z with false
      by (symmetry; apply Z.ltb_ge; lia).
    reflexivity.
  - apply Z.ltb_ge in Hneg.
    replace (Z.of_nat (length prices) <? period + 1)%Z
      with (length prices <? Z.to_nat period + 1)%nat.
    2:{ destruct (Nat.ltb_spec (length prices) (Z.to_nat period + 1));
          symmetry; [apply Z.ltb_lt | apply Z.ltb_ge]; lia. }
    destruct (length prices <? Z.to_nat period + 1)%nat eqn:Hlen.
    + rewrite last_replicate. by destruct (length prices).
    + apply Nat.ltb_ge in Hlen. unfold Pandas.fillna. rewrite !fmap_last.
      destruct (last _) as [x|] eqn:Hlast; [reflexivity|].
      apply last_None in Hlast. apply (f_equal length) in Hlast.
      rewrite length_zip_with in Hlast.
      unfold Pandas.rolling_mean in Hlast.
      rewrite !length_fmap, !length_seq, !length_where, length_diff in Hlast.
      cbn in Hlast. lia.
Qed.

Section Falling.

Local Open Scope fval_scope.

Lemma strictly_decreasing_lookup (s : Series) (j : nat) (a b : fval) :
  Shape.strictly_decreasing s = true ->
  s !! j = Some a -> s !! S j = Some b ->
  exists x y, a = Fin x /\ b = Fin y /\ (y < x)%Q.
Proof.
  revert j. induction s as [|u s IH]; intros j Hs Ha Hb; [done|].
  cbn [Shape.strictly_decreasing] in Hs.
  apply andb_true_iff in Hs as [Hfin Hs].
  destruct s as [|v s]; [done|].
  apply andb_true_iff in Hs as [Hlt Hs].
  destruct j as [|j].
  - cbn in Ha, Hb. injection Ha as <-. injection Hb as <-.
    cbn [Shape.strictly_decreasing] in Hs.
    apply andb_true_iff in Hs as [Hfin' _].
    destruct u as [| | |x], v as [| | |y]; try done.
    exists x, y. cbn in Hlt. by apply Qltb_lt in Hlt.
  - by apply (IH j).
Qed.

Lemma falling_gain_loss (s : Series) (j : nat) (x : fval) :
  Shape.strictly_decreasing s = true ->
  (1 <= j)%nat ->
  (gains_of s !! j = Some x -> x = Fin 0)
  /\ (losses_of s !! j = Some x -> positive_fin x).
Proof.
  intros Hs Hj. destruct j as [|j]; [lia|].
  unfold gains_of, losses_of, Pandas.where_.
  rewrite !list_lookup_fmap.
  destruct (Pandas.diff s !! S j) as [d|] eqn:Hd; [|done].
  assert (Hlen : (S j < length s)%nat).
  { apply lookup_lt_Some in Hd. by rewrite length_diff in Hd. }
  destruct (lookup_lt_is_Some_2 s j) as [a Ha]; [lia|].
  destruct (lookup_lt_is_Some_2 s (S j)) as [b Hb]; [lia|].
  destruct (strictly_decreasing_lookup s j a b Hs Ha Hb)
    as (u & v & -> & -> & Huv).
  rewrite (lookup_diff_S s j _ _ Ha Hb) in Hd. injection Hd as <-.
  unfold F.fin.
  assert (Hneg : (Qred (v + Qred (- u)) < 0)%Q)
    by (rewrite !Qred_correct; lra).
  remember (Qred (v + Qred (- u))) as g eqn:Eg. clear Eg.
  cbn. rewrite (proj2 (Qltb_lt g 0)) by done.
  rewrite (proj2 (Qltb_ge 0 g)) by lra.
  split; intros [= <-]; [reflexivity|].
  cbn. rewrite Qred_correct. lra.
Qed.

(** On a falling series, once the window no longer reaches the first
    bar, the average gain is 0, the average loss is positive, and the
    RSI is 0. *)
Lemma falling_rsi_at (prices : Series) (period i : nat) :
  Shape.strictly_decreasing prices = true ->
  (1 <= period)%nat -> (period <= i)%nat -> (i < length prices)%nat ->
  rsi_at prices period i = Fin 0.
Proof.
  intros Hs Hp Hi Hlen. unfold rsi_at.
  assert (Hg : Forall (fun x => x = Fin 0)
                 (Pandas.window_at period (gains_of prices) i)).
  { apply (Forall_window_from _ _ _ _ 1); [lia|].
    intros j x Hj Hx. by apply (falling_gain_loss prices j x Hs Hj). }
  assert (Hl : Forall positive_fin (Pandas.window_at period (losses_of prices) i)).
  { apply (Forall_window_from _ _ _ _ 1); [lia|].
    intros j x Hj Hx. by apply (falling_gain_loss prices j x Hs Hj). }
  assert (Hgne : Pandas.window_at period (gains_of prices) i <> []).
  { intros H. apply (f_equal length) in H.
    rewrite length_window_at in H by (rewrite ?length_gains_of; lia).
    cbn in H. lia. }
  assert (Hlne : Pandas.window_at period (losses_of prices) i <> []).
  { intros H. apply (f_equal length) in H.
    rewrite length_window_at in H by (rewrite ?length_losses_of; lia).
    cbn in H. lia. }
  rewrite (rolling_at_complete _ _ (gains_of prices))
    by (lia || by apply no_nan_zero).
  rewrite (rolling_at_complete _ _ (losses_of prices))
    by (lia || by apply no_nan_positive).
  rewrite (mean_zero _ Hgne Hg).
  pose proof (mean_positive _ Hlne Hl) as Hm.
  destruct (Pandas.mean _) as [| | |l]; try done. cbn in Hm.
  rewrite div_fin by lra.
  rewrite (Qred_zero (0 / l)) by (unfold Qdiv; lra).
  reflexivity.
Qed.

End Falling.

(** X2.  On a series of whole-number prices of absolute value at most
    2^31 (binary64 computes their differences and window sums without
    rounding), each below the one before, with at least [period + 1]
    bars, the tracker's [calculate_rsi] gives exactly 0 at every
    position from [period] on, the last one included. *)
Theorem calculate_rsi_falling (prices : Series) (period : nat) :
  Shape.whole_prices prices = true ->
  Shape.strictly_decreasing prices = true ->
  (1 <= period)%nat ->
  (period + 1 <= length prices)%nat ->
  (forall i, (period <= i)%nat -> (i < length prices)%nat ->
     Tracker.calculate_rsi prices period !! i = Some (Fin 0))
  /\ last (Tracker.calculate_rsi prices period) = Some (Fin 0).
Proof.
  intros _ Hs Hp Hlen.
  assert (Hall : forall i, (period <= i)%nat -> (i < length prices)%nat ->
            Tracker.calculate_rsi prices period !! i = Some (Fin 0)).
  { intros i Hi Hil. rewrite lookup_calculate_rsi by lia.
    by rewrite falling_rsi_at. }
  split; [done|].
  rewrite last_lookup, length_calculate_rsi. apply Hall; lia.
Qed.

Lemma calculate_rsi_falling_witness :
  let prices := [Fin 18; Fin 14; Fin 13; Fin 11; Fin 10] in
  (forall i, (2 <= i)%nat -> (i < 5)%nat ->
     Tracker.calculate_rsi prices 2 !! i = Some (Fin 0))
  /\ last (Tracker.calculate_rsi prices 2) = Some (Fin 0).
Proof.
  intros prices.
  apply (calculate_rsi_falling prices 2);
    [reflexivity | reflexivity | lia | cbn; lia].
Defined.

Section Flat.

Local Open Scope fval_scope.

Lemma flat_lookup (s : Series) (j : nat) (a b : fval) :
  Shape.flat s = true ->
  s !! j = Some a -> s !! S j = Some b ->
  exists x y, a = Fin x /\ b = Fin y /\ (x == y)%Q.
Proof.
  revert j. induction s as [|u s IH]; intros j Hs Ha Hb; [done|].
  cbn [Shape.flat] in Hs.
  apply andb_true_iff in Hs as [Hfin Hs].
  destruct s as [|v s]; [done|].
  apply andb_true_iff in Hs as [Heq Hs].
  destruct j as [|j].
  - cbn in Ha, Hb. injection Ha as <-. injection Hb as <-.
    destruct u as [| | |x], v as [| | |y]; try done.
    exists x, y. cbn in Heq. by apply Qeq_bool_eq in Heq.
  - by apply (IH j).
Qed.

Lemma flat_gain_loss (s : Series) (j : nat) (x : fval) :
  Shape.flat s = true ->
  (gains_of s !! j = Some x -> x = Fin 0)
  /\ (losses_of s !! j = Some x -> x = Fin 0).
Proof.
  intros Hs. destruct j as [|j].
  { destruct s as [|u s]; [done|]. split; by intros [= <-]. }
  unfold gains_of, losses_of, Pandas.where_.
  rewrite !list_lookup_fmap.
  destruct (Pandas.diff s !! S j) as [d|] eqn:Hd; [|done].
  assert (Hlen : (S j < length s)%nat).
  { apply lookup_lt_Some in Hd. by rewrite length_diff in Hd. }
  destruct (lookup_lt_is_Some_2 s j) as [a Ha]; [lia|].
  destruct (lookup_lt_is_Some_2 s (S j)) as [b Hb]; [lia|].
  destruct (flat_lookup s j a b Hs Ha Hb) as (u & v & -> & -> & Huv).
  rewrite (lookup_diff_S s j _ _ Ha Hb) in Hd. injection Hd as <-.
  unfold F.fin.
  rewrite (Qred_zero (v + Qred (- u))) by (rewrite Qred_correct; lra).
  split; by intros [= <-].
Qed.

Lemma flat_rolling_mean (window : nat) (s : Series) (i : nat) :
  Forall (fun x => x = Fin 0) s ->
  Pandas.rolling_at Pandas.mean window s i = NaN
  \/ Pandas.rolling_at Pandas.mean window s i = Fin 0.
Proof.
  intros Hs. unfold Pandas.rolling_at.
  destruct (_ || _); [by left|].
  destruct (existsb _ _); [by left|].
  destruct (Pandas.window_at window s i) as [|x l] eqn:Hw; [by left|].
  right. apply mean_zero; [done|]. rewrite <- Hw. by apply Forall_window.
Qed.

Lemma flat_rsi_at (prices : Series) (period i : nat) :
  Shape.flat prices = true -> F.is_nan (rsi_at prices period i) = true.
Proof.
  intros Hs. unfold rsi_at.
  assert (Hg : Forall (fun x => x = Fin 0) (gains_of prices)).
  { apply Forall_lookup. intros j x Hx.
    by apply (proj1 (flat_gain_loss prices j x Hs)). }
  assert (Hl : Forall (fun x => x = Fin 0) (losses_of prices)).
  { apply Forall_lookup. intros j x Hx.
    by apply (proj2 (flat_gain_loss prices j x Hs)). }
  destruct (flat_rolling_mean period _ i Hg) as [->| ->]; [done|].
  by destruct (flat_rolling_mean period _ i Hl) as [->| ->].
Qed.

End Flat.

(** X3.  On a series of equal finite prices the tracker's
    [calculate_rsi] returns 50 at every position, whatever the period:
    with neither gain nor loss the ratio is 0/0, and the NaN it gives
    is replaced by the neutral value. *)
Theorem calculate_rsi_flat (prices : Series) (period : nat) :
  Shape.flat prices = true ->
  Tracker.calculate_rsi prices period = replicate (length prices) (Fin 50).
Proof.
  intros Hs.
  destruct (decide (length prices < period + 1)%nat) as [Hshort|Hlong].
  { unfold Tracker.calculate_rsi.
    by replace (length prices <? period + 1)%nat with true
      by (symmetry; apply Nat.ltb_lt; lia). }
  apply list_eq. intros i.
  destruct (decide (i < length prices)%nat) as [Hi|Hi].
  - rewrite lookup_calculate_rsi by lia.
    rewrite flat_rsi_at by done. symmetry. by apply lookup_replicate_2.
  - rewrite !lookup_ge_None_2; [done| |].
    + rewrite length_replicate. lia.
    + rewrite length_calculate_rsi. lia.
Qed.

Lemma calculate_rsi_flat_witness :
  Tracker.calculate_rsi [Fin 7; Fin 7; Fin 7; Fin 7] 2 = replicate 4 (Fin 50).
Proof.
  apply (calculate_rsi_flat [Fin 7; Fin 7; Fin 7; Fin 7] 2). reflexivity.
Defined.

(** X4.  The tracker's [calculate_rsi] returns one value per price, and
    its first [period - 1] values, those at the positions [i] with
    [i + 1 < period], where the window is incomplete, are the neutral
    50. *)
Theorem calculate_rsi_warm_up (prices : Series) (period i : nat) :
  length (Tracker.calculate_rsi prices period) = length prices
  /\ ((i < length prices)%nat -> (i + 1 < period)%nat ->
      Tracker.calculate_rsi prices period !! i = Some (Fin 50)).
Proof.
  split; [apply length_calculate_rsi|]. intros Hi Hp.
  destruct (decide (length prices < period + 1)%nat) as [Hshort|Hlong].
  - unfold Tracker.calculate_rsi.
    replace (length prices <? period + 1)%nat with true
      by (symmetry; apply Nat.ltb_lt; lia).
    by apply lookup_replicate_2.
  - rewrite lookup_calculate_rsi by lia. unfold rsi_at, Pandas.rolling_at.
    replace (i + 1 <? period)%nat with true by (symmetry; apply Nat.ltb_lt; lia).
    by rewrite orb_true_r.
Qed.

Lemma calculate_rsi_warm_up_witness :
  let prices := [Fin 1; Fin 3; Fin 2; Fin 5; Fin 4] in
  length (Tracker.calculate_rsi prices 3) = 5%nat
  /\ Tracker.calculate_rsi prices 3 !! 1%nat = Some (Fin 50).
Proof.
  intros prices.
  destruct (calculate_rsi_warm_up prices 3 1) as [Hlen Hwarm].
  split; [exact Hlen|]. apply Hwarm; cbn; lia.
Defined.

(** * Further properties of the stand-alone calculator *)

Section Ewm.

Local Open Scope fval_scope.

Lemma mul_fin (a b : Q) : Fin a * Fin b = Fin (Qred (a * b)).
Proof. reflexivity. Qed.

Lemma length_ewm_from (a prev : fval) (s : Series) :
  length (Pandas.ewm_from a prev s) = length s.
Proof.
  revert prev. induction s as [|x s IH]; intros prev; [done|].
  cbn [Pandas.ewm_from length]. by rewrite IH.
Qed.

Lemma ewm_mean_None (span : nat) (s : Series) :
  Pandas.ewm_mean span s = None <-> span = 0%nat.
Proof.
  unfold Pandas.ewm_mean. destruct (span <? 1)%nat eqn:H.
  - apply Nat.ltb_lt in H. split; [lia | done].
  - apply Nat.ltb_ge in H. split; [done | lia].
Qed.

Lemma length_ewm_mean (span : nat) (s out : Series) :
  Pandas.ewm_mean span s = Some out -> length out = length s.
Proof.
  unfold Pandas.ewm_mean. destruct (span <? 1)%nat; [done|]. intros [= <-].
  destruct s as [|x s]; [done|]. cbn [length]. by rewrite length_ewm_from.
Qed.

Lemma alpha_positive (span : nat) :
  (1 <= span)%nat ->
  exists a, Pandas.alpha span = Fin a /\ (0 < a)%Q /\ (a <= 1)%Q.
Proof.
  intros Hspan. unfold Pandas.alpha, F.of_nat. rewrite add_fin.
  assert (Hn : (1 <= inject_Z (Z.of_nat span))%Q).
  { change 1%Q with (inject_Z 1). rewrite <- Zle_Qle. lia. }
  assert (Hd : (2 <= Qred (inject_Z (Z.of_nat span) + 1))%Q)
    by (rewrite Qred_correct; lra).
  remember (Qred (inject_Z (Z.of_nat span) + 1)) as d eqn:Ed. clear Ed.
  rewrite div_fin by lra. eexists. split; [done|].
  rewrite !Qred_correct. split.
  - apply Qlt_shift_div_l; lra.
  - apply Qle_shift_div_r; lra.
Qed.

Lemma ewm_from_zero (a : Q) (s : Series) :
  Forall (fun x => x = Fin 0) s ->
  Pandas.ewm_from (Fin a) (Fin 0) s = replicate (length s) (Fin 0).
Proof.
  induction 1 as [|x s -> _ IH]; [done|].
  cbn [Pandas.ewm_from length replicate].
  assert (Hy : (Fin 1 - Fin a) * Fin 0 + Fin a * Fin 0 = Fin 0).
  { rewrite sub_fin, !mul_fin.
    rewrite (Qred_zero (_ * 0)) by lra. by rewrite (Qred_zero (a * 0)) by lra. }
  rewrite Hy. by f_equal.
Qed.

Lemma ewm_from_positive (a p : Q) (s : Series) :
  (0 < a)%Q -> (a <= 1)%Q -> (0 <= p)%Q ->
  Forall positive_fin s ->
  Forall positive_fin (Pandas.ewm_from (Fin a) (Fin p) s).
Proof.
  intros Ha0 Ha1 Hp Hs. revert p Hp.
  induction Hs as [|x s Hx _ IH]; intros p Hp; [done|].
  destruct x as [| | |g]; try done. cbn in Hx.
  cbn [Pandas.ewm_from]. rewrite sub_fin, !mul_fin, add_fin.
  assert (H1 : (0 <= Qred (Qred (1 + Qred (- a)) * p))%Q).
  { rewrite Qred_correct. apply Qmult_le_0_compat; [|done].
    rewrite !Qred_correct. lra. }
  assert (H2 : (0 < Qred (a * g))%Q).
  { rewrite Qred_correct. by apply Qmult_lt_0_compat. }
  assert (Hy : (0 < Qred (Qred (Qred (1 + Qred (- a)) * p) + Qred (a * g)))%Q).
  { rewrite Qred_correct. lra. }
  apply Forall_cons. split; [done|]. apply IH. lra.
Qed.

Lemma rsi_positive_over_zero (gains : Series) :
  Forall positive_fin gains ->
  Pandas.rsi_of_rs <$> zip_with F.div gains (replicate (length gains) (Fin 0))
  = replicate (length gains) (Fin 100).
Proof.
  induction 1 as [|x s Hx _ IH]; [done|].
  cbn [length replicate zip_with fmap list_fmap]. f_equal; [|exact IH].
  destruct x as [| | |g]; try done. cbn in Hx.
  cbn [F.div]. change (Qeq_bool 0 0) with true. cbn [F.sign].
  rewrite (proj2 (Qltb_ge g 0)) by lra.
  rewrite (proj2 (Qltb_lt 0 g)) by done.
  reflexivity.
Qed.

Lemma rising_tails (p : fval) (tl : Series) :
  Pandas.strictly_increasing (p :: tl) = true ->
  Forall positive_fin (tail (gains_of (p :: tl)))
  /\ Forall (fun x => x = Fin 0) (tail (losses_of (p :: tl))).
Proof.
  intros Hs. split; apply Forall_lookup; intros j x Hx.
  - apply (proj1 (rising_gain_loss (p :: tl) (S j) x Hs ltac:(lia))).
    by rewrite <- lookup_tail.
  - apply (proj2 (rising_gain_loss (p :: tl) (S j) x Hs ltac:(lia))).
    by rewrite <- lookup_tail.
Qed.

End Ewm.

(** X6.  On a non-empty series of whole-number prices of absolute
    value at most 2^31, each above the one before, and for a period
    from 1 to 2^20 (every gain is then at least 1, and its weighted
    average neither vanishes nor overflows in binary64),
    [calculate_rsi] of [indicators/rsi_calculator.py] returns NaN first
    and 100 at every later position. *)
Theorem ema_rsi_rising (self : Indicators.RSICalculator) (data : Series) :
  Shape.whole_prices data = true ->
  Pandas.strictly_increasing data = true ->
  (1 <= Indicators.period self)%nat ->
  (Z.of_nat (Indicators.period self) <= 2 ^ 20)%Z ->
  data <> [] ->
  Indicators.calculate_rsi self data
  = Some (NaN :: replicate (length data - 1) (Fin 100)).
Proof.
  intros _ Hs Hp _ Hne. destruct data as [|p tl]; [done|].
  destruct (rising_tails p tl Hs) as [Hg Hl].
  unfold Indicators.calculate_rsi.
  fold (gains_of (p :: tl)) (losses_of (p :: tl)).
  assert (HG : gains_of (p :: tl) = Fin 0 :: tail (gains_of (p :: tl)))
    by reflexivity.
  assert (HL : losses_of (p :: tl) = Fin 0 :: tail (losses_of (p :: tl)))
    by reflexivity.
  assert (Hlg : length (tail (gains_of (p :: tl))) = length tl).
  { pose proof (f_equal length HG) as H.
    rewrite length_gains_of in H. cbn [length] in H. lia. }
  assert (Hll : length (tail (losses_of (p :: tl))) = length tl).
  { pose proof (f_equal length HL) as H.
    rewrite length_losses_of in H. cbn [length] in H. lia. }
  rewrite HG, HL. clear HG HL.
  remember (tail (gains_of (p :: tl))) as G eqn:EG. clear EG.
  remember (tail (losses_of (p :: tl))) as L eqn:EL. clear EL.
  unfold Pandas.ewm_mean.
  replace (Indicators.period self <? 1)%nat with false
    by (symmetry; apply Nat.ltb_ge; lia).
  cbn [mbind option_bind].
  destruct (alpha_positive _ Hp) as (a & -> & Ha0 & Ha1).
  rewrite (ewm_from_zero a L Hl).
  pose proof (ewm_from_positive a 0 G Ha0 Ha1 (Qle_refl 0) Hg) as Hpos.
  pose proof (length_ewm_from (Fin a) (Fin 0) G) as Hlen.
  remember (Pandas.ewm_from (Fin a) (Fin 0) G) as A eqn:EA. clear EA.
  cbn [zip_with fmap list_fmap length]. f_equal. f_equal.
  replace (length L) with (length A) by lia.
  rewrite (rsi_positive_over_zero A Hpos). f_equal. lia.
Qed.

Lemma ema_rsi_rising_witness :
  Indicators.calculate_rsi (Indicators.init 14) [Fin 10; Fin 11; Fin 13; Fin 14]
  = Some (NaN :: replicate 3 (Fin 100)).
Proof.
  apply (ema_rsi_rising (Indicators.init 14) [Fin 10; Fin 11; Fin 13; Fin 14]).
  - reflexivity.
  - reflexivity.
  - cbn. lia.
  - cbn. lia.
  - discriminate.
Defined.

Section SignalRows.

Lemma lookup_changed_0 (column : list Indicators.signal) (s : Indicators.signal) :
  column !! 0%nat = Some s -> Indicators.changed column !! 0%nat = Some true.
Proof. by destruct column. Qed.

Lemma lookup_changed_S (column : list Indicators.signal) (i : nat)
    (s t : Indicators.signal) :
  column !! i = Some s -> column !! S i = Some t ->
  Indicators.changed column !! S i = Some (negb (Indicators.signal_eqb t s)).
Proof.
  intros Hs Ht. destruct column as [|u column]; [done|].
  cbn [Indicators.changed].
  change (zip_with (fun prev cur => negb (Indicators.signal_eqb cur prev))
                   (u :: column) column !! i
          = Some (negb (Indicators.signal_eqb t s))).
  change (column !! i = Some t) in Ht.
  by rewrite lookup_zip_with, Hs, Ht.
Qed.

Lemma signal_eqb_eq (a b : Indicators.signal) :
  Indicators.signal_eqb a b = true <-> a = b.
Proof. destruct a, b; cbn; split; congruence. Qed.

Lemma lookup_detect_signals_inv (self : Indicators.RSICalculator) (rsi : Series)
    (i : nat) (row : Indicators.signal_row) :
  Indicators.detect_signals self rsi !! i = Some row ->
  Indicators.signal_column self rsi !! i = Some (Indicators.Signal row)
  /\ Indicators.changed (Indicators.signal_column self rsi) !! i
     = Some (Indicators.Signal_Change row).
Proof.
  unfold Indicators.detect_signals. intros H.
  apply lookup_zip_with_Some in H as (r & [s c] & -> & Hr & Hsc).
  apply lookup_zip_with_Some in Hsc as (s' & c' & [= -> ->] & Hs & Hc).
  done.
Qed.

End SignalRows.

(** X7.  [detect_signals] returns one row per RSI value.  The first row
    is always flagged as a signal change, and every later row is
    flagged exactly when its signal differs from the signal of the row
    before. *)
Theorem detect_signals_changes (self : Indicators.RSICalculator) (rsi : Series) :
  let rows := Indicators.detect_signals self rsi in
  length rows = length rsi
  /\ (forall a, rows !! 0%nat = Some a -> Indicators.Signal_Change a = true)
  /\ (forall i a b,
        rows !! i = Some a -> rows !! S i = Some b ->
        (Indicators.Signal_Change b = true
         <-> Indicators.Signal b <> Indicators.Signal a)).
Proof.
  intros rows. subst rows. split; [|split].
  - unfold Indicators.detect_signals.
    rewrite length_zip_with, length_zip_with, length_changed,
      length_signal_column. lia.
  - intros a Ha. apply lookup_detect_signals_inv in Ha as [Hs Hc].
    rewrite (lookup_changed_0 _ _ Hs) in Hc. by injection Hc as <-.
  - intros i a b Ha Hb.
    apply lookup_detect_signals_inv in Ha as [Hsa _].
    apply lookup_detect_signals_inv in Hb as [Hsb Hcb].
    rewrite (lookup_changed_S _ _ _ _ Hsa Hsb) in Hcb. injection Hcb as <-.
    rewrite negb_true_iff, <- not_true_iff_false, signal_eqb_eq. done.
Qed.

Lemma detect_signals_changes_witness :
  exists a b,
    Indicators.detect_signals (Indicators.init 14) [Fin 75; Fin 80; Fin 20] !! 1%nat
    = Some a
    /\ Indicators.detect_signals (Indicators.init 14) [Fin 75; Fin 80; Fin 20] !! 2%nat
       = Some b
    /\ Indicators.Signal_Change a = false
    /\ Indicators.Signal_Change b = true.
Proof.
  destruct (detect_signals_changes (Indicators.init 14) [Fin 75; Fin 80; Fin 20])
    as (_ & _ & Hstep).
  eexists _, _. split; [reflexivity|]. split; [reflexivity|].
  split; [reflexivity|].
  apply (Hstep 1%nat _ _ eq_refl eq_refl). discriminate.
Defined.

(** X8.  The output of [calculate_moving_averages] has exactly the
    entries [MA<p>] of the requested periods, and each of them is a
    series as long as the prices. *)
Theorem moving_averages_shape (prices : Series) (periods : list nat) :
  let mas := Tracker.calculate_moving_averages prices periods in
  (forall key, is_Some (mas !! key)
               <-> exists period, period ∈ periods /\ key = Tracker.ma_key period)
  /\ (forall key series, mas !! key = Some series -> length series = length prices).
Proof.
  cbn zeta. unfold Tracker.calculate_moving_averages.
  induction periods as [|x l [IH1 IH2]] using rev_ind.
  - split.
    + intros key. cbn. rewrite lookup_empty. split.
      * by intros [? ?].
      * intros (p & Hp & _). by apply elem_of_nil in Hp.
    + intros key series. cbn. by rewrite lookup_empty.
  - rewrite foldl_app. cbn [foldl]. split.
    + intros key. destruct (decide (Tracker.ma_key x = key)) as [<-|Hne].
      * rewrite lookup_insert_eq. split; [|by eauto].
        intros _. exists x. split; [|done]. apply elem_of_app. right.
        apply list_elem_of_here.
      * rewrite lookup_insert_ne by done. rewrite IH1. split.
        -- intros (p & Hp & ->). exists p. split; [|done].
           apply elem_of_app. by left.
        -- intros (p & Hp & ->). exists p. split; [|done].
           apply elem_of_app in Hp as [Hp|Hp]; [done|].
           apply list_elem_of_singleton in Hp. by subst.
    + intros key series. destruct (decide (Tracker.ma_key x = key)) as [<-|Hne].
      * rewrite lookup_insert_eq. intros [= <-].
        unfold Pandas.rolling_mean. apply length_rolling_at.
      * rewrite lookup_insert_ne by done. apply IH2.
Qed.

Lemma moving_averages_shape_witness :
  is_Some (Tracker.calculate_moving_averages [Fin 1; Fin 2; Fin 3] [2%nat; 20%nat]
           !! Tracker.ma_key 2).
Proof.
  destruct (moving_averages_shape [Fin 1; Fin 2; Fin 3] [2%nat; 20%nat]) as [H _].
  apply H. exists 2%nat. split; [apply list_elem_of_here | reflexivity].
Defined.

(** * Further properties of the price cache *)

Section CacheMore.

Implicit Types (self : App.StockData) (w : World) (symbol period : string).

Lemma cache_key_cons symbol period :
  App.cache_key symbol period = symbol +:+ String "_" period.
Proof. reflexivity. Qed.

Lemma no_underscore_app (a b : string) :
  Shape.no_underscore (a +:+ String "_" b) = false.
Proof.
  induction a as [|c a IH]; [done|].
  rewrite string_app_cons. cbn [Shape.no_underscore]. rewrite IH.
  apply andb_false_r.
Qed.

Lemma cache_key_inj symbol1 period1 symbol2 period2 :
  Shape.no_underscore period1 = true -> Shape.no_underscore period2 = true ->
  App.cache_key symbol1 period1 = App.cache_key symbol2 period2 ->
  symbol1 = symbol2 /\ period1 = period2.
Proof.
  rewrite !cache_key_cons. intros H1 H2. revert symbol2.
  induction symbol1 as [|c s1 IH]; intros [|d s2] Heq.
  - by injection Heq.
  - rewrite string_app_cons in Heq. injection Heq as <- ->.
    by rewrite no_underscore_app in H1.
  - rewrite string_app_cons in Heq. injection Heq as -> <-.
    by rewrite no_underscore_app in H2.
  - rewrite !string_app_cons in Heq. injection Heq as -> Heq.
    destruct (IH _ Heq) as [-> ->]. done.
Qed.

Lemma get_stock_data_cases self w symbol period :
  let key := App.cache_key symbol period in
  (exists data, App.cached self key (now w) = Some data
                /\ App.get_stock_data self w symbol period = (Some data, self, w))
  \/ (App.cached self key (now w) = None
      /\ App.get_stock_data self w symbol period
         = (None, self, log_request w symbol period))
  \/ (exists data, App.cached self key (now w) = None
                   /\ empty data = false
                   /\ App.get_stock_data self w symbol period
                      = (Some data, App.store self key data (now w),
                         log_request w symbol period)).
Proof.
  intros key. unfold App.get_stock_data. fold key.
  destruct (App.cached self key (now w)) as [data|] eqn:Hc; [left; eauto|].
  right. destruct (yahoo w symbol period) as [|data]; [by left|].
  destruct (empty data) eqn:He; [by left|]. right. eauto.
Qed.

Lemma cached_empty self key time data :
  Shape.cache_ok self -> App.cached self key time = Some data -> empty data = false.
Proof.
  unfold App.cached. intros Hok.
  destruct (App.cache self !! key) as [[d t]|] eqn:Hk; [|done].
  destruct (F.Qltb _ _); [|done]. intros [= <-]. by eapply Hok.
Qed.

End CacheMore.

(** X9.  As long as the period strings hold no underscore, two
    different (symbol, period) pairs have different cache keys, and a
    lookup of one pair leaves the cache entry of the other as it was. *)
Theorem cache_entries_separate (self : App.StockData) (w : World)
    (symbol1 period1 symbol2 period2 : string) :
  Shape.no_underscore period1 = true ->
  Shape.no_underscore period2 = true ->
  (symbol1, period1) <> (symbol2, period2) ->
  App.cache_key symbol1 period1 <> App.cache_key symbol2 period2
  /\ App.cache (App.get_stock_data self w symbol1 period1).1.2
       !! App.cache_key symbol2 period2
     = App.cache self !! App.cache_key symbol2 period2.
Proof.
  intros H1 H2 Hne.
  assert (Hkey : App.cache_key symbol1 period1 <> App.cache_key symbol2 period2).
  { intros Heq. destruct (cache_key_inj _ _ _ _ H1 H2 Heq) as [-> ->]. done. }
  split; [done|].
  destruct (get_stock_data_cases self w symbol1 period1)
    as [(d & _ & ->)|[[_ ->]|(d & _ & _ & ->)]]; try done.
  cbn. by rewrite lookup_insert_ne.
Qed.

Lemma cache_entries_separate_witness :
  App.cache (App.get_stock_data App.new_stock_data (sample_world 1000) "AAPL" "5d").1.2
    !! App.cache_key "AAPL" "1mo"
  = None.
Proof.
  destruct (cache_entries_separate App.new_stock_data (sample_world 1000)
              "AAPL" "5d" "AAPL" "1mo") as [_ H];
    [reflexivity | reflexivity | discriminate |].
  rewrite H. reflexivity.
Defined.

(** X10.  If every frame in the cache has a row, then after
    [get_stock_data] this is still so, and the frame it returns, if
    any, has a row: the callers never receive an empty frame. *)
Theorem get_stock_data_never_empty (self : App.StockData) (w : World)
    (symbol period : string) :
  Shape.cache_ok self ->
  Shape.cache_ok (App.get_stock_data self w symbol period).1.2
  /\ forall data,
       (App.get_stock_data self w symbol period).1.1 = Some data ->
       empty data = false.
Proof.
  intros Hok.
  destruct (get_stock_data_cases self w symbol period)
    as [(d & Hc & ->)|[[_ ->]|(d & _ & He & ->)]]; cbn.
  - split; [done|]. intros data [= <-]. by eapply cached_empty.
  - by split.
  - split; [|by intros data [= <-]].
    intros key data time. unfold App.store. cbn.
    destruct (decide (App.cache_key symbol period = key)) as [<-|Hne].
    + rewrite lookup_insert_eq. by intros [= <- <-].
    + rewrite lookup_insert_ne by done. apply Hok.
Qed.

Lemma get_stock_data_never_empty_witness :
  Shape.cache_ok
    (App.get_stock_data App.new_stock_data (sample_world 1000) "AAPL" "5d").1.2.
Proof.
  apply (get_stock_data_never_empty App.new_stock_data (sample_world 1000) "AAPL" "5d").
  intros key data time H. cbn in H. by rewrite lookup_empty in H.
Defined.

(** X11.  [get_stock_data] never evicts: every key in the cache is
    still there afterwards.  One call sends at most one request, for
    the pair it was asked, and touches neither the clock nor the
    files. *)
Theorem get_stock_data_footprint (self : App.StockData) (w : World)
    (symbol period : string) :
  let result := App.get_stock_data self w symbol period in
  (forall key, is_Some (App.cache self !! key) ->
               is_Some (App.cache result.1.2 !! key))
  /\ (requests result.2 = requests w
      \/ requests result.2 = requests w ++ [(symbol, period)])
  /\ now result.2 = now w
  /\ files result.2 = files w.
Proof.
  cbn zeta.
  destruct (get_stock_data_cases self w symbol period)
    as [(d & _ & ->)|[[_ ->]|(d & _ & _ & ->)]]; cbn.
  - split; [done|]. split; [by left | done].
  - split; [done|]. split; [by right | done].
  - split; [|split; [by right | done]].
    intros key Hk.
    destruct (decide (App.cache_key symbol period = key)) as [<-|Hne].
    + rewrite lookup_insert_eq. by eexists.
    + by rewrite lookup_insert_ne.
Qed.

Lemma get_stock_data_footprint_witness :
  requests (App.get_stock_data App.new_stock_data (sample_world 1000) "AAPL" "5d").2
  = [("AAPL", "5d")]
  /\ now (App.get_stock_data App.new_stock_data (sample_world 1000) "AAPL" "5d").2
     = 1000.
Proof.
  destruct (get_stock_data_footprint App.new_stock_data (sample_world 1000)
              "AAPL" "5d") as (_ & _ & Hnow & _).
  split; [reflexivity | exact Hnow].
Defined.

(** * Further properties of the watchlist *)

Section AddStock.

Implicit Types (self : App.UltimateRSITracker) (w : World).

Lemma get_stock_data_io self_data w symbol period :
  io_error (App.get_stock_data self_data w symbol period).2 = io_error w
  /\ files (App.get_stock_data self_data w symbol period).2 = files w.
Proof.
  destruct (get_stock_data_cases self_data w symbol period)
    as [(d & _ & ->)|[[_ ->]|(d & _ & _ & ->)]]; done.
Qed.

Lemma insert_new (rows : list string) (iid : string) :
  iid <> EmptyString -> iid ∉ rows -> Tk.insert rows iid = Some (rows ++ [iid]).
Proof.
  intros Hne Hin. unfold Tk.insert. destruct iid; [done|].
  by rewrite bool_decide_eq_false_2.
Qed.

Lemma insert_None (rows : list string) (iid : string) :
  Tk.insert rows iid = None <-> iid = EmptyString \/ iid ∈ rows.
Proof.
  unfold Tk.insert. destruct iid as [|c tl]; [by split; [left|]|].
  case_bool_decide; split; try done; [by right | by intros [?|?]].
Qed.

Lemma add_stock_success self w data sd w' :
  entered self <> EmptyString ->
  entered self ∉ App.watchlist self ->
  entered self ∉ App.tree self ->
  App.get_stock_data (App.stock_data self) w (entered self) "5d"
  = (Some data, sd, w') ->
  empty data = false ->
  let added :=
    {| App.watchlist := App.watchlist self ++ [entered self];
       App.watchlist_file := App.watchlist_file self;
       App.stock_data := sd; App.symbol_entry := EmptyString;
       App.tree := App.tree self ++ [entered self];
       App.status_label := "Added " +:+ entered self +:+ " to watchlist";
       App.dialogs := App.dialogs self |} in
  App.add_stock self w = (added, App.save_watchlist added w', Tk.Finished).
Proof.
  intros Hne Hin Hrow Hget He. unfold App.add_stock. fold (entered self).
  rewrite is_empty_false by done.
  rewrite bool_decide_eq_false_2 by done.
  rewrite Hget, He. cbn [App.tree]. by rewrite insert_new.
Qed.

(** The symbol is already a row of the table, although the watchlist
    does not list it: the watchlist is extended and saved, and
    [tree.insert] raises. *)
Lemma add_stock_row self w data sd w' :
  entered self <> EmptyString ->
  entered self ∉ App.watchlist self ->
  entered self ∈ App.tree self ->
  App.get_stock_data (App.stock_data self) w (entered self) "5d"
  = (Some data, sd, w') ->
  empty data = false ->
  let added :=
    {| App.watchlist := App.watchlist self ++ [entered self];
       App.watchlist_file := App.watchlist_file self;
       App.stock_data := sd; App.symbol_entry := EmptyString;
       App.tree := App.tree self;
       App.status_label := "Validating " +:+ entered self +:+ "...";
       App.dialogs := App.dialogs self |} in
  App.add_stock self w = (added, App.save_watchlist added w', Tk.TclError).
Proof.
  intros Hne Hin Hrow Hget He. unfold App.add_stock. fold (entered self).
  rewrite is_empty_false by done.
  rewrite bool_decide_eq_false_2 by done.
  rewrite Hget, He. cbn [App.tree].
  by rewrite (proj2 (insert_None _ _) (or_intror Hrow)).
Qed.

Lemma add_stock_failure self w sd w' :
  entered self <> EmptyString ->
  entered self ∉ App.watchlist self ->
  App.get_stock_data (App.stock_data self) w (entered self) "5d"
  = (None, sd, w') ->
  App.add_stock self w
  = ({| App.watchlist := App.watchlist self;
        App.watchlist_file := App.watchlist_file self;
        App.stock_data := sd; App.symbol_entry := App.symbol_entry self;
        App.tree := App.tree self; App.status_label := "Ready";
        App.dialogs := App.dialogs self ++
          [App.ShowError "Invalid Symbol"
             ("Could not find data for " +:+ entered self)] |}, w', Tk.Finished).
Proof.
  intros Hne Hin Hget. unfold App.add_stock. fold (entered self).
  rewrite is_empty_false by done.
  rewrite bool_decide_eq_false_2 by done.
  by rewrite Hget.
Qed.

Lemma is_empty_true (s : string) : App.is_empty s = true <-> s = EmptyString.
Proof. destruct s; cbn; split; congruence. Qed.

(** The watchlist and the table after [add_stock], when the symbol is
    no row of the table unless the watchlist lists it: as before, or
    with the entered symbol at the end of both; nothing is raised. *)
Lemma add_stock_cases self w :
  (forall symbol, symbol ∈ App.tree self -> symbol ∈ App.watchlist self) ->
  (App.add_stock self w).2 = Tk.Finished
  /\ ((App.watchlist (App.add_stock self w).1.1 = App.watchlist self
       /\ App.tree (App.add_stock self w).1.1 = App.tree self)
      \/ (entered self <> EmptyString
          /\ (entered self ∉ App.watchlist self)
          /\ App.watchlist (App.add_stock self w).1.1
             = App.watchlist self ++ [entered self]
          /\ App.tree (App.add_stock self w).1.1 = App.tree self ++ [entered self])).
Proof.
  intros Hrows.
  destruct (decide (entered self = EmptyString)) as [He|He].
  { unfold App.add_stock. fold (entered self).
    rewrite (proj2 (is_empty_true _) He). split; [done | by left]. }
  destruct (decide (entered self ∈ App.watchlist self)) as [Hin|Hin].
  { rewrite add_stock_present by done. split; [done | by left]. }
  destruct (App.get_stock_data (App.stock_data self) w (entered self) "5d")
    as [[[data|] sd] w'] eqn:Hget.
  - destruct (empty data) eqn:Hd.
    + unfold App.add_stock. fold (entered self).
      rewrite is_empty_false, bool_decide_eq_false_2 by done.
      rewrite Hget, Hd. split; [done | by left].
    + rewrite (add_stock_success self w data sd w') by (done || naive_solver).
      split; [done | by right].
  - rewrite (add_stock_failure self w sd w') by done. split; [done | by left].
Qed.

End AddStock.

(** X12.  For an entry whose capitals are modelled: when the entered
    symbol is new and its validation fetch fails, [add_stock] shows the
    "Invalid Symbol" error and adds nothing: watchlist, table, cache,
    entry text and files are as before, one request has been sent, and
    nothing is raised. *)
Theorem add_stock_invalid (self : App.UltimateRSITracker) (w : World) :
  Str.upper_in_range (App.symbol_entry self) = true ->
  entered self <> EmptyString ->
  entered self ∉ App.watchlist self ->
  App.cached (App.stock_data self) (App.cache_key (entered self) "5d") (now w) = None ->
  (yahoo w (entered self) "5d" = Raises
   \/ exists data, yahoo w (entered self) "5d" = Returns data /\ empty data = true) ->
  let after := (App.add_stock self w).1.1 in
  App.watchlist after = App.watchlist self
  /\ App.tree after = App.tree self
  /\ App.stock_data after = App.stock_data self
  /\ App.symbol_entry after = App.symbol_entry self
  /\ App.dialogs after
     = App.dialogs self ++
       [App.ShowError "Invalid Symbol" ("Could not find data for " +:+ entered self)]
  /\ (App.add_stock self w).1.2 = log_request w (entered self) "5d"
  /\ (App.add_stock self w).2 = Tk.Finished.
Proof.
  intros _ Hne Hin Hmiss Hfail.
  rewrite (add_stock_failure self w (App.stock_data self)
             (log_request w (entered self) "5d")); try done.
  by apply get_stock_data_fail.
Qed.

Lemma add_stock_invalid_witness :
  let self := App.type_symbol App.new_tracker "zzzz" in
  App.watchlist (App.add_stock self (sample_world 1000)).1.1 = []
  /\ App.dialogs (App.add_stock self (sample_world 1000)).1.1
     = [App.ShowError "Invalid Symbol" "Could not find data for ZZZZ"].
Proof.
  intros self.
  destruct (add_stock_invalid self (sample_world 1000))
    as (Hw & _ & _ & _ & Hd & _).
  - reflexivity.
  - discriminate.
  - apply not_elem_of_nil.
  - reflexivity.
  - left. reflexivity.
  - split; [exact Hw | exact Hd].
Defined.

(** X13.  For an entry whose capitals are modelled: when the entered
    symbol is new, in the watchlist and in the table, and its
    validation returns data, [add_stock] puts the symbol at the end of
    the watchlist and of the table, clears the entry, raises nothing
    and, the file being writable, leaves a watchlist file from which
    [load_watchlist] reads the new watchlist.  When the symbol is
    already a row of the table, the watchlist is extended and saved all
    the same, the table stays as it is and [tree.insert] raises
    [TclError]. *)
Theorem add_stock_persists (self other : App.UltimateRSITracker) (w : World)
    (data : DataFrame) (sd : App.StockData) (w' : World) :
  Str.upper_in_range (App.symbol_entry self) = true ->
  entered self <> EmptyString ->
  entered self ∉ App.watchlist self ->
  App.get_stock_data (App.stock_data self) w (entered self) "5d"
  = (Some data, sd, w') ->
  empty data = false ->
  io_error w = false ->
  App.watchlist_file other = App.watchlist_file self ->
  let after := App.add_stock self w in
  App.watchlist after.1.1 = App.watchlist self ++ [entered self]
  /\ App.symbol_entry after.1.1 = EmptyString
  /\ (exists loaded,
        App.load_watchlist other after.1.2 = Some loaded
        /\ App.watchlist loaded = App.watchlist self ++ [entered self])
  /\ (entered self ∉ App.tree self ->
      after.2 = Tk.Finished
      /\ App.tree after.1.1 = App.tree self ++ [entered self])
  /\ (entered self ∈ App.tree self ->
      after.2 = Tk.TclError
      /\ App.tree after.1.1 = App.tree self).
Proof.
  intros _ Hne Hin Hget He Hio Hfile.
  destruct (get_stock_data_io (App.stock_data self) w (entered self) "5d")
    as [Hio' _].
  rewrite Hget in Hio'. cbn in Hio'.
  assert (Hload : forall added,
    App.watchlist added = App.watchlist self ++ [entered self] ->
    App.watchlist_file added = App.watchlist_file self ->
    exists loaded,
      App.load_watchlist other (App.save_watchlist added w') = Some loaded
      /\ App.watchlist loaded = App.watchlist self ++ [entered self]).
  { intros added Hw Hf. unfold App.load_watchlist, App.save_watchlist.
    rewrite Hio', Hio. cbn [write_file files io_error].
    rewrite Hio', Hio, Hfile, Hf, Hw.
    rewrite lookup_insert_eq, loads_dumps. by eexists. }
  destruct (decide (entered self ∈ App.tree self)) as [Hrow|Hrow].
  - rewrite (add_stock_row self w data sd w') by done. cbn [fst snd].
    split; [done|]. split; [done|]. split; [by apply Hload|].
    split; [done|]. by intros _.
  - rewrite (add_stock_success self w data sd w') by done. cbn [fst snd].
    split; [done|]. split; [done|]. split; [by apply Hload|].
    split; [by intros _|]. done.
Qed.

Lemma add_stock_persists_witness :
  let self := App.type_symbol (App.set_watchlist App.new_tracker ["MSFT"]) "aapl" in
  exists loaded,
    App.load_watchlist App.new_tracker (App.add_stock self (sample_world 1000)).1.2
    = Some loaded
    /\ App.watchlist loaded = ["MSFT"; "AAPL"].
Proof.
  intros self.
  destruct (add_stock_persists self App.new_tracker (sample_world 1000)
              [sample_bar]
              (App.get_stock_data App.new_stock_data (sample_world 1000) "AAPL" "5d").1.2
              (log_request (sample_world 1000) "AAPL" "5d"))
    as (_ & _ & H & _).
  - reflexivity.
  - discriminate.
  - cbn. intros H. apply list_elem_of_singleton in H. discriminate H.
  - reflexivity.
  - reflexivity.
  - reflexivity.
  - reflexivity.
  - exact H.
Defined.

Section Remove.

Implicit Types (self : App.UltimateRSITracker) (w : World).

Lemma list_remove_None (x : string) (l : list string) :
  Watch.list_remove x l = None <-> x ∉ l.
Proof.
  induction l as [|y l IH]; cbn.
  - split; [intros _; apply not_elem_of_nil | done].
  - rewrite not_elem_of_cons. case_bool_decide as Hxy.
    + split; [done | by intros [? _]].
    + destruct (Watch.list_remove x l); cbn.
      * split; [done|]. intros [_ H]. by apply IH in H.
      * split; [|done]. intros _. split; [done | by apply IH].
Qed.

Lemma filter_all (P : string -> Prop) `{forall x, Decision (P x)} (l : list string) :
  Forall P l -> filter P l = l.
Proof.
  induction 1 as [|y l Hy _ IH]; [done|].
  rewrite filter_cons. destruct (decide (P y)); [|done]. by rewrite IH.
Qed.

(** In a list without repetition, [remove] leaves the other elements,
    in their order. *)
Lemma list_remove_NoDup (x : string) (l l' : list string) :
  NoDup l -> Watch.list_remove x l = Some l' ->
  l' = filter (fun y => y <> x) l.
Proof.
  intros Hnd. revert l'. induction Hnd as [|y l Hy Hnd IH]; intros l'; [done|].
  cbn [Watch.list_remove]. case_bool_decide as Hxy.
  - intros [= <-]. subst y.
    rewrite filter_cons. destruct (decide (x <> x)) as [H|_]; [done|].
    symmetry. apply filter_all, Forall_forall. intros z Hz ->. done.
  - destruct (Watch.list_remove x l) as [l''|] eqn:Hr; [|done].
    cbn [fmap option_fmap option_map]. intros [= <-]. rewrite filter_cons.
    destruct (decide (y <> x)) as [_|H]; [|by destruct H].
    f_equal. by apply IH.
Qed.

Lemma list_remove_snoc (x : string) (l : list string) :
  x ∉ l -> Watch.list_remove x (l ++ [x]) = Some l.
Proof.
  induction l as [|y l IH]; intros Hx.
  - cbn. by rewrite bool_decide_eq_true_2.
  - apply not_elem_of_cons in Hx as [Hxy Hx]. cbn.
    rewrite bool_decide_eq_false_2 by done. by rewrite IH.
Qed.

Lemma remove_stock_confirmed self w symbol rest l :
  App.tree self = App.watchlist self ->
  Watch.list_remove symbol (App.watchlist self) = Some l ->
  Watch.remove_stock self w (symbol :: rest) true
  = (Watch.set_status (Watch.set_tree (App.set_watchlist self l) l)
       ("Removed " +:+ symbol +:+ " from watchlist"),
     App.save_watchlist (Watch.set_tree (App.set_watchlist self l) l) w,
     Watch.Finished).
Proof.
  intros Htree Hl. unfold Watch.remove_stock. rewrite Hl.
  cbn [App.set_watchlist App.tree]. by rewrite Htree, Hl.
Qed.

End Remove.

(** X14.  On a tracker whose table shows a watchlist without
    repetition, removing a selected symbol, once confirmed, takes the
    symbol out of the watchlist and of the table and keeps the others
    in their order; the file being writable, [load_watchlist] then
    reads the shortened list. *)
Theorem remove_stock_removes (self other : App.UltimateRSITracker) (w : World)
    (symbol : string) (rest : list string) :
  Shape.consistent self ->
  symbol ∈ App.watchlist self ->
  io_error w = false ->
  App.watchlist_file other = App.watchlist_file self ->
  let result := Watch.remove_stock self w (symbol :: rest) true in
  result.2 = Watch.Finished
  /\ App.watchlist result.1.1 = filter (fun y => y <> symbol) (App.watchlist self)
  /\ (symbol ∉ App.watchlist result.1.1)
  /\ App.tree result.1.1 = App.watchlist result.1.1
  /\ exists loaded,
       App.load_watchlist other result.1.2 = Some loaded
       /\ App.watchlist loaded = App.watchlist result.1.1.
Proof.
  intros [Htree Hnd] Hin Hio Hfile.
  destruct (Watch.list_remove symbol (App.watchlist self)) as [l|] eqn:Hl.
  2: { apply list_remove_None in Hl. done. }
  rewrite (remove_stock_confirmed self w symbol rest l Htree Hl). cbn [fst snd].
  pose proof (list_remove_NoDup _ _ _ Hnd Hl) as ->.
  split; [done|]. split; [done|]. split.
  { intros H. apply list_elem_of_filter in H as [H _]. by apply H. }
  split; [done|].
  unfold App.load_watchlist, App.save_watchlist. rewrite Hio.
  cbn [write_file files io_error App.watchlist_file App.watchlist
       Watch.set_tree App.set_watchlist].
  rewrite Hio, Hfile, lookup_insert_eq, loads_dumps. by eexists.
Qed.

Lemma remove_stock_removes_witness :
  let self :=
    Watch.set_tree (App.set_watchlist App.new_tracker ["AAPL"; "MSFT"; "TSLA"])
                   ["AAPL"; "MSFT"; "TSLA"] in
  App.watchlist (Watch.remove_stock self (sample_world 1000) ["MSFT"] true).1.1
  = ["AAPL"; "TSLA"].
Proof.
  intros self.
  destruct (remove_stock_removes self App.new_tracker (sample_world 1000) "MSFT" [])
    as (_ & H & _).
  - split; [reflexivity|]. apply (bool_decide_unpack _). vm_compute. exact I.
  - apply (bool_decide_unpack _). vm_compute. exact I.
  - reflexivity.
  - reflexivity.
  - rewrite H. reflexivity.
Defined.

(** X15.  [remove_stock] leaves watchlist, table and world as they are
    when nothing is selected, when the user does not confirm, and when
    the selected symbol is not in the watchlist; in the last case
    [list.remove] raises [ValueError]. *)
Theorem remove_stock_unchanged (self : App.UltimateRSITracker) (w : World)
    (selected : list string) (confirm : bool) :
  (selected = [] \/ confirm = false
   \/ exists symbol rest, selected = symbol :: rest
                          /\ symbol ∉ App.watchlist self) ->
  let result := Watch.remove_stock self w selected confirm in
  App.watchlist result.1.1 = App.watchlist self
  /\ App.tree result.1.1 = App.tree self
  /\ result.1.2 = w
  /\ (confirm = true -> selected <> [] -> result.2 = Watch.ValueError).
Proof.
  intros [->|[->|(symbol & rest & -> & Hin)]]; cbn zeta.
  - cbn. by repeat split.
  - destruct selected; cbn; by repeat split.
  - unfold Watch.remove_stock. destruct confirm; [|by repeat split].
    rewrite (proj2 (list_remove_None _ _) Hin). by repeat split.
Qed.

Lemma remove_stock_unchanged_witness :
  (Watch.remove_stock (App.set_watchlist App.new_tracker ["AAPL"])
     (sample_world 1000) ["MSFT"] true).2
  = Watch.ValueError.
Proof.
  destruct (remove_stock_unchanged (App.set_watchlist App.new_tracker ["AAPL"])
              (sample_world 1000) ["MSFT"] true) as (_ & _ & _ & H).
  - right. right. exists "MSFT", []. split; [reflexivity|].
    apply (bool_decide_unpack _). vm_compute. exact I.
  - apply H; [reflexivity | discriminate].
Defined.

(** X16.  For an entry whose capitals are modelled, on a tracker whose
    table shows a watchlist without repetition: adding a new symbol and
    then removing its row gives back the watchlist and the table there
    were before, and neither step raises. *)
Theorem add_then_remove (self : App.UltimateRSITracker) (w w2 : World)
    (data : DataFrame) (sd : App.StockData) (w' : World) (rest : list string) :
  Shape.consistent self ->
  Str.upper_in_range (App.symbol_entry self) = true ->
  entered self <> EmptyString ->
  entered self ∉ App.watchlist self ->
  App.get_stock_data (App.stock_data self) w (entered self) "5d"
  = (Some data, sd, w') ->
  empty data = false ->
  let added := App.add_stock self w in
  let result := Watch.remove_stock added.1.1 w2 (entered self :: rest) true in
  added.2 = Tk.Finished
  /\ result.2 = Watch.Finished
  /\ App.watchlist result.1.1 = App.watchlist self
  /\ App.tree result.1.1 = App.tree self.
Proof.
  intros [Htree Hnd] _ Hne Hin Hget He.
  rewrite (add_stock_success self w data sd w') by (done || by rewrite Htree).
  cbn [fst snd]. split; [done|].
  rewrite (remove_stock_confirmed _ w2 (entered self) rest (App.watchlist self)).
  - cbn. by rewrite Htree.
  - cbn. by rewrite Htree.
  - cbn. by apply list_remove_snoc.
Qed.

Lemma add_then_remove_witness :
  let self := App.type_symbol App.new_tracker "aapl" in
  App.watchlist
    (Watch.remove_stock (App.add_stock self (sample_world 1000)).1.1
       (sample_world 1010) ["AAPL"] true).1.1
  = [].
Proof.
  intros self.
  destruct (add_then_remove self (sample_world 1000) (sample_world 1010)
              [sample_bar]
              (App.get_stock_data App.new_stock_data (sample_world 1000) "AAPL" "5d").1.2
              (log_request (sample_world 1000) "AAPL" "5d") [])
    as (_ & _ & H & _).
  - split; [reflexivity | constructor].
  - reflexivity.
  - discriminate.
  - apply not_elem_of_nil.
  - reflexivity.
  - reflexivity.
  - exact H.
Defined.

Section Bulk.

Implicit Types (self : App.UltimateRSITracker) (w : World).

(** The loop over the symbols, none of them empty: under a table that
    shows a watchlist without repetition nothing is raised, and the
    symbols that were not listed yet are appended once each, in the
    order of their first occurrence. *)
Lemma add_each_spec (symbols : list string) self (n : nat) :
  Forall (fun symbol => symbol <> EmptyString) symbols ->
  Shape.consistent self ->
  exists fresh,
    (Watch.add_each symbols self n).2 = Watch.Finished
    /\ (Watch.add_each symbols self n).1.2 = (n + length fresh)%nat
    /\ App.watchlist (Watch.add_each symbols self n).1.1 = App.watchlist self ++ fresh
    /\ Shape.consistent (Watch.add_each symbols self n).1.1
    /\ Shape.same_settings self (Watch.add_each symbols self n).1.1
    /\ (forall x, x ∈ fresh <-> x ∈ symbols /\ x ∉ App.watchlist self)
    /\ fresh `sublist_of` symbols.
Proof.
  revert self n. induction symbols as [|symbol rest IH];
    intros self n Hsym [Htree Hnd].
  - exists []. cbn. rewrite app_nil_r.
    split; [done|]. split; [lia|]. split; [done|]. split; [done|].
    split; [done|]. split; [|done].
    intros x. split.
    + intros Hx. by apply elem_of_nil in Hx.
    + intros [Hx _]. by apply elem_of_nil in Hx.
  - apply Forall_cons in Hsym as [Hne Hsym].
    cbn [Watch.add_each]. case_bool_decide as Hin.
    + destruct (IH self n Hsym (conj Htree Hnd))
        as (fresh & H1 & H2 & H3 & H4 & H5 & H6 & H7).
      exists fresh.
      split; [done|]. split; [done|]. split; [done|]. split; [done|].
      split; [done|]. split; [|by apply sublist_cons].
      intros x. rewrite H6, elem_of_cons. split.
      * intros [Hx Hnx]. split; [by right | done].
      * intros [[->|Hx] Hnx]; done.
    + cbn [App.set_watchlist App.tree]. rewrite Htree.
      rewrite insert_new by done.
      set (self2 := Watch.set_tree _ _).
      assert (Hc2 : Shape.consistent self2).
      { split; [done|]. cbn. apply NoDup_app. split; [done|].
        split; [|apply NoDup_singleton].
        intros x Hx Hx'. apply list_elem_of_singleton in Hx'. by subst. }
      destruct (IH self2 (S n) Hsym Hc2)
        as (fresh & H1 & H2 & H3 & H4 & H5 & H6 & H7).
      exists (symbol :: fresh). cbn [length].
      split; [done|]. split; [rewrite H2; lia|].
      split; [rewrite H3; cbn; by rewrite <- app_assoc|].
      split; [done|]. split; [exact H5|]. split.
      * intros x. rewrite elem_of_cons, H6. cbn.
        rewrite elem_of_app, list_elem_of_singleton, elem_of_cons.
        split.
        -- intros [->|[Hx Hnx]]; [by split; [left|]|].
           split; [by right|]. intros Hw. apply Hnx. by left.
        -- intros [[->|Hx] Hnx]; [by left|].
           destruct (decide (x = symbol)) as [->|Hne']; [by left|].
           right. split; [done|]. by intros [?|?].
      * by apply sublist_skip.
Qed.

Lemma upper_char_cons (c : ascii) :
  exists d rest, Str.upper_char c = String d rest.
Proof.
  unfold Str.upper_char. destruct (_ || _)%bool; [by eexists _, _|].
  destruct (_ =? _)%N; by eexists _, _.
Qed.

Lemma upper_empty (s : string) : Str.upper s = EmptyString <-> s = EmptyString.
Proof.
  destruct s as [|c s]; [done|]. split; [|done]. cbn [Str.upper].
  destruct (upper_char_cons c) as (d & rest & ->).
  by rewrite string_app_cons.
Qed.

(** The symbols read from the text of the dialog are the capital forms
    of stripped lines of 1 to 5 characters. *)
Lemma bulk_symbols_spec (content : string) :
  Forall (fun symbol =>
            symbol <> EmptyString
            /\ exists line, Shape.short_symbol line /\ symbol = Str.upper line)
         (Watch.bulk_symbols content).
Proof.
  unfold Watch.bulk_symbols. apply Forall_fmap, Forall_forall.
  intros line Hline. apply list_elem_of_filter in Hline as [[Hne Hlen] _].
  split; cbn.
  - by rewrite upper_empty.
  - by exists (Str.strip line).
Qed.

End Bulk.



Section Sessions.

Implicit Types (self : App.UltimateRSITracker) (w : World).

Lemma selection_rows self (positions : list nat) (symbol : string) :
  symbol ∈ Session.selection self positions -> symbol ∈ App.tree self.
Proof.
  unfold Session.selection. intros Hin.
  apply list_elem_of_omap in Hin as (i & _ & Hi).
  by eapply list_elem_of_lookup_2.
Qed.

(** One action keeps the table and the watchlist in step, and raises
    nothing. *)
Lemma perform_invariant (a : Session.action) self w :
  Shape.consistent self ->
  (Session.perform a self w).2 = Tk.Finished
  /\ Shape.consistent (Session.perform a self w).1.1.
Proof.
  intros [Htree Hnd]. destruct a as [text|positions confirm|text|later]; cbn.
  - destruct (add_stock_cases (App.type_symbol self text) w)
      as [Hout [[Hw Ht]|(Hne & Hin & Hw & Ht)]].
    { cbn. intros symbol. by rewrite Htree. }
    + split; [done|]. cbn in Hw, Ht. split; [congruence|]. by rewrite Hw.
    + split; [done|]. cbn in Hw, Ht. split; [congruence|].
      rewrite Hw. apply NoDup_app. split; [done|].
      split; [|apply NoDup_singleton].
      intros x Hx Hx'. apply list_elem_of_singleton in Hx'. by subst.
  - pose proof (selection_rows self positions) as Hsel.
    destruct (Session.selection self positions) as [|symbol rest]; [by split|].
    destruct confirm; [|by split].
    assert (Hin : symbol ∈ App.watchlist self).
    { rewrite <- Htree. apply Hsel, list_elem_of_here. }
    destruct (Watch.list_remove symbol (App.watchlist self)) as [l|] eqn:Hl.
    2: { apply list_remove_None in Hl. done. }
    rewrite (remove_stock_confirmed self w symbol rest l Htree Hl). cbn.
    split; [done|]. split; [done|].
    rewrite (list_remove_NoDup _ _ _ Hnd Hl). by apply NoDup_filter.
  - unfold Watch.add_symbols.
    destruct (App.is_empty (Str.strip text)); [by split|].
    pose proof (bulk_symbols_spec (Str.strip text)) as Hspec.
    assert (Hsym : Forall (fun symbol => symbol <> EmptyString)
                     (Watch.bulk_symbols (Str.strip text))).
    { eapply Forall_impl; [exact Hspec|]. by intros x [Hx _]. }
    destruct (add_each_spec (Watch.bulk_symbols (Str.strip text)) self 0
                Hsym (conj Htree Hnd)) as (fresh & H1 & _ & _ & H4 & _).
    destruct (Watch.bulk_symbols (Str.strip text)) as [|s0 rest]; [by split|].
    destruct (Watch.add_each (s0 :: rest) self 0) as [[after n] out].
    cbn in H1, H4. subst out. by split.
  - by split.
Qed.

End Sessions.

(** X18.  The table shows the watchlist, and no symbol is listed
    twice: this is kept through every sequence of actions of the user
    (entering a symbol, removing selected rows, adding symbols in bulk,
    with texts whose capitals are modelled), whatever the remote source
    answers and however the world changes in between; and none of the
    actions of such a sequence raises. *)
Theorem session_invariant (actions : list Session.action)
    (self : App.UltimateRSITracker) (w : World) :
  Shape.consistent self ->
  forallb Session.in_range actions = true ->
  let result := Session.run actions self w in
  Shape.consistent result.1.1
  /\ length result.2 = length actions
  /\ Forall (fun out => out = Tk.Finished) result.2.
Proof.
  intros Hc _. revert self w Hc.
  induction actions as [|a rest IH]; intros self w Hc; [by cbn|].
  cbn [Session.run].
  destruct (perform_invariant a self w Hc) as [Hout Hc'].
  destruct (Session.perform a self w) as [[self' w'] out]. cbn in Hout, Hc'.
  specialize (IH self' w' Hc').
  destruct (Session.run rest self' w') as [[self2 w2] outs].
  cbn in IH |- *. destruct IH as (H1 & H2 & H3).
  split; [done|]. split; [by rewrite H2|]. by constructor.
Qed.

Lemma session_invariant_witness :
  let actions :=
    [Session.Enter "aapl"; Session.Bulk "msft"; Session.Enter " AAPL ";
     Session.Remove [0%nat] true; Session.Enter "zzzz"] in
  let result := Session.run actions App.new_tracker (sample_world 1000) in
  Shape.consistent result.1.1
  /\ length result.2 = 5%nat
  /\ Forall (fun out => out = Tk.Finished) result.2.
Proof.
  intros actions.
  apply (session_invariant actions App.new_tracker (sample_world 1000)).
  - split; [reflexivity | constructor].
  - reflexivity.
Defined.

Section Populate.

Lemma populate_spec (symbols rows : list string) :
  Forall (fun symbol => symbol <> EmptyString) symbols ->
  (NoDup (rows ++ symbols) ->
   Watch.populate_initial_data symbols rows = (rows ++ symbols, Watch.Finished))
  /\ (NoDup rows -> ~ NoDup (rows ++ symbols) ->
      (Watch.populate_initial_data symbols rows).2 = Watch.TclError).
Proof.
  revert rows. induction symbols as [|symbol rest IH]; intros rows Hsym.
  - cbn. rewrite app_nil_r. split; [done|]. intros H1 H2. done.
  - apply Forall_cons in Hsym as [Hne Hsym].
    cbn [Watch.populate_initial_data].
    replace (rows ++ symbol :: rest) with ((rows ++ [symbol]) ++ rest)
      by (by rewrite <- app_assoc).
    destruct (decide (symbol ∈ rows)) as [Hin|Hin].
    + rewrite (proj2 (insert_None _ _) (or_intror Hin)).
      split; [|done]. intros Hnd. apply NoDup_app in Hnd as [Hnd _].
      apply NoDup_app in Hnd as (_ & Hdisj & _).
      exfalso. apply (Hdisj symbol Hin). apply list_elem_of_here.
    + rewrite insert_new by done.
      destruct (IH (rows ++ [symbol]) Hsym) as [IH1 IH2]. split; [done|].
      intros Hnd Hdup. apply IH2; [|done].
      apply NoDup_app. split; [done|]. split; [|apply NoDup_singleton].
      intros x Hx Hx'. apply list_elem_of_singleton in Hx'. by subst.
Qed.

End Populate.

(** X19.  For a loaded watchlist without an empty symbol:
    [populate_initial_data] fills the empty table with one row per
    symbol when no symbol is listed twice, and a repeated symbol makes
    [tree.insert] raise [TclError]. *)
Theorem populate_initial_data_unique (symbols : list string) :
  Forall (fun symbol => symbol <> EmptyString) symbols ->
  (NoDup symbols ->
   Watch.populate_initial_data symbols [] = (symbols, Watch.Finished))
  /\ (~ NoDup symbols ->
      (Watch.populate_initial_data symbols []).2 = Watch.TclError).
Proof.
  intros Hsym. destruct (populate_spec symbols [] Hsym) as [H1 H2]. split.
  - exact H1.
  - intros Hdup. apply H2; [constructor | done].
Qed.

Lemma populate_initial_data_unique_witness :
  Watch.populate_initial_data ["AAPL"; "MSFT"] [] = (["AAPL"; "MSFT"], Watch.Finished)
  /\ (Watch.populate_initial_data ["AAPL"; "MSFT"; "AAPL"] []).2 = Watch.TclError.
Proof.
  split.
  - apply (populate_initial_data_unique ["AAPL"; "MSFT"]).
    + repeat constructor; discriminate.
    + apply (bool_decide_unpack _). vm_compute. exact I.
  - apply (populate_initial_data_unique ["AAPL"; "MSFT"; "AAPL"]).
    + repeat constructor; discriminate.
    + apply (bool_decide_unpack _). vm_compute. exact I.
Defined.

(** * Further properties of the watchlist file *)

Section JsonMore.

Lemma scan_value_not_parsed (acc : list string) (c : ascii) (l : list string) :
  Json.scan_value acc c <> inr (Json.Parsed l).
Proof.
  unfold Json.scan_value. repeat case_match; discriminate.
Qed.

(** The decoder accepts a text at its end only. *)
Lemma step_not_parsed (st : Json.state) (c : ascii) (l : list string) :
  Json.step st c <> inr (Json.Parsed l).
Proof.
  destruct st; cbn [Json.step]; repeat case_match; try discriminate;
    try apply scan_value_not_parsed.
  all: match goal with
       | H : Json.scan_value _ _ = _ |- _ =>
           intros Heq; rewrite Heq in H; by apply scan_value_not_parsed in H
       end.
Qed.

Lemma run_done_blank (acc l : list string) (s : string) :
  Json.run (Json.Done acc) s = Json.Parsed l ->
  Shape.all_chars Json.is_ws s = true.
Proof.
  induction s as [|c s IH]; [done|]. cbn.
  destruct (Json.is_ws c); [|done]. exact IH.
Qed.

(** A text cut before its last significant character is malformed. *)
Lemma run_prefix (prefix rest : string) (st : Json.state) (l : list string) :
  Json.run st (prefix +:+ rest) = Json.Parsed l ->
  Shape.all_chars Json.is_ws rest = false ->
  Json.run st prefix = Json.Malformed.
Proof.
  revert st. induction prefix as [|c p IH]; intros st Hrun Hrest.
  - change (EmptyString +:+ rest) with rest in Hrun.
    destruct st; try reflexivity.
    apply run_done_blank in Hrun. congruence.
  - rewrite string_app_cons in Hrun. cbn [Json.run] in Hrun |- *.
    destruct (Json.step st c) as [st'|r] eqn:Hstep.
    + by apply IH.
    + subst r. by apply step_not_parsed in Hstep.
Qed.

Lemma not_blank_bracket (a : string) :
  Shape.all_chars Json.is_ws (a +:+ String "]" EmptyString) = false.
Proof.
  induction a as [|c a IH]; [done|].
  rewrite string_app_cons. cbn [Shape.all_chars]. rewrite IH.
  apply andb_false_r.
Qed.

Lemma suffix_not_blank (a prefix rest : string) :
  a +:+ String "]" EmptyString = prefix +:+ rest ->
  rest <> EmptyString ->
  Shape.all_chars Json.is_ws rest = false.
Proof.
  revert prefix. induction a as [|x a IH]; intros [|c p] Heq Hne.
  - change (EmptyString +:+ rest) with rest in Heq. by subst rest.
  - rewrite string_app_cons in Heq. injection Heq as _ Heq.
    destruct p; [|done]. change (EmptyString +:+ rest) with rest in Heq. done.
  - change (EmptyString +:+ rest) with rest in Heq. subst rest.
    apply (not_blank_bracket (String x a)).
  - rewrite !string_app_cons in Heq. injection Heq as _ Heq. by eapply IH.
Qed.

Lemma all_chars_app (P : ascii -> bool) (a b : string) :
  Shape.all_chars P (a +:+ b) = Shape.all_chars P a && Shape.all_chars P b.
Proof.
  induction a as [|c a IH]; [done|].
  rewrite string_app_cons. cbn [Shape.all_chars]. rewrite IH.
  by rewrite andb_assoc.
Qed.

Lemma encode_char_printable (c : ascii) :
  Shape.all_chars Shape.printable (Json.encode_char c) = true.
Proof. destruct c as [[] [] [] [] [] [] [] []]; reflexivity. Qed.

Lemma encode_string_printable (s : string) :
  Shape.all_chars Shape.printable (Json.encode_string s) = true.
Proof.
  unfold Json.encode_string. cbn [Shape.all_chars].
  rewrite all_chars_app. cbn [Shape.all_chars].
  replace (Shape.all_chars Shape.printable (Json.encode_chars s)) with true;
    [reflexivity|].
  symmetry. induction s as [|c s IH]; [done|].
  cbn [Json.encode_chars]. by rewrite all_chars_app, encode_char_printable, IH.
Qed.

End JsonMore.

(** X20.  A watchlist file cut short, holding a text that stops before
    the end of what [save_watchlist] writes, is read by
    [load_watchlist] as an empty watchlist. *)
Theorem truncated_watchlist_file (self : App.UltimateRSITracker) (w : World)
    (l : list string) (prefix rest : string) :
  Json.dumps l = prefix +:+ rest ->
  rest <> EmptyString ->
  files w !! App.watchlist_file self = Some prefix ->
  Json.loads prefix = Json.Malformed
  /\ App.load_watchlist self w = Some (App.set_watchlist self []).
Proof.
  intros Hcut Hrest Hfile.
  assert (Hmal : Json.loads prefix = Json.Malformed).
  { unfold Json.loads. apply (run_prefix prefix rest _ l).
    - rewrite <- Hcut. apply loads_dumps.
    - apply (suffix_not_blank (String "[" (Json.encode_items l)) prefix); [|done].
      rewrite <- Hcut. reflexivity. }
  split; [done|].
  unfold App.load_watchlist. rewrite Hfile, Hmal. by destruct (io_error w).
Qed.

Lemma truncated_watchlist_file_witness :
  App.load_watchlist App.new_tracker
    (write_file (sample_world 1000) "watchlist.json"
       (String "[" (String Json.quote "AAPL")))
  = Some (App.set_watchlist App.new_tracker []).
Proof.
  apply (truncated_watchlist_file App.new_tracker _ ["AAPL"; "MSFT"]
           (String "[" (String Json.quote "AAPL"))
           (String Json.quote (String "," (String " " (String Json.quote
              ("MSFT" +:+ String Json.quote "]")))))).
  - reflexivity.
  - discriminate.
  - reflexivity.
Defined.

(** X21.  The text [save_watchlist] writes holds printable ASCII
    characters only, whatever the symbols: every other character is
    escaped. *)
Theorem dumps_printable (l : list string) :
  Shape.all_chars Shape.printable (Json.dumps l) = true.
Proof.
  unfold Json.dumps. cbn [Shape.all_chars]. rewrite all_chars_app.
  replace (Shape.all_chars Shape.printable (Json.encode_items l)) with true;
    [reflexivity|].
  symmetry. induction l as [|x l IH]; [done|].
  destruct l as [|y l].
  - apply encode_string_printable.
  - rewrite encode_items_cons, all_chars_app, encode_string_printable.
    cbn [Shape.all_chars]. by rewrite IH.
Qed.

(** * Properties of the portfolio import *)

(** X22.  Whatever order [list(set(...))] produces, as long as it lists
    each distinct symbol once, and for a file whose capitals are
    modelled: [import_from_text] returns no symbol twice, and it returns
    exactly the capital forms of the stripped lines of a readable file
    that are, as capitals, non-empty and at most 5 characters long; a
    missing or unreadable file gives no symbol. *)
Theorem import_from_text_symbols (list_of_set : list string -> list string)
    (file_path : string) (w : World) :
  (forall l, NoDup (list_of_set l)) ->
  (forall l x, x ∈ list_of_set l <-> x ∈ l) ->
  (forall content,
     files w !! file_path = Some content -> Str.upper_in_range content = true) ->
  let result := Importer.import_from_text list_of_set file_path w in
  NoDup result
  /\ Forall Shape.short_symbol result
  /\ (forall x,
        x ∈ result
        <-> Shape.short_symbol x
            /\ exists content line,
                 files w !! file_path = Some content
                 /\ io_error w = false
                 /\ line ∈ Text.file_lines content
                 /\ x = Str.upper (Str.strip line)).
Proof.
  intros Hnd Hset _ result. subst result. unfold Importer.import_from_text.
  assert (Hiff : forall x,
    x ∈ list_of_set
          match files w !! file_path with
          | Some content =>
              if io_error w then []
              else filter (fun symbol => symbol <> EmptyString
                                         /\ (String.length symbol <= 5)%nat)
                     ((fun line => Str.upper (Str.strip line))
                      <$> Text.file_lines content)
          | None => []
          end
    <-> Shape.short_symbol x
        /\ exists content line,
             files w !! file_path = Some content
             /\ io_error w = false
             /\ line ∈ Text.file_lines content
             /\ x = Str.upper (Str.strip line)).
  { intros x. rewrite Hset.
    destruct (files w !! file_path) as [content|].
    - destruct (io_error w).
      + split; [intros H; by apply elem_of_nil in H|].
        intros (_ & ? & ? & _ & ? & _). done.
      + rewrite list_elem_of_filter, list_elem_of_fmap. split.
        * intros [Hshort (line & -> & Hline)]. split; [done|]. by exists content, line.
        * intros [Hshort (c & line & [= <-] & _ & Hline & ->)].
          split; [done|]. by exists line.
    - split; [intros H; by apply elem_of_nil in H|].
      intros (_ & ? & ? & ? & _). done. }
  split; [apply Hnd|]. split; [|exact Hiff].
  apply Forall_forall. intros x Hx. by apply Hiff in Hx as [? _].
Qed.

Lemma import_from_text_symbols_witness :
  let w := write_file (sample_world 1000) "portfolio.txt"
             ("aapl" +:+ Watch.newline +:+ " msft " +:+ Watch.newline
              +:+ "berkshire" +:+ Watch.newline +:+ "AAPL") in
  Forall Shape.short_symbol (Importer.import_from_text remove_dups "portfolio.txt" w)
  /\ Importer.import_from_text remove_dups "portfolio.txt" w = ["MSFT"; "AAPL"].
Proof.
  intros w.
  destruct (import_from_text_symbols remove_dups "portfolio.txt" w) as (_ & H & _).
  - intros l. apply NoDup_remove_dups.
  - intros l x. apply elem_of_remove_dups.
  - intros content Hfile. subst w. cbn in Hfile.
    rewrite lookup_insert_eq in Hfile. injection Hfile as <-. reflexivity.
  - split; [exact H | reflexivity].
Defined.

Section ImportedSymbols.

Lemma import_from_text_nonempty (list_of_set : list string -> list string)
    (file_path : string) (w : World) :
  (forall l x, x ∈ list_of_set l <-> x ∈ l) ->
  Forall (fun symbol => symbol <> EmptyString)
         (Importer.import_from_text list_of_set file_path w).
Proof.
  intros Hset. apply Forall_forall. intros x Hx.
  unfold Importer.import_from_text in Hx. apply (proj1 (Hset _ _)) in Hx.
  destruct (files w !! file_path) as [content|]; [|by apply elem_of_nil in Hx].
  destruct (io_error w); [by apply elem_of_nil in Hx|].
  by apply list_elem_of_filter in Hx as [[Hne _] _].
Qed.

End ImportedSymbols.

(** X23.  [import_portfolio] changes nothing when the file dialog is
    cancelled.  For a path that ends in ".txt", in any letter case, and
    a file whose capitals are modelled, it takes the symbols of
    [import_from_text], never those of the csv reader, and on a tracker
    whose table shows a watchlist without repetition it appends, once
    each, those that were not listed yet, raises nothing and reports
    their number. *)
Theorem import_portfolio_text (list_of_set : list string -> list string)
    (import_from_csv : string -> World -> list string)
    (self : App.UltimateRSITracker) (w : World) (file_path : string) :
  Importer.import_portfolio list_of_set import_from_csv self w EmptyString
  = (self, w, [], Watch.Finished)
  /\ (Shape.consistent self ->
      (forall l x, x ∈ list_of_set l <-> x ∈ l) ->
      (forall content,
         files w !! file_path = Some content -> Str.upper_in_range content = true) ->
      Text.endswith (Text.lower file_path) ".csv" = false ->
      Text.endswith (Text.lower file_path) ".txt" = true ->
      Importer.import_from_text list_of_set file_path w <> [] ->
      let symbols := Importer.import_from_text list_of_set file_path w in
      let result :=
        Importer.import_portfolio list_of_set import_from_csv self w file_path in
      exists fresh,
        result.2 = Watch.Finished
        /\ App.watchlist result.1.1.1 = App.watchlist self ++ fresh
        /\ Shape.consistent result.1.1.1
        /\ (forall x, x ∈ fresh <-> x ∈ symbols /\ x ∉ App.watchlist self)
        /\ result.1.2
           = [Watch.ShowInfo "Import Complete"
                (Watch.counts_message "imported" (length fresh) (length symbols))]
        /\ App.status_label result.1.1.1
           = "Imported " +:+ pretty (length fresh) +:+ " stocks from portfolio").
Proof.
  split; [reflexivity|].
  intros [Htree Hnd] Hset _ Hcsv Htxt Hne symbols result. subst result.
  unfold Importer.import_portfolio.
  destruct (App.is_empty file_path) eqn:He.
  { apply is_empty_true in He. subst file_path. discriminate Htxt. }
  rewrite Hcsv, Htxt. fold symbols.
  set (self1 := Watch.set_status self "Importing portfolio...").
  pose proof (import_from_text_nonempty list_of_set file_path w Hset) as Hsym.
  fold symbols in Hsym.
  destruct (add_each_spec symbols self1 0 Hsym (conj Htree Hnd))
    as (fresh & H1 & H2 & H3 & H4 & H5 & H6 & H7).
  exists fresh.
  destruct (Watch.add_each symbols self1 0) as [[after n] out].
  cbn [fst snd] in *. subst out n. clear Hsym.
  destruct symbols as [|s0 rest] eqn:Hs; [done|]. cbn [fst snd].
  split; [done|]. split; [done|]. split; [done|]. split; [done|].
  split; done.
Qed.

Lemma import_portfolio_text_witness :
  let w := write_file (sample_world 1000) "Portfolio.TXT"
             ("aapl" +:+ Watch.newline +:+ "msft") in
  let self := Watch.set_tree (App.set_watchlist App.new_tracker ["MSFT"]) ["MSFT"] in
  exists fresh,
    App.watchlist
      (Importer.import_portfolio remove_dups (fun _ _ => []) self w "Portfolio.TXT").1.1.1
    = ["MSFT"] ++ fresh.
Proof.
  intros w self.
  destruct (import_portfolio_text remove_dups (fun _ _ => []) self w "Portfolio.TXT")
    as [_ H].
  destruct H as (fresh & _ & Hw & _).
  - split; [reflexivity|]. apply (bool_decide_unpack _). vm_compute. exact I.
  - intros l x. apply elem_of_remove_dups.
  - intros content Hfile. subst w. cbn in Hfile.
    rewrite lookup_insert_eq in Hfile. injection Hfile as <-. reflexivity.
  - reflexivity.
  - reflexivity.
  - discriminate.
  - exists fresh. exact Hw.
Defined.

(** * Properties of the files of the enhanced tracker *)

Section JsonObjectRoundTrip.

Import JsonObject.

Lemma obj_run_encode_char (c : ascii) obj ctx (cur rest : string) :
  run (Str obj ctx cur) (Json.encode_char c +:+ rest)
  = run (Str obj ctx (Json.push cur c)) rest.
Proof.
  destruct c as [[] [] [] [] [] [] [] []]; reflexivity.
Qed.

Lemma obj_run_encode_chars (s : string) obj ctx (cur rest : string) :
  run (Str obj ctx cur) (Json.encode_chars s +:+ String Json.quote rest)
  = run (close obj ctx (cur +:+ s)) rest.
Proof.
  revert cur. induction s as [|c s IH]; intros cur.
  - rewrite string_app_nil_r. reflexivity.
  - cbn [Json.encode_chars]. rewrite string_app_assoc, obj_run_encode_char, IH.
    by rewrite push_app.
Qed.

(** Reading a whole string from the quote that opens it. *)
Lemma obj_run_string (s : string) obj ctx (rest : string) :
  run (Str obj ctx EmptyString)
      (Json.encode_chars s +:+ String Json.quote rest)
  = run (close obj ctx s) rest.
Proof. by rewrite obj_run_encode_chars. Qed.

Lemma encode_string_app (s rest : string) :
  Json.encode_string s +:+ rest
  = String Json.quote (Json.encode_chars s +:+ String Json.quote rest).
Proof.
  unfold Json.encode_string. by rewrite string_app_cons, string_app_assoc.
Qed.

Lemma run_key (k : string) obj (rest : string) :
  run (NextKey obj) (Json.encode_string k +:+ rest) = run (Colon obj k) rest.
Proof.
  rewrite encode_string_app.
  change (run (NextKey obj) (String Json.quote ?r))
    with (run (Str obj Key EmptyString) r).
  by rewrite obj_run_string.
Qed.

Lemma run_element (x : string) obj key acc (rest : string) :
  run (ArrNext obj key acc) (Json.encode_string x +:+ rest)
  = run (ArrAfter obj key (acc ++ [x])) rest.
Proof.
  rewrite encode_string_app.
  change (run (ArrNext obj key acc) (String Json.quote ?r))
    with (run (Str obj (Elem key acc) EmptyString) r).
  by rewrite obj_run_string.
Qed.

Lemma encode_elements_cons (x y : string) (l : list string) :
  encode_elements (x :: y :: l)
  = Json.encode_string x
    +:+ String "," (newline_indent 2 +:+ encode_elements (y :: l)).
Proof. reflexivity. Qed.

Lemma run_elements (l : list string) obj key acc (rest : string) :
  l <> [] ->
  run (ArrNext obj key acc)
      (encode_elements l +:+ newline_indent 1 +:+ String "]" rest)
  = run (After (obj ++ [(key, JList (acc ++ l))])) rest.
Proof.
  revert acc. induction l as [|x l IH]; intros acc Hne; [done|].
  destruct l as [|y l].
  - cbn [encode_elements]. rewrite run_element. reflexivity.
  - rewrite encode_elements_cons, string_app_assoc, run_element.
    rewrite string_app_cons, string_app_assoc.
    change (run (ArrAfter obj key (acc ++ [x]))
              (String "," (newline_indent 2 +:+ ?r)))
      with (run (ArrNext obj key (acc ++ [x])) r).
    rewrite IH by done. by rewrite <- app_assoc.
Qed.

Lemma elements_start (x : string) (l : list string) obj key (rest : string) :
  run (ArrOpen obj key) (encode_elements (x :: l) +:+ rest)
  = run (ArrNext obj key []) (encode_elements (x :: l) +:+ rest).
Proof.
  destruct l as [|y l].
  - cbn [encode_elements]. by rewrite encode_string_app.
  - by rewrite encode_elements_cons, string_app_assoc, encode_string_app.
Qed.

Lemma run_value (v : jvalue) obj key (rest : string) :
  run (Value obj key) (encode_value v +:+ rest)
  = run (After (obj ++ [(key, v)])) rest.
Proof.
  destruct v as [s|l].
  - cbn [encode_value]. rewrite encode_string_app.
    change (run (Value obj key) (String Json.quote ?r))
      with (run (Str obj (Val key) EmptyString) r).
    by rewrite obj_run_string.
  - destruct l as [|x l]; [reflexivity|].
    change (encode_value (JList (x :: l)))
      with (String "[" (newline_indent 2 +:+ encode_elements (x :: l)
                        +:+ newline_indent 1 +:+ String "]" EmptyString)).
    rewrite string_app_cons, !string_app_assoc, string_app_cons.
    change (EmptyString +:+ rest) with rest.
    change (run (Value obj key) (String "[" (newline_indent 2 +:+ ?r)))
      with (run (ArrOpen obj key) r).
    rewrite elements_start. by rewrite run_elements.
Qed.

Lemma run_member (m : string * jvalue) obj (rest : string) :
  run (NextKey obj) (encode_member m +:+ rest)
  = run (After (obj ++ [m])) rest.
Proof.
  destruct m as [k v]. unfold encode_member. cbn [fst snd].
  rewrite string_app_assoc, run_key, !string_app_cons.
  change (run (Colon obj k) (String ":" (String " " ?r)))
    with (run (Value obj k) r).
  by rewrite run_value.
Qed.

Lemma encode_members_cons (m n : string * jvalue) (l : list (string * jvalue)) :
  encode_members (m :: n :: l)
  = encode_member m +:+ String "," (newline_indent 1 +:+ encode_members (n :: l)).
Proof. reflexivity. Qed.

Lemma run_members (l : list (string * jvalue)) obj :
  l <> [] ->
  run (NextKey obj)
      (encode_members l +:+ newline_indent 0 +:+ String "}" EmptyString)
  = Parsed (obj ++ l).
Proof.
  revert obj. induction l as [|m l IH]; intros obj Hne; [done|].
  destruct l as [|n l].
  - cbn [encode_members]. rewrite run_member. reflexivity.
  - rewrite encode_members_cons, string_app_assoc, run_member.
    rewrite string_app_cons, string_app_assoc.
    change (run (After (obj ++ [m])) (String "," (newline_indent 1 +:+ ?r)))
      with (run (NextKey (obj ++ [m])) r).
    rewrite IH by done. by rewrite <- app_assoc.
Qed.

(** Decoding what the encoder writes gives back the dictionary. *)
Lemma obj_loads_dumps (members : list (string * jvalue)) :
  loads (dumps members) = Parsed members.
Proof.
  destruct members as [|m l]; [reflexivity|].
  unfold loads.
  change (dumps (m :: l))
    with (String "{" (newline_indent 1 +:+ encode_members (m :: l)
                      +:+ newline_indent 0 +:+ String "}" EmptyString)).
  etrans; [|by apply (run_members (m :: l) [])].
  destruct l as [|n l].
  - cbn [encode_members]. unfold encode_member.
    rewrite !string_app_assoc, !encode_string_app. reflexivity.
  - rewrite encode_members_cons. unfold encode_member.
    rewrite !string_app_assoc, !encode_string_app. reflexivity.
Qed.

End JsonObjectRoundTrip.

(** X24.  For the enhanced tracker, whatever the time stamp written
    with it: after [save_watchlist] has written the file,
    [load_watchlist] reads back the saved watchlist, and after
    [save_portfolio], [load_portfolio] reads back the saved portfolio
    symbols, the same symbols in the same order. *)
Theorem enhanced_round_trip (self other : Enhanced.EnhancedRSIStockTracker)
    (w w' : World) (stamp : string) :
  io_error w = false ->
  io_error w' = false ->
  (files w' = files (Enhanced.save_watchlist self w stamp) ->
   Enhanced.watchlist_file other = Enhanced.watchlist_file self ->
   exists loaded,
     Enhanced.load_watchlist other w' = Some loaded
     /\ Enhanced.watchlist loaded = Enhanced.watchlist self)
  /\ (files w' = files (Enhanced.save_portfolio self w stamp) ->
      Enhanced.portfolio_file other = Enhanced.portfolio_file self ->
      exists loaded,
        Enhanced.load_portfolio other w' = Some loaded
        /\ Enhanced.portfolio_symbols loaded = Enhanced.portfolio_symbols self).
Proof.
  intros Hio Hio'. split; intros Hfiles Hfile.
  - unfold Enhanced.load_watchlist, Enhanced.save_watchlist in *.
    rewrite Hio in Hfiles. rewrite Hfiles, Hfile, Hio'. cbn [write_file files].
    rewrite lookup_insert_eq. unfold Enhanced.load_list.
    rewrite obj_loads_dumps. by eexists.
  - unfold Enhanced.load_portfolio, Enhanced.save_portfolio in *.
    rewrite Hio in Hfiles. rewrite Hfiles, Hfile, Hio'. cbn [write_file files].
    rewrite lookup_insert_eq. unfold Enhanced.load_list.
    rewrite obj_loads_dumps. by eexists.
Qed.

Lemma enhanced_round_trip_witness :
  let self :=
    {| Enhanced.watchlist := ["AAPL"; "BRK.B"];
       Enhanced.watchlist_file := "enhanced_watchlist.json";
       Enhanced.portfolio_symbols := [];
       Enhanced.portfolio_file := "seeking_alpha_portfolio.json" |} in
  exists loaded,
    Enhanced.load_watchlist (Enhanced.set_watchlist self [])
      (Enhanced.save_watchlist self (sample_world 1000) "2024-05-01T10:30:00.000001")
    = Some loaded
    /\ Enhanced.watchlist loaded = ["AAPL"; "BRK.B"].
Proof.
  intros self.
  destruct (enhanced_round_trip self (Enhanced.set_watchlist self [])
              (sample_world 1000)
              (Enhanced.save_watchlist self (sample_world 1000)
                 "2024-05-01T10:30:00.000001")
              "2024-05-01T10:30:00.000001") as [H _]; [reflexivity..|].
  apply H; reflexivity.
Defined.

(** X25.  A file in the format of the other trackers, a bare list of
    symbols as their [save_watchlist] writes it, is read by the
    enhanced tracker as an empty watchlist: the decoded list has no
    [get], and the exception is caught. *)
Theorem enhanced_reads_list_as_empty (self : Enhanced.EnhancedRSIStockTracker)
    (w : World) (l : list string) :
  files w !! Enhanced.watchlist_file self = Some (Json.dumps l) ->
  Enhanced.load_watchlist self w = Some (Enhanced.set_watchlist self []).
Proof.
  intros Hfile. unfold Enhanced.load_watchlist. rewrite Hfile.
  by destruct (io_error w).
Qed.

Lemma enhanced_reads_list_as_empty_witness :
  let self :=
    {| Enhanced.watchlist := ["TSLA"];
       Enhanced.watchlist_file := "watchlist.json";
       Enhanced.portfolio_symbols := [];
       Enhanced.portfolio_file := "seeking_alpha_portfolio.json" |} in
  Enhanced.load_watchlist self
    (App.save_watchlist (App.set_watchlist App.new_tracker ["AAPL"; "MSFT"])
       (sample_world 1000))
  = Some (Enhanced.set_watchlist self []).
Proof.
  intros self.
  apply (enhanced_reads_list_as_empty self _ ["AAPL"; "MSFT"]). reflexivity.
Defined.

(** * The pipeline of [plot_rsi_analysis] *)

Section Pipeline.

Local Open Scope fval_scope.

Lemma length_ema_rsi (self : Indicators.RSICalculator) (data out : Series) :
  Indicators.calculate_rsi self data = Some out -> length out = length data.
Proof.
  unfold Indicators.calculate_rsi.
  set (gain := Pandas.where_ (fun d => F.gt d (Fin 0)) (Fin 0) (Pandas.diff data)).
  set (loss := F.neg <$> Pandas.where_ (fun d => F.lt d (Fin 0)) (Fin 0)
                           (Pandas.diff data)).
  assert (Hlg : length gain = length data)
    by (unfold gain; by rewrite length_where, length_diff).
  assert (Hll : length loss = length data)
    by (unfold loss; by rewrite length_fmap, length_where, length_diff).
  destruct (Pandas.ewm_mean _ gain) as [g|] eqn:Hg; [|discriminate].
  destruct (Pandas.ewm_mean _ loss) as [l|] eqn:Hl; [|discriminate].
  cbn [mbind option_bind]. intros [= <-].
  apply length_ewm_mean in Hg, Hl.
  rewrite length_fmap, length_zip_with. lia.
Qed.

(** The rolling value over a series that starts with NaN is NaN at every
    position below the window. *)
Lemma rolling_at_nan_head f (window : nat) (s : Series) (i : nat) :
  head s = Some NaN -> (i < window)%nat ->
  Pandas.rolling_at f window s i = NaN.
Proof.
  intros Hhead Hi. unfold Pandas.rolling_at.
  destruct (window =? 0)%nat eqn:H0; [done|].
  destruct (i + 1 <? window)%nat eqn:H1; [done|]. cbn [orb].
  apply Nat.ltb_ge in H1. apply Nat.eqb_neq in H0.
  unfold Pandas.window_at. replace (i + 1 - window)%nat with 0%nat by lia.
  destruct s as [|x s]; [done|]. injection Hhead as ->.
  destruct window as [|window]; [done|]. done.
Qed.

Lemma length_divergence_column (prices rsi : Series) (window : nat) :
  length rsi = length prices ->
  length (Indicators.divergence_column prices rsi window) = length prices.
Proof.
  intros Hlen. unfold Indicators.divergence_column, Indicators.loc_assign,
    Indicators.and3, Indicators.rolling_slope.
  rewrite !length_zip_with, !length_fmap, !length_seq, length_replicate. lia.
Qed.

End Pipeline.

(** X26.  When [detect_divergence] is given the prices and the RSI that
    [calculate_rsi] computed from them, as [plot_rsi_analysis] does, it
    returns one row per price, and each of the first [window] rows is
    labelled NONE: the first [window - 1] have no complete window, and
    the window of the next one holds the NaN the RSI starts with. *)
Theorem detect_divergence_warm_up (self : Indicators.RSICalculator)
    (prices rsi : Series) (window : nat) :
  (2 <= window)%nat ->
  Indicators.calculate_rsi self prices = Some rsi ->
  exists rows,
    Indicators.detect_divergence self prices rsi window = Some rows
    /\ length rows = length prices
    /\ forall i, (i < length prices)%nat -> (i < window)%nat ->
         exists row, rows !! i = Some row
                     /\ Indicators.Divergence row = Indicators.NONE.
Proof.
  intros Hw Hrsi.
  pose proof (length_ema_rsi _ _ _ Hrsi) as Hlen.
  unfold Indicators.detect_divergence.
  replace (window <? 2)%nat with false by (symmetry; apply Nat.ltb_ge; lia).
  eexists. split; [done|]. split.
  { rewrite length_zip_with, length_zip, length_divergence_column by done. lia. }
  intros i Hi Hiw.
  destruct (lookup_lt_is_Some_2 prices i Hi) as [p Hp].
  destruct (lookup_lt_is_Some_2 rsi i ltac:(lia)) as [r Hr].
  assert (Hne : prices <> []) by (intros ->; cbn in Hi; lia).
  pose proof (calculate_rsi_head _ _ _ Hne Hrsi) as Hhead.
  pose proof (lookup_divergence_column prices rsi window i p r Hp Hr) as Hcol.
  cbn zeta in Hcol.
  rewrite (rolling_at_nan_head _ window rsi i Hhead Hiw) in Hcol.
  change (F.lt NaN (Fin 0)) with false in Hcol.
  change (F.gt NaN (Fin 0)) with false in Hcol.
  rewrite !andb_false_r in Hcol. cbn [andb] in Hcol.
  eexists. split.
  - rewrite lookup_zip_with, Hcol.
    rewrite (proj2 (lookup_zip_with_Some pair _ _ i _)) by eauto.
    done.
  - done.
Qed.

Lemma detect_divergence_warm_up_witness :
  exists rows,
    Indicators.detect_divergence (Indicators.init 2)
      [Fin 10; Fin 9; Fin 8; Fin 7] [NaN; Fin 0; Fin 0; Fin 0] 3 = Some rows
    /\ length rows = 4%nat
    /\ forall i, (i < 4)%nat -> (i < 3)%nat ->
         exists row, rows !! i = Some row
                     /\ Indicators.Divergence row = Indicators.NONE.
Proof.
  apply (detect_divergence_warm_up (Indicators.init 2)
           [Fin 10; Fin 9; Fin 8; Fin 7] [NaN; Fin 0; Fin 0; Fin 0] 3).
  - lia.
  - vm_compute. reflexivity.
Defined.
